(** * A shallow embedding of the prediction-market ingestion pipeline

    The development follows the repository's layout: the Python values and
    exceptions the code manipulates, the normalization schemas
    ([src/connectors/polymarket/schemas.py]), the relational storage backend
    ([src/storage/postgres.py]), the observability registry
    ([src/core/observability.py]), the ingestion engine
    ([src/core/ingestion.py]), the HTTP client
    ([src/connectors/polymarket/client.py]) and the command-line interface
    ([cli/commands.py]). What lies outside the repository is a parameter
    of the development: the date parser and the textual rendering of
    values, the database server's verdict on the values of a row, the
    replies of the HTTP transport, and the clock. *)

From Stdlib Require Import ZArith List String Ascii Bool Lia Floats.
From Stdlib Require OrderedTypeEx.
From stdpp Require Import base decidable option list strings gmap pretty.

Set Warnings "-inexact-float,-register-all".
Local Open Scope string_scope.
Local Open Scope list_scope.
Local Open Scope Z_scope.

(** ** Python exceptions and results *)

(** The exception classes that occur in the modelled code. [RetryError] is
    the wrapper tenacity raises when its stop condition is reached. *)
Inductive exn : Type :=
| ValueError
| TypeError
| OverflowError
| RecursionError
| IntegrityError (constraint : string)
| DataError (column : string)
| OperationalError
| TimeoutException
| NetworkError
| HTTPStatusError (status_code : Z) (text : string)
| JSONDecodeError
| RetryError (last : exn).

(** [type(e).__name__] *)
Definition exn_name (e : exn) : string :=
  match e with
  | ValueError => "ValueError"
  | TypeError => "TypeError"
  | OverflowError => "OverflowError"
  | RecursionError => "RecursionError"
  | IntegrityError _ => "IntegrityError"
  | DataError _ => "DataError"
  | OperationalError => "OperationalError"
  | TimeoutException => "TimeoutException"
  | NetworkError => "NetworkError"
  | HTTPStatusError _ _ => "HTTPStatusError"
  | JSONDecodeError => "JSONDecodeError"
  | RetryError _ => "RetryError"
  end.

Inductive result (A : Type) : Type :=
| Ok (a : A)
| Raise (e : exn).
Arguments Ok {A} a.
Arguments Raise {A} e.

Definition rbind {A B} (r : result A) (k : A -> result B) : result B :=
  match r with
  | Ok a => k a
  | Raise e => Raise e
  end.

Notation "'try!' x <- r ; k" := (rbind r (fun x => k))
  (at level 10, x name, r at level 100, k at level 200).

Definition is_ok {A} (r : result A) : bool :=
  match r with Ok _ => true | Raise _ => false end.

(** ** datetime *)

(** A naive [datetime]: the proleptic Gregorian ordinal of its date
    ([date.toordinal()]) and the time-of-day fields. The development
    covers naive datetimes only: the offset a date text may carry is not
    represented, so that ordering two datetimes never raises here, whereas
    Python refuses to order a naive and an aware one. *)
Record datetime : Type := mkdt {
  ordinal : Z;
  hour : Z;
  minute : Z;
  second : Z;
  microsecond : Z
}.

Definition dt_tuple (d : datetime) : list Z :=
  [ordinal d; hour d; minute d; second d; microsecond d].

Fixpoint lex_ltb (a b : list Z) : bool :=
  match a, b with
  | x :: a', y :: b' => (x <? y) || ((x =? y) && lex_ltb a' b')
  | [], _ :: _ => true
  | _, [] => false
  end.

(** [a < b] on datetimes compares the fields lexicographically. *)
Definition dt_ltb (a b : datetime) : bool := lex_ltb (dt_tuple a) (dt_tuple b).
Definition dt_leb (a b : datetime) : bool := negb (dt_ltb b a).

(** CPython's [_days_before_year], [_is_leap], [_days_before_month] and
    [_ymd2ord], used to write calendar dates in examples. *)
Definition _is_leap (year : Z) : bool :=
  (year mod 4 =? 0) && (negb (year mod 100 =? 0) || (year mod 400 =? 0)).

Definition _days_before_year (year : Z) : Z :=
  let y := year - 1 in y * 365 + y / 4 - y / 100 + y / 400.

Definition _days_before_month (year month : Z) : Z :=
  nth (Z.to_nat month) [-1; 0; 31; 59; 90; 120; 151; 181; 212; 243; 273; 304; 334] 0
  + (if (2 <? month) && _is_leap year then 1 else 0).

Definition _ymd2ord (year month day : Z) : Z :=
  _days_before_year year + _days_before_month year month + day.

(** [datetime(year, month, day, h, m, s)] *)
Definition datetime_of (year month day h m s : Z) : datetime :=
  mkdt (_ymd2ord year month day) h m s 0.

(** [dt.replace(hour=h, minute=m, second=s)]: the date and the microsecond
    are kept. *)
Definition replace_hms (d : datetime) (h m s : Z) : datetime :=
  mkdt (ordinal d) h m s (microsecond d).

(** [dt + timedelta(days=n)] *)
Definition add_days (d : datetime) (n : Z) : datetime :=
  mkdt (ordinal d + n) (hour d) (minute d) (second d) (microsecond d).

#[global] Instance datetime_eq_dec : EqDecision datetime.
Proof. solve_decision. Defined.

(** ** Loosely typed payload values *)

(** The values a decoded JSON payload can hold, plus an already-typed
    [datetime]. A dict is an association list in insertion order. *)
Inductive value : Type :=
| VNone
| VBool (b : bool)
| VInt (z : Z)
| VFloat (f : float)
| VStr (s : string)
| VList (l : list value)
| VDict (d : list (string * value))
| VDatetime (d : datetime).

Definition raw_dict : Type := list (string * value).

(** [d.get(key)] as an option: [None] when the key is absent. *)
Fixpoint dict_lookup (key : string) (d : raw_dict) : option value :=
  match d with
  | [] => None
  | (k, v) :: d' => if String.eqb k key then Some v else dict_lookup key d'
  end.

(** [d.get(key, default)] *)
Definition dict_get (d : raw_dict) (key : string) (default : value) : value :=
  match dict_lookup key d with
  | Some v => v
  | None => default
  end.

(** ** The builtin [float()]

    [float(x)] is CPython's builtin: exact on floats, correctly rounded
    (round-half-to-even) on integers and on decimal literals, [OverflowError]
    on an integer beyond the binary64 range, [ValueError] on a string that
    is not a float literal, [TypeError] on any other type. The string
    grammar is the documented one, for ASCII input: optional surrounding
    whitespace, an optional sign, then [inf], [infinity] or [nan] in any
    case, or decimal digits (single underscores allowed between digits)
    with an optional fraction and exponent. *)

(** The nearest binary64 value to [p / q] for [p, q > 0], as a mantissa
    below [2^53] and a binary exponent at least [-1074]; [None] when the
    rounded value exceeds the largest finite float. *)
Definition round_ratio (p q : Z) : option (Z * Z) :=
  let k := Z.log2 p - Z.log2 q in
  let above := if 0 <=? k then q * 2 ^ k <=? p else q <=? p * 2 ^ (- k) in
  let e2 := if above then k else k - 1 in
  let ex := Z.max (e2 - 52) (-1074) in
  let num := if 0 <=? ex then p else p * 2 ^ (- ex) in
  let den := if 0 <=? ex then q * 2 ^ ex else q in
  let d := num / den in
  let r := num mod den in
  let up := (den <? 2 * r) || ((den =? 2 * r) && Z.odd d) in
  let m := if up then d + 1 else d in
  let '(m, ex) := if m =? 2 ^ 53 then (2 ^ 52, ex + 1) else (m, ex) in
  if 971 <? ex then None else Some (m, ex).

Definition float_of_mant_exp (neg : bool) (m ex : Z) : float :=
  let f := Z.ldexp (PrimFloat.of_uint63 (Uint63.of_Z m)) ex in
  if neg then PrimFloat.opp f else f.

(** [float(z)] on an integer. *)
Definition float_of_int (z : Z) : result float :=
  if z =? 0 then Ok 0%float
  else match round_ratio (Z.abs z) 1 with
       | Some (m, ex) => Ok (float_of_mant_exp (z <? 0) m ex)
       | None => Raise OverflowError
       end.

(** The value of the decimal literal [(-1)^neg * n * 10^e], [n >= 0],
    whatever the number of leading zeros it was written with. With
    [b = Z.log2 n], the value is at least [2^(b + 3e)] when [e >= 0] and
    below [2^(b + 1 + 3e)] when [e < 0], since [8 < 10]: a literal that far
    outside the binary64 range is rounded without building the power of
    ten. *)
Definition float_of_decimal (neg : bool) (n : Z) (e : Z) : float :=
  let signed (f : float) := if neg then PrimFloat.opp f else f in
  let b := Z.log2 n in
  if n =? 0 then signed 0%float
  else if (0 <=? e) && (1100 <? b + 3 * e) then signed infinity
  else if (e <? 0) && (b + 3 * e <? -1101) then signed 0%float
  else match (if 0 <=? e then round_ratio (n * 10 ^ e) 1
              else round_ratio n (10 ^ (- e))) with
       | Some (m, ex) => float_of_mant_exp neg m ex
       | None => signed infinity
       end.

Definition is_digit (c : ascii) : bool :=
  let n := nat_of_ascii c in (48 <=? n)%nat && (n <=? 57)%nat.

Definition digit_val (c : ascii) : Z := Z.of_nat (nat_of_ascii c) - 48.

(** Whitespace stripped by [float()]: tab, LF, VT, FF, CR, FS, GS, RS, US
    and space. *)
Definition is_space (c : ascii) : bool :=
  let n := nat_of_ascii c in
  ((9 <=? n)%nat && (n <=? 13)%nat) || ((28 <=? n)%nat && (n <=? 32)%nat).

Definition lower (c : ascii) : ascii :=
  let n := nat_of_ascii c in
  if (65 <=? n)%nat && (n <=? 90)%nat then ascii_of_nat (n + 32) else c.

(** The rest of a [digitpart] after its first digit: digits, each
    optionally preceded by one underscore. Returns the accumulated integer,
    the number of digits read and the unread input. *)
Fixpoint digits_rest (s : list ascii) (acc nd : Z) : Z * Z * list ascii :=
  match s with
  | c :: s' =>
      if is_digit c then digits_rest s' (10 * acc + digit_val c) (nd + 1)
      else if Ascii.eqb c "_" then
        match s' with
        | c' :: s'' =>
            if is_digit c' then digits_rest s'' (10 * acc + digit_val c') (nd + 1)
            else (acc, nd, s)
        | [] => (acc, nd, s)
        end
      else (acc, nd, s)
  | [] => (acc, nd, s)
  end.

(** A [digitpart] continuing the integer [acc]; [None] when the input does
    not start with a digit. *)
Definition digitpart (s : list ascii) (acc nd : Z) : option (Z * Z * list ascii) :=
  match s with
  | c :: s' => if is_digit c then Some (digits_rest s' (10 * acc + digit_val c) (nd + 1))
               else None
  | [] => None
  end.

Fixpoint lstrip (s : list ascii) : list ascii :=
  match s with
  | c :: s' => if is_space c then lstrip s' else s
  | [] => []
  end.

Definition strip (s : list ascii) : list ascii :=
  rev (lstrip (rev (lstrip s))).

Definition split_sign (s : list ascii) : bool * list ascii :=
  match s with
  | c :: s' => if Ascii.eqb c "-" then (true, s')
               else if Ascii.eqb c "+" then (false, s')
               else (false, s)
  | [] => (false, s)
  end.

(** [exponent ::= ("e" | "E") [sign] digitpart], then the end of input. *)
Definition parse_exponent (s : list ascii) : option Z :=
  match s with
  | [] => Some 0
  | c :: s' =>
      if Ascii.eqb (lower c) "e" then
        let '(neg, s'') := split_sign s' in
        match digitpart s'' 0 0 with
        | Some (x, _, []) => Some (if neg then - x else x)
        | _ => None
        end
      else None
  end.

(** [number ::= [digitpart] "." digitpart | digitpart ["."]] followed by an
    optional exponent: the digits as one integer, their count, and the
    decimal exponent. *)
Definition parse_number (s : list ascii) : option (Z * Z * Z) :=
  let after_fraction (n nd nfrac : Z) (rest : list ascii) :=
    match parse_exponent rest with
    | Some x => Some (n, nd, x - nfrac)
    | None => None
    end in
  match digitpart s 0 0 with
  | Some (n, nd, rest) =>
      match rest with
      | c :: rest' =>
          if Ascii.eqb c "." then
            match digitpart rest' n nd with
            | Some (n', nd', rest'') => after_fraction n' nd' (nd' - nd) rest''
            | None => after_fraction n nd 0 rest'
            end
          else after_fraction n nd 0 rest
      | [] => Some (n, nd, 0)
      end
  | None =>
      match s with
      | c :: rest' =>
          if Ascii.eqb c "." then
            match digitpart rest' 0 0 with
            | Some (n', nd', rest'') => after_fraction n' nd' nd' rest''
            | None => None
            end
          else None
      | [] => None
      end
  end.

(** [float(s)] on a string. *)
Definition float_of_str (s : string) : result float :=
  let '(neg, body) := split_sign (strip (list_ascii_of_string s)) in
  let word := string_of_list_ascii (map lower body) in
  if String.eqb word "inf" || String.eqb word "infinity"
  then Ok (if neg then neg_infinity else infinity)
  else if String.eqb word "nan" then Ok nan
  else match parse_number body with
       | Some (n, _, e) => Ok (float_of_decimal neg n e)
       | None => Raise ValueError
       end.

Definition py_float (v : value) : result float :=
  match v with
  | VBool b => Ok (if b then 1%float else 0%float)
  | VInt z => float_of_int z
  | VFloat f => Ok f
  | VStr s => float_of_str s
  | VNone | VList _ | VDict _ | VDatetime _ => Raise TypeError
  end.

(** ** The language runtime outside the repository

    [parse_date] is [dateutil.parser.parse] (it raises a [ValueError]
    subclass on unknown formats and, as its documentation says,
    [OverflowError] on out-of-range dates), read without the offset of a
    text that carries one; [py_repr] is Python's textual rendering of
    floats, containers and datetimes, used by [str()]. *)
Record runtime : Type := {
  parse_date : string -> result datetime;
  py_repr : value -> string
}.

(** [str(v)] *)
Definition py_str (rt : runtime) (v : value) : string :=
  match v with
  | VStr s => s
  | VNone => "None"
  | VBool true => "True"
  | VBool false => "False"
  | VInt z => pretty z
  | VFloat _ | VList _ | VDict _ | VDatetime _ => py_repr rt v
  end.

(** [isinstance(e, (ValueError, TypeError))]: what the clause
    [except (ValueError, TypeError)] catches. [JSONDecodeError] derives from
    [ValueError]. *)
Definition is_value_or_type_error (e : exn) : bool :=
  match e with
  | ValueError | TypeError | JSONDecodeError => true
  | _ => false
  end.

(** * Normalization schemas ([schemas.py]) *)

Record Market : Type := {
  m_market_id : string;
  m_source : string;
  m_question : value;
  m_description : value;
  m_end_date : option datetime;
  m_resolution_source : value;
  m_category : value;
  m_tags : value;
  m_liquidity : option float;
  m_volume_24h : option float;
  m_created_at : option datetime;
  m_updated_at : option datetime;
  m_raw_data : raw_dict
}.

Record Trade : Type := {
  t_trade_id : string;
  t_source : string;
  t_market_id : string;
  t_outcome_id : string;
  t_price : option float;
  t_quantity : option float;
  t_timestamp : option datetime;
  t_side : value;
  t_taker_address : value;
  t_maker_address : value;
  t_transaction_hash : value;
  t_raw_data : raw_dict
}.

Record PriceSnapshot : Type := {
  s_market_id : string;
  s_source : string;
  s_outcome_id : string;
  s_timestamp : datetime;
  s_implied_probability : option float;
  s_bid : option float;
  s_ask : option float;
  s_mid : option float;
  s_spread : option float;
  s_volume_24h : option float;
  s_liquidity : option float;
  s_raw_data : raw_dict
}.

Section Schemas.
Context (rt : runtime).

(** [_parse_datetime(value)] *)
Definition _parse_datetime (v : value) : result (option datetime) :=
  match v with
  | VNone => Ok None
  | VDatetime d => Ok (Some d)
  | VStr s =>
      match parse_date rt s with
      | Ok d => Ok (Some d)
      | Raise e => if is_value_or_type_error e then Ok None else Raise e
      end
  | _ => Ok None
  end.

(** [_parse_float(value, default)] *)
Definition _parse_float (v : value) (default : option float) : result (option float) :=
  match v with
  | VNone => Ok default
  | _ =>
      match py_float v with
      | Ok f => Ok (Some f)
      | Raise e => if is_value_or_type_error e then Ok default else Raise e
      end
  end.

Definition normalize_market_from_raw (raw : raw_dict) (source : string) : result Market :=
  let market_id := py_str rt (dict_get raw "id" (VStr "")) in
  let question := dict_get raw "question" (VStr "") in
  let description := dict_get raw "description" VNone in
  try! end_date <- _parse_datetime (dict_get raw "endDate" VNone);
  let resolution_source := dict_get raw "resolutionSource" VNone in
  let category := dict_get raw "category" VNone in
  let tags := dict_get raw "tags" (VList []) in
  try! liquidity <- _parse_float (dict_get raw "liquidity" VNone) None;
  try! volume_24h <- _parse_float (dict_get raw "volume24h" VNone) None;
  try! created_at <- _parse_datetime (dict_get raw "createdAt" VNone);
  try! updated_at <- _parse_datetime (dict_get raw "updatedAt" VNone);
  Ok {| m_market_id := market_id;
        m_source := source;
        m_question := question;
        m_description := description;
        m_end_date := end_date;
        m_resolution_source := resolution_source;
        m_category := category;
        m_tags := tags;
        m_liquidity := liquidity;
        m_volume_24h := volume_24h;
        m_created_at := created_at;
        m_updated_at := updated_at;
        m_raw_data := raw |}.

Definition normalize_trade_from_raw (raw : raw_dict) (source : string) : result Trade :=
  let trade_id := py_str rt (dict_get raw "id" (VStr "")) in
  let market_id := py_str rt (dict_get raw "marketId" (VStr "")) in
  let outcome_id := py_str rt (dict_get raw "outcomeId" (VStr "")) in
  try! price <- _parse_float (dict_get raw "price" VNone) (Some 0%float);
  try! quantity <- _parse_float (dict_get raw "quantity" VNone) (Some 0%float);
  try! timestamp <- _parse_datetime (dict_get raw "timestamp" VNone);
  let side := dict_get raw "side" VNone in
  let taker_address := dict_get raw "takerAddress" VNone in
  let maker_address := dict_get raw "makerAddress" VNone in
  let transaction_hash := dict_get raw "transactionHash" VNone in
  Ok {| t_trade_id := trade_id;
        t_source := source;
        t_market_id := market_id;
        t_outcome_id := outcome_id;
        t_price := price;
        t_quantity := quantity;
        t_timestamp := timestamp;
        t_side := side;
        t_taker_address := taker_address;
        t_maker_address := maker_address;
        t_transaction_hash := transaction_hash;
        t_raw_data := raw |}.

(** [utcnow] is the reading of [datetime.utcnow()] at the call. *)
Definition normalize_price_snapshot_from_raw (utcnow : datetime)
    (raw : raw_dict) (source : string) : result PriceSnapshot :=
  let market_id := py_str rt (dict_get raw "marketId" (VStr "")) in
  let outcome_id := py_str rt (dict_get raw "outcomeId" (VStr "")) in
  try! parsed <- _parse_datetime (dict_get raw "timestamp" VNone);
  let timestamp := match parsed with Some d => d | None => utcnow end in
  try! implied_probability <- _parse_float (dict_get raw "impliedProbability" VNone) (Some 0%float);
  try! bid <- _parse_float (dict_get raw "bid" VNone) None;
  try! ask <- _parse_float (dict_get raw "ask" VNone) None;
  try! mid <- _parse_float (dict_get raw "mid" VNone) None;
  try! spread <- _parse_float (dict_get raw "spread" VNone) None;
  try! volume_24h <- _parse_float (dict_get raw "volume24h" VNone) None;
  try! liquidity <- _parse_float (dict_get raw "liquidity" VNone) None;
  let mid :=
    match mid, bid, ask with
    | None, Some b, Some a => Some ((b + a) / 2)%float
    | _, _, _ => mid
    end in
  let spread :=
    match spread, bid, ask with
    | None, Some b, Some a => Some (a - b)%float
    | _, _, _ => spread
    end in
  Ok {| s_market_id := market_id;
        s_source := source;
        s_outcome_id := outcome_id;
        s_timestamp := timestamp;
        s_implied_probability := implied_probability;
        s_bid := bid;
        s_ask := ask;
        s_mid := mid;
        s_spread := spread;
        s_volume_24h := volume_24h;
        s_liquidity := liquidity;
        s_raw_data := raw |}.
End Schemas.

(** * Observability ([observability.py]) *)

Inductive level : Type := Info | Debug | Error.

(** A logged key/value: a plain value, or [str(e)] of an exception. *)
Inductive field : Type :=
| FVal (v : value)
| FErr (e : exn).

(** One structured log emission. Wall-clock durations are not recorded. *)
Record log_entry : Type := {
  lvl : level;
  event : string;
  fields : list (string * field)
}.

(** * Storage backend ([postgres.py]) *)

(** ** Sessions over one table

    A table is the list of its rows. A session holds the committed table,
    the transaction's view of it, and the units of work not yet flushed.
    [accepts] is the database's verdict on a row it is asked to write (its
    column constraints); [uq] names the table's unique constraint on the
    natural key. *)
Section Session.
Context {R K : Type} `{EqDecision K}.
Context (key : R -> K).
(** [set_columns existing incoming]: [setattr] of every non-key column. *)
Context (set_columns : R -> R -> R).
Context (accepts : R -> result unit).
Context (uq : string).

Inductive unit_of_work : Type :=
| New (r : R)               (* session.add(record) *)
| Dirty (k : K) (r : R).    (* attributes set on the row found under k *)

Record session : Type := {
  committed : list R;
  working : list R;
  pending : list unit_of_work
}.

(** [self.SessionLocal()] *)
Definition open_session (table : list R) : session :=
  {| committed := table; working := table; pending := [] |}.

Definition lookup_row (k : K) (t : list R) : option R :=
  find (fun row => bool_decide (key row = k)) t.

Fixpoint replace_first (k : K) (new : R) (t : list R) : list R :=
  match t with
  | [] => []
  | row :: t' =>
      if bool_decide (key row = k) then new :: t'
      else row :: replace_first k new t'
  end.

(** Writing one unit of work to the transaction's view. *)
Definition write_unit (u : unit_of_work) (t : list R) : result (list R) :=
  match u with
  | New r =>
      try! _ <- accepts r;
      match lookup_row (key r) t with
      | Some _ => Raise (IntegrityError uq)
      | None => Ok (t ++ [r])
      end
  | Dirty k r =>
      try! _ <- accepts r;
      Ok (replace_first k r t)
  end.

Fixpoint write_units (us : list unit_of_work) (t : list R) : result (list R) :=
  match us with
  | [] => Ok t
  | u :: us' => try! t' <- write_unit u t; write_units us' t'
  end.

(** [session.flush()]: on failure the session is left as it was. *)
Definition flush (s : session) : result unit * session :=
  match write_units (pending s) (working s) with
  | Ok t => (Ok tt, {| committed := committed s; working := t; pending := [] |})
  | Raise e => (Raise e, s)
  end.

(** [session.query(T).filter_by(key).first()], with autoflush. *)
Definition query_first (k : K) (s : session) : result (option R) * session :=
  match flush s with
  | (Ok _, s') => (Ok (lookup_row k (working s')), s')
  | (Raise e, s') => (Raise e, s')
  end.

Definition add (r : R) (s : session) : session :=
  {| committed := committed s; working := working s;
     pending := pending s ++ [New r] |}.

Definition set_attrs (existing incoming : R) (s : session) : session :=
  {| committed := committed s; working := working s;
     pending := pending s ++ [Dirty (key existing) (set_columns existing incoming)] |}.

(** [session.commit()] *)
Definition commit (s : session) : result unit * session :=
  match flush s with
  | (Ok _, s') => (Ok tt, {| committed := working s'; working := working s'; pending := [] |})
  | (Raise e, s') => (Raise e, s')
  end.

(** [session.rollback()] *)
Definition rollback (s : session) : session :=
  {| committed := committed s; working := committed s; pending := [] |}.

(** The body of the [for] loop of a [store_*] method for one record. *)
Definition upsert_one (r : R) (s : session) : result unit * session :=
  match query_first (key r) s with
  | (Ok (Some existing), s') => (Ok tt, set_attrs existing r s')
  | (Ok None, s') => (Ok tt, add r s')
  | (Raise e, s') => (Raise e, s')
  end.

(** The [for] loop with its counter. *)
Fixpoint upsert_loop (batch : list R) (count : Z) (s : session) : result Z * session :=
  match batch with
  | [] => (Ok count, s)
  | r :: batch' =>
      match upsert_one r s with
      | (Ok _, s') => upsert_loop batch' (count + 1) s'
      | (Raise e, s') => (Raise e, s')
      end
  end.

(** A whole [store_*] method: the loop and the commit inside [try], the
    rollback in [except], which re-raises. The second component is the
    table as committed when the method returns; the third says whether
    the error line was logged. *)
Definition store_batch (error_event : string) (batch : list R) (table : list R)
  : result Z * list R * list log_entry :=
  let failed (e : exn) (s : session) :=
    (Raise e, committed (rollback s),
     [{| lvl := Error; event := error_event; fields := [("error", FErr e)] |}]) in
  match upsert_loop batch 0 (open_session table) with
  | (Ok count, s) =>
      match commit s with
      | (Ok _, s') => (Ok count, committed s', [])
      | (Raise e, s') => failed e s'
      end
  | (Raise e, s) => failed e s
  end.

(** The same transaction as the database sees it: for each record in
    turn, the one write its lookup leads to. *)
Definition write_record (t : list R) (r : R) : result (list R) :=
  match lookup_row (key r) t with
  | Some existing => write_unit (Dirty (key existing) (set_columns existing r)) t
  | None => write_unit (New r) t
  end.

Fixpoint write_records (batch : list R) (t : list R) : result (list R) :=
  match batch with
  | [] => Ok t
  | r :: batch' => try! t' <- write_record t r; write_records batch' t'
  end.

(** What flushing a session would leave in the transaction's view. *)
Definition effective (s : session) : result (list R) :=
  write_units (pending s) (working s).
End Session.

Arguments New {R K} r.
Arguments Dirty {R K} k r.

(** ** The storage contract ([interfaces.py], [StorageBackend]) *)

Class StorageBackend (S : Type) : Type := {
  store_raw : string -> string -> value -> value -> S -> result string * S;
  store_markets : list Market -> S -> result Z * S;
  store_trades : list Trade -> S -> result Z * S;
  store_price_snapshots : list PriceSnapshot -> S -> result Z * S;
  get_latest_checkpoint : string -> string -> S -> result (option datetime) * S;
  update_checkpoint : string -> string -> datetime -> S -> result unit * S
}.

(** ** Tables and the constraints on their columns *)

Record RawApiResponse : Type := {
  r_request_id : Z;
  r_source : string;
  r_endpoint : string;
  r_response_json : value;
  r_status_code : Z;
  r_metadata : value
}.

(** The surrogate [id] and the [updated_at] bookkeeping column carry no
    information used by any caller and are left out. *)
Record Checkpoint : Type := {
  c_source : string;
  c_data_type : string;
  c_last_sync_timestamp : datetime
}.

(** ** The database server

    Whether the values of a row can be written is decided outside the
    repository. SQLAlchemy's bind processors and the driver must be able to
    send each value (the value of a [JSON] column has to be serialisable, a
    payload value passed through to a text column has to be adaptable), and
    PostgreSQL must be able to convert it to the type of its column (the
    length of a [String(n)] in characters, the syntax of a [JSON] text, the
    cast of a number to text). This verdict is a parameter of the model,
    one function per table, as the date parser is: nothing is assumed of
    it. What the repository declares itself, [nullable=False], is modelled
    below; the server checks it on the converted row. *)
Record database : Type := {
  market_values : Market -> result unit;
  trade_values : Trade -> result unit;
  snapshot_values : PriceSnapshot -> result unit;
  raw_values : RawApiResponse -> result unit
}.

(** [nullable=False] on a column whose value may be absent. *)
Definition not_null {A} (column : string) (o : option A) : result unit :=
  match o with
  | Some _ => Ok tt
  | None => Raise (IntegrityError column)
  end.

(** The same on a column that receives a payload value as it came. *)
Definition not_null_value (column : string) (v : value) : result unit :=
  match v with
  | VNone => Raise (IntegrityError column)
  | _ => Ok tt
  end.

(** The [nullable=False] columns of [MarketTable]. [market_id] and
    [source] are strings by construction; [question] is whatever the
    payload held. *)
Definition market_not_null (r : Market) : result unit :=
  not_null_value "question" (m_question r).

(** The [nullable=False] columns of [TradeTable] that are not strings by
    construction, in the order of the table's columns. *)
Definition trade_not_null (r : Trade) : result unit :=
  try! _ <- not_null "price" (t_price r);
  try! _ <- not_null "quantity" (t_quantity r);
  not_null "timestamp" (t_timestamp r).

(** The [nullable=False] columns of [PriceSnapshotTable]: the timestamp of
    a snapshot record is never absent. *)
Definition snapshot_not_null (r : PriceSnapshot) : result unit :=
  not_null "implied_probability" (s_implied_probability r).

(** [MarketTable] *)
Definition market_accepts (db : database) (r : Market) : result unit :=
  try! _ <- market_values db r;
  market_not_null r.

(** [TradeTable] *)
Definition trade_accepts (db : database) (r : Trade) : result unit :=
  try! _ <- trade_values db r;
  trade_not_null r.

(** [PriceSnapshotTable] *)
Definition snapshot_accepts (db : database) (r : PriceSnapshot) : result unit :=
  try! _ <- snapshot_values db r;
  snapshot_not_null r.

(** [RawApiResponse]. Its [nullable=False] columns are two strings and
    [response_json], where [None] is written as the JSON value [null]. *)
Definition raw_accepts (db : database) (r : RawApiResponse) : result unit :=
  raw_values db r.

(** [String(n)], [nullable=False], for the two names of a checkpoint row.
    The length is counted in bytes, which for ASCII names is the number of
    characters. *)
Definition varchar (column : string) (n : nat) (s : string) : result unit :=
  if (String.length s <=? n)%nat then Ok tt else Raise (DataError column).

(** [CheckpointTable] *)
Definition checkpoint_accepts (r : Checkpoint) : result unit :=
  try! _ <- varchar "source" 50 (c_source r);
  varchar "data_type" 50 (c_data_type r).

(** ** A database for the examples

    It takes a text that has no NUL character and fits its column even
    when counted in bytes, takes no pass-through value other than such a
    text or [None], and takes in a [JSON] column only trees of [None],
    booleans, integers, finite floats and texts. *)
Definition plain_text (column : string) (n : option nat) (s : string) : result unit :=
  if forallb (fun c => negb (Ascii.eqb c Ascii.zero)) (list_ascii_of_string s)
     && match n with
        | Some n => (String.length s <=? n)%nat
        | None => true
        end
  then Ok tt else Raise (DataError column).

Definition plain_text_value (column : string) (n : option nat) (v : value) : result unit :=
  match v with
  | VNone => Ok tt
  | VStr s => plain_text column n s
  | _ => Raise (DataError column)
  end.

Fixpoint json_plain (v : value) : bool :=
  match v with
  | VNone | VBool _ | VInt _ | VStr _ => true
  | VFloat f => PrimFloat.is_finite f
  | VList l => forallb json_plain l
  | VDict d => forallb (fun kv => json_plain (snd kv)) d
  | VDatetime _ => false
  end.

Definition plain_json (column : string) (v : value) : result unit :=
  if json_plain v then Ok tt else Raise (DataError column).

Definition example_database : database := {|
  market_values := fun r =>
    try! _ <- plain_text "market_id" (Some 255%nat) (m_market_id r);
    try! _ <- plain_text "source" (Some 50%nat) (m_source r);
    try! _ <- plain_text_value "question" None (m_question r);
    try! _ <- plain_text_value "description" None (m_description r);
    try! _ <- plain_text_value "resolution_source" (Some 255%nat) (m_resolution_source r);
    try! _ <- plain_text_value "category" (Some 100%nat) (m_category r);
    try! _ <- plain_json "tags" (m_tags r);
    plain_json "raw_data" (VDict (m_raw_data r));
  trade_values := fun r =>
    try! _ <- plain_text "trade_id" (Some 255%nat) (t_trade_id r);
    try! _ <- plain_text "source" (Some 50%nat) (t_source r);
    try! _ <- plain_text "market_id" (Some 255%nat) (t_market_id r);
    try! _ <- plain_text "outcome_id" (Some 255%nat) (t_outcome_id r);
    try! _ <- plain_text_value "side" (Some 10%nat) (t_side r);
    try! _ <- plain_text_value "taker_address" (Some 255%nat) (t_taker_address r);
    try! _ <- plain_text_value "maker_address" (Some 255%nat) (t_maker_address r);
    try! _ <- plain_text_value "transaction_hash" (Some 255%nat) (t_transaction_hash r);
    plain_json "raw_data" (VDict (t_raw_data r));
  snapshot_values := fun r =>
    try! _ <- plain_text "market_id" (Some 255%nat) (s_market_id r);
    try! _ <- plain_text "source" (Some 50%nat) (s_source r);
    try! _ <- plain_text "outcome_id" (Some 255%nat) (s_outcome_id r);
    plain_json "raw_data" (VDict (s_raw_data r));
  raw_values := fun r =>
    try! _ <- plain_text "source" (Some 50%nat) (r_source r);
    try! _ <- plain_text "endpoint" (Some 100%nat) (r_endpoint r);
    try! _ <- plain_json "response_json" (r_response_json r);
    plain_json "metadata" (r_metadata r)
|}.

(** The natural keys of the [filter_by] lookups. *)
Definition market_key (r : Market) : string * string := (m_market_id r, m_source r).
Definition trade_key (r : Trade) : string * string := (t_trade_id r, t_source r).
Definition snapshot_key (r : PriceSnapshot) : string * string * datetime * string :=
  (s_market_id r, s_outcome_id r, s_timestamp r, s_source r).
Definition checkpoint_key (r : Checkpoint) : string * string := (c_source r, c_data_type r).

(** The [setattr] loops: every key of the incoming record except the
    natural-key columns is assigned on the existing row. *)
Definition market_set_columns (existing incoming : Market) : Market :=
  {| m_market_id := m_market_id existing;
     m_source := m_source existing;
     m_question := m_question incoming;
     m_description := m_description incoming;
     m_end_date := m_end_date incoming;
     m_resolution_source := m_resolution_source incoming;
     m_category := m_category incoming;
     m_tags := m_tags incoming;
     m_liquidity := m_liquidity incoming;
     m_volume_24h := m_volume_24h incoming;
     m_created_at := m_created_at incoming;
     m_updated_at := m_updated_at incoming;
     m_raw_data := m_raw_data incoming |}.

Definition trade_set_columns (existing incoming : Trade) : Trade :=
  {| t_trade_id := t_trade_id existing;
     t_source := t_source existing;
     t_market_id := t_market_id incoming;
     t_outcome_id := t_outcome_id incoming;
     t_price := t_price incoming;
     t_quantity := t_quantity incoming;
     t_timestamp := t_timestamp incoming;
     t_side := t_side incoming;
     t_taker_address := t_taker_address incoming;
     t_maker_address := t_maker_address incoming;
     t_transaction_hash := t_transaction_hash incoming;
     t_raw_data := t_raw_data incoming |}.

Definition snapshot_set_columns (existing incoming : PriceSnapshot) : PriceSnapshot :=
  {| s_market_id := s_market_id existing;
     s_source := s_source existing;
     s_outcome_id := s_outcome_id existing;
     s_timestamp := s_timestamp existing;
     s_implied_probability := s_implied_probability incoming;
     s_bid := s_bid incoming;
     s_ask := s_ask incoming;
     s_mid := s_mid incoming;
     s_spread := s_spread incoming;
     s_volume_24h := s_volume_24h incoming;
     s_liquidity := s_liquidity incoming;
     s_raw_data := s_raw_data incoming |}.

(** [checkpoint.last_sync_timestamp = timestamp] *)
Definition checkpoint_set_columns (existing incoming : Checkpoint) : Checkpoint :=
  {| c_source := c_source existing;
     c_data_type := c_data_type existing;
     c_last_sync_timestamp := c_last_sync_timestamp incoming |}.

(** ** [PostgresStorage] *)
Module PostgresStorage.

(** The backend's state: the database server behind [self.engine], the
    tables of schema [prediction_markets], the source of fresh [uuid4()]
    values, and the lines it has logged. *)
Record t : Type := {
  engine : database;
  raw_api_responses : list RawApiResponse;
  markets : list Market;
  trades : list Trade;
  price_snapshots : list PriceSnapshot;
  ingestion_checkpoints : list Checkpoint;
  next_uuid : Z;
  logged : list log_entry
}.

(** The backend over a server whose tables are empty. *)
Definition connected (db : database) : t :=
  {| engine := db; raw_api_responses := []; markets := []; trades := [];
     price_snapshots := []; ingestion_checkpoints := []; next_uuid := 0; logged := [] |}.

Definition empty : t := connected example_database.

Definition store_raw (source endpoint : string) (response_data metadata : value)
    (st : t) : result string * t :=
  let request_id := next_uuid st in
  let record := {| r_request_id := request_id; r_source := source;
                   r_endpoint := endpoint; r_response_json := response_data;
                   r_status_code := 200; r_metadata := metadata |} in
  let s := add record (open_session (raw_api_responses st)) in
  match commit r_request_id (raw_accepts (engine st)) "raw_api_responses_pkey" s with
  | (Ok _, s') =>
      (Ok (pretty request_id),
       {| engine := engine st; raw_api_responses := committed s';
          markets := markets st; trades := trades st;
          price_snapshots := price_snapshots st;
          ingestion_checkpoints := ingestion_checkpoints st;
          next_uuid := request_id + 1; logged := logged st |})
  | (Raise e, s') =>
      (Raise e,
       {| engine := engine st; raw_api_responses := committed (rollback s');
          markets := markets st; trades := trades st; price_snapshots := price_snapshots st;
          ingestion_checkpoints := ingestion_checkpoints st;
          next_uuid := request_id + 1;
          logged := logged st ++ [{| lvl := Error; event := "storage.postgres.store_raw.error";
                                     fields := [("error", FErr e)] |}] |})
  end.

Definition store_markets (batch : list Market) (st : t) : result Z * t :=
  let '(r, table, lines) :=
    store_batch market_key market_set_columns (market_accepts (engine st))
      "uq_markets_id_source"
      "storage.postgres.store_markets.error" batch (markets st) in
  (r, {| engine := engine st; raw_api_responses := raw_api_responses st;
         markets := table; trades := trades st;
         price_snapshots := price_snapshots st;
         ingestion_checkpoints := ingestion_checkpoints st;
         next_uuid := next_uuid st; logged := logged st ++ lines |}).

Definition store_trades (batch : list Trade) (st : t) : result Z * t :=
  let '(r, table, lines) :=
    store_batch trade_key trade_set_columns (trade_accepts (engine st))
      "uq_trades_id_source"
      "storage.postgres.store_trades.error" batch (trades st) in
  (r, {| engine := engine st; raw_api_responses := raw_api_responses st;
         markets := markets st; trades := table;
         price_snapshots := price_snapshots st;
         ingestion_checkpoints := ingestion_checkpoints st;
         next_uuid := next_uuid st; logged := logged st ++ lines |}).

Definition store_price_snapshots (batch : list PriceSnapshot) (st : t) : result Z * t :=
  let '(r, table, lines) :=
    store_batch snapshot_key snapshot_set_columns (snapshot_accepts (engine st))
      "uq_price_snapshots"
      "storage.postgres.store_price_snapshots.error" batch (price_snapshots st) in
  (r, {| engine := engine st; raw_api_responses := raw_api_responses st;
         markets := markets st; trades := trades st;
         price_snapshots := table;
         ingestion_checkpoints := ingestion_checkpoints st;
         next_uuid := next_uuid st; logged := logged st ++ lines |}).

Definition get_latest_checkpoint (source data_type : string) (st : t)
  : result (option datetime) * t :=
  let s := open_session (ingestion_checkpoints st) in
  match query_first checkpoint_key checkpoint_accepts "uq_checkpoints" (source, data_type) s with
  | (Ok checkpoint, _) => (Ok (c_last_sync_timestamp <$> checkpoint), st)
  | (Raise e, _) => (Raise e, st)
  end.

Definition update_checkpoint (source data_type : string) (timestamp : datetime) (st : t)
  : result unit * t :=
  let incoming := {| c_source := source; c_data_type := data_type;
                     c_last_sync_timestamp := timestamp |} in
  let with_table (table : list Checkpoint) (lines : list log_entry) :=
    {| engine := engine st; raw_api_responses := raw_api_responses st;
       markets := markets st; trades := trades st;
       price_snapshots := price_snapshots st; ingestion_checkpoints := table;
       next_uuid := next_uuid st; logged := logged st ++ lines |} in
  let failed (e : exn) (s : @session Checkpoint (string * string)) :=
    (Raise e, with_table (committed (rollback s))
                [{| lvl := Error; event := "storage.postgres.update_checkpoint.error";
                    fields := [("error", FErr e)] |}]) in
  let s := open_session (ingestion_checkpoints st) in
  match query_first checkpoint_key checkpoint_accepts "uq_checkpoints" (source, data_type) s with
  | (Ok checkpoint, s1) =>
      let s2 := match checkpoint with
                | Some existing => set_attrs checkpoint_key checkpoint_set_columns existing incoming s1
                | None => add incoming s1
                end in
      match commit checkpoint_key checkpoint_accepts "uq_checkpoints" s2 with
      | (Ok _, s3) => (Ok tt, with_table (committed s3) [])
      | (Raise e, s3) => failed e s3
      end
  | (Raise e, s1) => failed e s1
  end.

End PostgresStorage.

#[global] Instance postgres_backend : StorageBackend PostgresStorage.t := {
  store_raw := PostgresStorage.store_raw;
  store_markets := PostgresStorage.store_markets;
  store_trades := PostgresStorage.store_trades;
  store_price_snapshots := PostgresStorage.store_price_snapshots;
  get_latest_checkpoint := PostgresStorage.get_latest_checkpoint;
  update_checkpoint := PostgresStorage.update_checkpoint
}.

(** * Metrics and scoped duration logging ([observability.py]) *)

(** A tag map: keys with values already a string or [None]. *)
Definition tags : Type := list (string * option string).

(** [f"{v}"] of a tag value. *)
Definition tag_str (v : option string) : string := default "None" v.

Definition tags_value (tg : tags) : value :=
  VDict (map (fun kv => (fst kv, match snd kv with Some s => VStr s | None => VNone end)) tg).

Fixpoint insert_sorted (kv : string * option string) (l : tags) : tags :=
  match l with
  | [] => [kv]
  | kv' :: l' => if String.leb (fst kv) (fst kv') then kv :: l
                 else kv' :: insert_sorted kv l'
  end.

(** [sorted(tags.items())] *)
Definition sorted_items (tg : tags) : tags := fold_right insert_sorted [] tg.

Fixpoint join (sep : string) (l : list string) : string :=
  match l with
  | [] => ""
  | [x] => x
  | x :: l' => x +:+ sep +:+ join sep l'
  end.

(** [Metrics._format_key] *)
Definition _format_key (metric : string) (tg : tags) : string :=
  match tg with
  | [] => metric
  | _ => let tag_str := join "," (map (fun kv => fst kv +:+ "=" +:+ tag_str (snd kv))
                                      (sorted_items tg)) in
         metric +:+ "[" +:+ tag_str +:+ "]"
  end.

(** The process-wide logger and [Metrics] instance. A gauge holds a
    wall-clock duration; only the set of written gauge keys is kept. *)
Record Obs : Type := {
  log : list log_entry;
  counters : gmap string Z;
  gauges : gset string
}.

Definition obs_empty : Obs := {| log := []; counters := ∅; gauges := ∅ |}.

(** The logger drops entries below the configured minimum level, "info". *)
Definition emit (l : level) (ev : string) (fs : list (string * field)) (o : Obs) : Obs :=
  match l with
  | Debug => o
  | _ => {| log := log o ++ [{| lvl := l; event := ev; fields := fs |}];
            counters := counters o; gauges := gauges o |}
  end.

(** [Metrics.get_counter] *)
Definition get_counter (metric : string) (tg : tags) (o : Obs) : Z :=
  default 0 (counters o !! _format_key metric tg).

(** [Metrics.increment] *)
Definition increment (metric : string) (v : Z) (tg : tags) (o : Obs) : Obs :=
  let key := _format_key metric tg in
  let total := default 0 (counters o !! key) + v in
  emit Info "metric.increment"
    [("metric", FVal (VStr metric)); ("value", FVal (VInt v));
     ("tags", FVal (tags_value tg)); ("total", FVal (VInt total))]
    {| log := log o; counters := <[key := total]> (counters o); gauges := gauges o |}.

(** [Metrics.gauge] *)
Definition gauge (metric : string) (tg : tags) (o : Obs) : Obs :=
  let key := _format_key metric tg in
  emit Info "metric.gauge" [("metric", FVal (VStr metric)); ("tags", FVal (tags_value tg))]
    {| log := log o; counters := counters o; gauges := {[key]} ∪ gauges o |}.

Definition context_fields (tg : tags) : list (string * field) :=
  map (fun kv => (fst kv, FVal (match snd kv with Some s => VStr s | None => VNone end))) tg.

(** ** Computations over a world that carries the observability state *)

Definition M (W X : Type) : Type := W -> result X * W.

Definition ret {W X} (x : X) : M W X := fun w => (Ok x, w).
Definition raise {W X} (e : exn) : M W X := fun w => (Raise e, w).
Definition bind {W X Y} (m : M W X) (k : X -> M W Y) : M W Y :=
  fun w => match m w with
           | (Ok x, w') => k x w'
           | (Raise e, w') => (Raise e, w')
           end.

Notation "'do!' x <- m ; k" := (bind m (fun x => k))
  (at level 10, x name, m at level 100, k at level 200).

(** [try: body except Exception as e: handler(e)] *)
Definition try_except {W X} (body : M W X) (handler : exn -> M W X) : M W X :=
  fun w => match body w with
           | (Ok x, w') => (Ok x, w')
           | (Raise e, w') => handler e w'
           end.

(** [[f(x) for x in l]] for an effectful [f]. *)
Fixpoint map_m {W X Y} (f : X -> M W Y) (l : list X) : M W (list Y) :=
  match l with
  | [] => ret []
  | x :: l' => do! y <- f x; do! ys <- map_m f l'; ret (y :: ys)
  end.

Section LogDuration.
Context {W : Type} (get_obs : W -> Obs) (set_obs : Obs -> W -> W).

Definition with_obs (f : Obs -> Obs) : M W unit :=
  fun w => (Ok tt, set_obs (f (get_obs w)) w).

(** [with log_duration(operation, **context): body] *)
Definition log_duration {X} (operation : string) (context : tags) (body : M W X) : M W X :=
  fun w =>
    let w1 := set_obs (emit Info (operation +:+ ".start") (context_fields context) (get_obs w)) w in
    match body w1 with
    | (Ok x, w2) =>
        let o := emit Info (operation +:+ ".complete") (context_fields context) (get_obs w2) in
        (Ok x, set_obs (gauge (operation +:+ ".duration") context o) w2)
    | (Raise e, w2) =>
        let o := emit Error (operation +:+ ".error")
                   ([("error", FErr e); ("error_type", FVal (VStr (exn_name e)))]
                    ++ context_fields context) (get_obs w2) in
        (Raise e, set_obs (increment (operation +:+ ".errors") 1 context o) w2)
    end.
End LogDuration.

(** * The market-adapter contract ([interfaces.py], [MarketAdapter]) *)

(** What a fetch returns, at the contract's types: the ['data'] list and
    the optional next-page cursor. *)
Record page : Type := {
  data : list raw_dict;
  nextCursor : option string
}.

Class MarketAdapter (A : Type) : Type := {
  source_name : string;
  fetch_markets : option Z -> option string -> A -> result page * A;
  fetch_trades : option string -> option datetime -> option Z -> option string -> A -> result page * A;
  fetch_price_snapshots : option string -> option datetime -> A -> result page * A;
  normalize_market : raw_dict -> A -> result Market * A;
  normalize_trade : raw_dict -> A -> result Trade * A;
  normalize_price_snapshot : raw_dict -> A -> result PriceSnapshot * A
}.

(** * Ingestion engine ([ingestion.py]) *)

(** The contract operations the engine invokes, in order: the record a
    test double would keep. *)
Inductive call : Type :=
| FetchMarkets (limit : option Z) (cursor : option string)
| FetchTrades (market_id : option string) (since : option datetime)
    (limit : option Z) (cursor : option string)
| FetchPriceSnapshots (market_id : option string) (since : option datetime)
| NormalizeMarket (raw : raw_dict)
| NormalizeTrade (raw : raw_dict)
| NormalizePriceSnapshot (raw : raw_dict)
| StoreRaw (source endpoint : string) (response_data : value)
| StoreMarkets (records : list Market)
| StoreTrades (records : list Trade)
| StorePriceSnapshots (records : list PriceSnapshot)
| GetLatestCheckpoint (source data_type : string)
| UpdateCheckpoint (source data_type : string) (timestamp : datetime).

Definition is_checkpoint_update (c : call) : bool :=
  match c with
  | UpdateCheckpoint _ _ _ => true
  | _ => false
  end.

Record world (S A : Type) : Type := {
  w_storage : S;
  w_adapter : A;
  w_obs : Obs;
  w_calls : list call
}.
Arguments w_storage {S A}.
Arguments w_adapter {S A}.
Arguments w_obs {S A}.
Arguments w_calls {S A}.

(** [max(iterable)]: [ValueError] on an empty iterable, otherwise the first
    of the largest items. The items being naive datetimes, no comparison
    raises. *)
Definition py_max (l : list datetime) : result datetime :=
  match l with
  | [] => Raise ValueError
  | d :: l' => Ok (fold_left (fun best item => if dt_ltb best item then item else best) l' d)
  end.

(** Truthiness of an optional cursor string. *)
Definition cursor_truthy (c : option string) : bool :=
  match c with
  | Some s => negb (String.eqb s "")
  | None => false
  end.

Definition opt_str_value (o : option string) : value :=
  match o with Some s => VStr s | None => VNone end.

Section Engine.
Context {S A : Type} `{StorageBackend S} `{MarketAdapter A}.

Definition set_obs (o : Obs) (w : world S A) : world S A :=
  {| w_storage := w_storage w; w_adapter := w_adapter w; w_obs := o; w_calls := w_calls w |}.

(** Invoking a storage operation: the call is recorded, then run. *)
Definition on_storage {X} (c : call) (op : S -> result X * S) : M (world S A) X :=
  fun w => let '(r, st) := op (w_storage w) in
           (r, {| w_storage := st; w_adapter := w_adapter w; w_obs := w_obs w;
                  w_calls := w_calls w ++ [c] |}).

Definition on_adapter {X} (c : call) (op : A -> result X * A) : M (world S A) X :=
  fun w => let '(r, ad) := op (w_adapter w) in
           (r, {| w_storage := w_storage w; w_adapter := ad; w_obs := w_obs w;
                  w_calls := w_calls w ++ [c] |}).

Definition logger (l : level) (ev : string) (fs : list (string * field)) : M (world S A) unit :=
  with_obs w_obs set_obs (emit l ev fs).

Definition metrics_increment (metric : string) (v : Z) (tg : tags) : M (world S A) unit :=
  with_obs w_obs set_obs (increment metric v tg).

(** [self.source = adapter.source_name] *)
Definition source : string := source_name (A := A).

Definition raw_list (l : list raw_dict) : value := VList (map VDict l).

(** [IngestionEngine.ingest_markets]. [fuel] bounds the depth of the
    recursion, as the interpreter's recursion limit does. *)
Fixpoint ingest_markets (fuel : nat) (limit : option Z) (cursor : option string)
    (store_raw_flag : bool) : M (world S A) Z :=
  match fuel with
  | O => raise RecursionError
  | Datatypes.S fuel' =>
    log_duration w_obs set_obs "ingestion.markets" [("source", Some source)]
      (try_except
        (do! response <- on_adapter (FetchMarkets limit cursor) (fetch_markets limit cursor);
         let raw_markets := data response in
         let next_cursor := nextCursor response in
         match raw_markets with
         | [] =>
             do! _ <- logger Info "ingestion.markets.empty" [("source", FVal (VStr source))];
             ret 0
         | _ :: _ =>
             let response_data :=
               VDict [("data", raw_list raw_markets); ("cursor", opt_str_value cursor)] in
             do! _ <- (if store_raw_flag then
                         do! request_id <- on_storage (StoreRaw source "markets" response_data)
                                             (store_raw source "markets" response_data VNone);
                         logger Debug "ingestion.markets.raw_stored"
                           [("request_id", FVal (VStr request_id));
                            ("count", FVal (VInt (Z.of_nat (length raw_markets))))]
                       else ret tt);
             do! normalized <- map_m (fun m => on_adapter (NormalizeMarket m) (normalize_market m))
                                 raw_markets;
             do! count <- on_storage (StoreMarkets normalized) (store_markets normalized);
             do! _ <- metrics_increment "ingestion.markets.stored" count [("source", Some source)];
             do! _ <- logger Info "ingestion.markets.complete"
                        [("source", FVal (VStr source));
                         ("fetched", FVal (VInt (Z.of_nat (length raw_markets))));
                         ("stored", FVal (VInt count));
                         ("next_cursor", FVal (opt_str_value next_cursor))];
             if cursor_truthy next_cursor
                && match limit with
                   | None => true
                   | Some n => Z.of_nat (length raw_markets) =? n
                   end
             then
               do! additional <- ingest_markets fuel' limit next_cursor store_raw_flag;
               ret (count + additional)
             else ret count
         end)
        (fun e =>
           do! _ <- logger Error "ingestion.markets.error"
                      [("error", FErr e); ("error_type", FVal (VStr (exn_name e)))];
           do! _ <- metrics_increment "ingestion.markets.errors" 1 [("source", Some source)];
           raise e))
  end.

(** The checkpoint step shared by trades and price snapshots:
    [if normalized: latest = max(ts for ... if ts); if latest: update]. *)
Definition advance_checkpoint (data_type : string) (timestamps : list (option datetime))
  : M (world S A) unit :=
  match timestamps with
  | [] => ret tt
  | _ :: _ =>
      do! latest_timestamp <- (fun w => (py_max (omap id timestamps), w));
      on_storage (UpdateCheckpoint source data_type latest_timestamp)
        (update_checkpoint source data_type latest_timestamp)
  end.

(** [IngestionEngine.ingest_trades] *)
Fixpoint ingest_trades (fuel : nat) (market_id : option string) (since : option datetime)
    (limit : option Z) (cursor : option string) (store_raw_flag : bool)
  : M (world S A) Z :=
  match fuel with
  | O => raise RecursionError
  | Datatypes.S fuel' =>
    log_duration w_obs set_obs "ingestion.trades"
      [("source", Some source); ("market_id", market_id)]
      (try_except
        (do! since <- match since with
                      | Some _ => ret since
                      | None =>
                          do! checkpoint <- on_storage (GetLatestCheckpoint source "trades")
                                              (get_latest_checkpoint source "trades");
                          match checkpoint with
                          | Some c =>
                              do! _ <- logger Info "ingestion.trades.using_checkpoint"
                                         [("checkpoint", FVal (VDatetime c))];
                              ret (Some c)
                          | None => ret None
                          end
                      end;
         do! response <- on_adapter (FetchTrades market_id since limit cursor)
                           (fetch_trades market_id since limit cursor);
         let raw_trades := data response in
         let next_cursor := nextCursor response in
         match raw_trades with
         | [] =>
             do! _ <- logger Info "ingestion.trades.empty"
                        [("source", FVal (VStr source));
                         ("market_id", FVal (opt_str_value market_id))];
             ret 0
         | _ :: _ =>
             let response_data :=
               VDict [("data", raw_list raw_trades); ("cursor", opt_str_value cursor)] in
             do! _ <- (if store_raw_flag then
                         do! request_id <- on_storage (StoreRaw source "trades" response_data)
                                             (store_raw source "trades" response_data VNone);
                         logger Debug "ingestion.trades.raw_stored"
                           [("request_id", FVal (VStr request_id));
                            ("count", FVal (VInt (Z.of_nat (length raw_trades))))]
                       else ret tt);
             do! normalized <- map_m (fun t => on_adapter (NormalizeTrade t) (normalize_trade t))
                                 raw_trades;
             do! count <- on_storage (StoreTrades normalized) (store_trades normalized);
             do! _ <- advance_checkpoint "trades" (map t_timestamp normalized);
             do! _ <- metrics_increment "ingestion.trades.stored" count [("source", Some source)];
             do! _ <- logger Info "ingestion.trades.complete"
                        [("source", FVal (VStr source));
                         ("fetched", FVal (VInt (Z.of_nat (length raw_trades))));
                         ("stored", FVal (VInt count));
                         ("next_cursor", FVal (opt_str_value next_cursor))];
             if cursor_truthy next_cursor
                && match limit with
                   | None => true
                   | Some n => Z.of_nat (length raw_trades) =? n
                   end
             then
               do! additional <- ingest_trades fuel' market_id since limit next_cursor
                                   store_raw_flag;
               ret (count + additional)
             else ret count
         end)
        (fun e =>
           do! _ <- logger Error "ingestion.trades.error"
                      [("error", FErr e); ("error_type", FVal (VStr (exn_name e)))];
           do! _ <- metrics_increment "ingestion.trades.errors" 1 [("source", Some source)];
           raise e))
  end.

(** [IngestionEngine.ingest_price_snapshots] *)
Definition ingest_price_snapshots (market_id : option string) (since : option datetime)
    (store_raw_flag : bool) : M (world S A) Z :=
  log_duration w_obs set_obs "ingestion.prices"
    [("source", Some source); ("market_id", market_id)]
    (try_except
      (do! response <- on_adapter (FetchPriceSnapshots market_id since)
                         (fetch_price_snapshots market_id since);
       let raw_snapshots := data response in
       match raw_snapshots with
       | [] =>
           do! _ <- logger Info "ingestion.prices.empty"
                      [("source", FVal (VStr source));
                       ("market_id", FVal (opt_str_value market_id))];
           ret 0
       | _ :: _ =>
           let response_data := VDict [("data", raw_list raw_snapshots)] in
           do! _ <- (if store_raw_flag then
                       do! request_id <- on_storage (StoreRaw source "price_snapshots" response_data)
                                           (store_raw source "price_snapshots" response_data VNone);
                       logger Debug "ingestion.prices.raw_stored"
                         [("request_id", FVal (VStr request_id));
                          ("count", FVal (VInt (Z.of_nat (length raw_snapshots))))]
                     else ret tt);
           do! normalized <- map_m (fun sn => on_adapter (NormalizePriceSnapshot sn)
                                                (normalize_price_snapshot sn))
                               raw_snapshots;
           do! count <- on_storage (StorePriceSnapshots normalized)
                          (store_price_snapshots normalized);
           do! _ <- advance_checkpoint "price_snapshots"
                      (map (fun sn => Some (s_timestamp sn)) normalized);
           do! _ <- metrics_increment "ingestion.prices.stored" count [("source", Some source)];
           do! _ <- logger Info "ingestion.prices.complete"
                      [("source", FVal (VStr source));
                       ("fetched", FVal (VInt (Z.of_nat (length raw_snapshots))));
                       ("stored", FVal (VInt count))];
           ret count
       end)
      (fun e =>
         do! _ <- logger Error "ingestion.prices.error"
                    [("error", FErr e); ("error_type", FVal (VStr (exn_name e)))];
         do! _ <- metrics_increment "ingestion.prices.errors" 1 [("source", Some source)];
         raise e)).
End Engine.

(** * HTTP client ([client.py]) *)

Module PolymarketClient.

(** What [self.client.request(...)] does on one invocation: it returns a
    response (status code, body text, and the outcome of decoding the
    body as JSON) or raises. *)
Inductive reply : Type :=
| Response (status_code : Z) (text : string) (json : result value)
| Raises (e : exn).

(** The client with the network behind it: [transport n] is the outcome
    of the [n]-th invocation of [self.client.request]. The rate limiter
    and the retry back-off only block on the wall clock and are not
    represented. *)
Record t : Type := {
  transport : nat -> reply;
  requests_made : nat;
  obs : Obs
}.

Definition set_obs (o : Obs) (c : t) : t :=
  {| transport := transport c; requests_made := requests_made c; obs := o |}.

(** [self.client.request(method=..., url=..., json=..., params=...)] *)
Definition client_request : M t reply :=
  fun c => (Ok (transport c (requests_made c)),
            {| transport := transport c; requests_made := Datatypes.S (requests_made c);
               obs := obs c |}).

(** [response.raise_for_status()] *)
Definition raise_for_status (r : reply) : M t (string * result value) :=
  match r with
  | Raises e => raise e
  | Response status_code text json =>
      if (200 <=? status_code) && (status_code <? 300) then ret (text, json)
      else raise (HTTPStatusError status_code text)
  end.

(** The body of [_request], one attempt. *)
Definition request_once (method url : string) : M t value :=
  log_duration obs set_obs "api.request" [("method", Some method); ("url", Some url)]
    (try_except
      (do! r <- client_request;
       do! response <- raise_for_status r;
       do! _ <- with_obs obs set_obs
                  (increment "api.requests.success" 1 [("method", Some method)]);
       fun c => (snd response, c))
      (fun e =>
         match e with
         | HTTPStatusError status_code text =>
             do! _ <- with_obs obs set_obs
                        (increment "api.requests.error" 1 [("status", Some (pretty status_code))]);
             do! _ <- with_obs obs set_obs
                        (emit Error "api.request.error"
                           [("status_code", FVal (VInt status_code));
                            ("response_text", FVal (VStr (String.substring 0 500 text)))]);
             raise e
         | _ =>
             do! _ <- with_obs obs set_obs
                        (increment "api.requests.error" 1 [("error_type", Some (exn_name e))]);
             raise e
         end)).

(** The line logged for a non-success status: the status code and
    [response.text[:500]]. *)
Definition status_line (status_code : Z) (text : string) : log_entry :=
  {| lvl := Error; event := "api.request.error";
     fields := [("status_code", FVal (VInt status_code));
                ("response_text", FVal (VStr (String.substring 0 500 text)))] |}.

(** What one attempt yields, as a function of the transport's reply. *)
Definition attempt_result (r : reply) : result value :=
  match r with
  | Raises e => Raise e
  | Response status_code text json =>
      if (200 <=? status_code) && (status_code <? 300) then json
      else Raise (HTTPStatusError status_code text)
  end.

(** [retry_if_exception_type((httpx.TimeoutException, httpx.NetworkError))] *)
Definition retry_if (e : exn) : bool :=
  match e with
  | TimeoutException | NetworkError => true
  | _ => false
  end.

(** tenacity's loop around one call: a result is returned, an exception
    the predicate rejects is re-raised as it is, and once the stop
    condition holds the last exception is raised wrapped in
    [RetryError]. [further] is the number of attempts still allowed after
    the current one. *)
Fixpoint retrying (further : nat) (method url : string) : M t value :=
  fun c =>
    match request_once method url c with
    | (Ok v, c') => (Ok v, c')
    | (Raise e, c') =>
        if retry_if e then
          match further with
          | O => (Raise (RetryError e), c')
          | Datatypes.S further' => retrying further' method url c'
          end
        else (Raise e, c')
    end.

(** [_request], decorated with [stop=stop_after_attempt(3)]. *)
Definition _request (method url : string) : M t value := retrying 2 method url.

Definition GRAPHQL_URL : string := "https://clob.polymarket.com/graphql".

Definition query_graphql : M t value := _request "POST" GRAPHQL_URL.

End PolymarketClient.

(** * Command-line interface ([commands.py]) *)

(** What stands behind [get_storage()], [get_adapter()] and the engine
    built from them. [storage_bootstrap] is the constructor
    [PostgresStorage(connection_string, create_tables=True)], which raises
    when the database cannot be reached or, the schema not being there,
    the tables cannot be created. *)
Class CliEnv (E : Type) : Type := {
  storage_bootstrap : E -> result unit * E;
  engine_ingest_markets : option Z -> bool -> E -> result Z * E;
  engine_ingest_trades : option string -> option datetime -> option Z -> bool -> E -> result Z * E;
  engine_ingest_price_snapshots : option string -> bool -> E -> result Z * E
}.

(** The texts written with [click.echo]. [MsgBackfilling] shows
    [current.date()] and [next_day.date()]; both datetimes are kept so that
    the loop's variables can be read off the trace. *)
Inductive message : Type :=
| MsgIngested (what : string) (count : Z)
| MsgError (e : exn)
| MsgInvalidDate (text : string)
| MsgInvalidDateError (e : exn)
| MsgStartBeforeEnd
| MsgBackfilling (current next_day : datetime)
| MsgDayIngested (count : Z)
| MsgBackfillComplete (total : Z)
| MsgPricesNotImplemented.

(** The externally visible steps of one command, in order. The first three
    are the database work of the storage constructor: [engine.connect()];
    [conn.execute(func.text("CREATE SCHEMA IF NOT EXISTS ..."))] with its
    commit, which as written selects the SQL function [text] applied to
    these words and creates no schema; and [create_all]. *)
Inductive cli_event : Type :=
| DbConnect
| DbSelectText
| DbCreateAll
| AdapterCreated
| AdapterClosed
| Echo (err : bool) (m : message)
| IngestMarkets (limit : option Z) (store_raw_flag : bool)
| IngestTrades (market_id : option string) (since : option datetime)
    (limit : option Z) (store_raw_flag : bool)
| IngestPriceSnapshots (market_id : option string) (store_raw_flag : bool)
| Traceback (e : exn).

(** Events that touch the database or the network. *)
Definition is_io_event (ev : cli_event) : bool :=
  match ev with
  | DbConnect | DbSelectText | DbCreateAll
  | IngestMarkets _ _ | IngestTrades _ _ _ _ | IngestPriceSnapshots _ _ => true
  | _ => false
  end.

(** Events that invoke the ingestion engine. *)
Definition is_ingest_event (ev : cli_event) : bool :=
  match ev with
  | IngestMarkets _ _ | IngestTrades _ _ _ _ | IngestPriceSnapshots _ _ => true
  | _ => false
  end.

(** A finished process: its exit code, what it did, and the environment it
    leaves. *)
Record finished (E : Type) : Type := {
  exit_code : Z;
  events : list cli_event;
  env : E
}.
Arguments exit_code {E}.
Arguments events {E}.
Arguments env {E}.

Section Cli.
Context (rt : runtime) {E : Type} `{CliEnv E}.

(** [get_storage()]: the events up to the point the constructor returns
    or raises. Of a constructor that raises only the connection is
    recorded, at whichever of its statements it failed. *)
Definition get_storage (e : E) : result unit * list cli_event * E :=
  match storage_bootstrap e with
  | (Ok _, e') => (Ok tt, [DbConnect; DbSelectText; DbCreateAll], e')
  | (Raise x, e') => (Raise x, [DbConnect], e')
  end.

Definition exit_with (code : Z) (evs : list cli_event) (e : E) : finished E :=
  {| exit_code := code; events := evs; env := e |}.

(** The common opening of every command: storage, adapter, engine. An
    exception here is not handled by the command. *)
Definition with_engine (body : list cli_event -> E -> finished E) (e : E) : finished E :=
  match get_storage e with
  | (Ok _, evs, e') => body (evs ++ [AdapterCreated]) e'
  | (Raise x, evs, e') => exit_with 1 (evs ++ [Traceback x]) e'
  end.

(** [try: count = ingest(...); echo ok / except Exception: echo error;
    sys.exit(1) / finally: adapter.close()] *)
Definition run_ingest (what : string) (ev : cli_event) (op : E -> result Z * E)
    (evs : list cli_event) (e : E) : finished E :=
  match op e with
  | (Ok count, e') =>
      exit_with 0 (evs ++ [ev; Echo false (MsgIngested what count); AdapterClosed]) e'
  | (Raise x, e') =>
      exit_with 1 (evs ++ [ev; Echo true (MsgError x); AdapterClosed]) e'
  end.

(** The [markets] command. *)
Definition markets (limit : option Z) (no_raw : bool) : E -> finished E :=
  with_engine (run_ingest "markets" (IngestMarkets limit (negb no_raw))
                 (engine_ingest_markets limit (negb no_raw))).

(** The [trades] command. *)
Definition trades (market_id since : option string) (limit : option Z) (no_raw : bool)
  : E -> finished E :=
  with_engine (fun evs e =>
    let continue (since_dt : option datetime) :=
      run_ingest "trades" (IngestTrades market_id since_dt limit (negb no_raw))
        (engine_ingest_trades market_id since_dt limit (negb no_raw)) evs e in
    match since with
    | None => continue None
    | Some text =>
        if String.eqb text "" then continue None
        else match parse_date rt text with
             | Ok d => continue (Some d)
             | Raise x =>
                 if match x with ValueError | JSONDecodeError => true | _ => false end
                 then exit_with 1 (evs ++ [Echo true (MsgInvalidDate text)]) e
                 else exit_with 1 (evs ++ [Traceback x]) e
             end
    end).

(** The [prices] command. *)
Definition prices (market_id : option string) (no_raw : bool) : E -> finished E :=
  with_engine (run_ingest "price snapshots" (IngestPriceSnapshots market_id (negb no_raw))
                 (engine_ingest_price_snapshots market_id (negb no_raw))).

(** [next_day = current.replace(hour=23, minute=59, second=59)], then
    [if next_day > end_dt: next_day = end_dt]. *)
Definition day_end (current end_dt : datetime) : datetime :=
  let next_day := replace_hms current 23 59 59 in
  if dt_ltb end_dt next_day then end_dt else next_day.

(** [next_day.replace(hour=0, minute=0, second=0) + timedelta(days=1)] *)
Definition following_day (next_day : datetime) : datetime :=
  add_days (replace_hms next_day 0 0 0) 1.

(** The [while current < end_dt] loop of the trades backfill. It yields
    the total, or the exception an ingestion raised; [None] when [fuel]
    iterations did not reach the end. *)
Fixpoint backfill_loop (fuel : nat) (market_id : option string) (no_raw : bool)
    (end_dt current : datetime) (total : Z) (evs : list cli_event) (e : E)
  : option (result Z * list cli_event * E) :=
  if dt_ltb current end_dt then
    match fuel with
    | O => None
    | Datatypes.S fuel' =>
        let next_day := day_end current end_dt in
        let evs1 := evs ++ [Echo false (MsgBackfilling current next_day);
                            IngestTrades market_id (Some current) None (negb no_raw)] in
        match engine_ingest_trades market_id (Some current) None (negb no_raw) e with
        | (Ok count, e') =>
            backfill_loop fuel' market_id no_raw end_dt (following_day next_day)
              (total + count) (evs1 ++ [Echo false (MsgDayIngested count)]) e'
        | (Raise x, e') => Some (Raise x, evs1, e')
        end
    end
  else Some (Ok total, evs, e).

(** Enough iterations for the loop: the cursor's date advances by at
    least one day each time round. *)
Definition backfill_fuel (start_dt end_dt : datetime) : nat :=
  Z.to_nat (ordinal end_dt - ordinal start_dt + 1).

(** The [backfill] command. [data_type] is one of the two choices click
    admits: [true] for "trades", [false] for "prices". *)
Definition backfill (start end_ : string) (trades_type : bool) (market_id : option string)
    (no_raw : bool) (e : E) : option (finished E) :=
  match get_storage e with
  | (Raise x, evs, e') => Some (exit_with 1 (evs ++ [Traceback x]) e')
  | (Ok _, evs0, e') =>
      let evs := evs0 ++ [AdapterCreated] in
      let dates := try! start_dt <- parse_date rt start;
                   try! end_dt <- parse_date rt end_;
                   Ok (start_dt, end_dt) in
      match dates with
      | Raise x =>
          if match x with ValueError | JSONDecodeError => true | _ => false end
          then Some (exit_with 1 (evs ++ [Echo true (MsgInvalidDateError x)]) e')
          else Some (exit_with 1 (evs ++ [Traceback x]) e')
      | Ok (start_dt, end_dt) =>
          if dt_leb end_dt start_dt then
            Some (exit_with 1 (evs ++ [Echo true MsgStartBeforeEnd]) e')
          else if trades_type then
            match backfill_loop (backfill_fuel start_dt end_dt) market_id no_raw
                    end_dt start_dt 0 evs e' with
            | None => None
            | Some (Ok total, evs', e'') =>
                Some (exit_with 0 (evs' ++ [Echo false (MsgBackfillComplete total);
                                            AdapterClosed]) e'')
            | Some (Raise x, evs', e'') =>
                Some (exit_with 1 (evs' ++ [Echo true (MsgError x); AdapterClosed]) e'')
            end
          else
            Some (exit_with 1 (evs ++ [Echo false MsgPricesNotImplemented; AdapterClosed]) e')
      end
  end.
End Cli.

(** * The Polymarket adapter ([adapter.py]) over scripted client replies *)

(** The adapter holds its client; here the client's successive replies
    ([get_markets], [get_trades], [get_price_snapshots]) are scripted, and
    [now] is the reading of the clock the snapshot normalizer takes. A
    client with nothing left to say returns an empty structure. *)
Record PolymarketAdapter : Type := {
  replies : list (result page);
  now : datetime
}.

Definition next_reply (ad : PolymarketAdapter) : result page * PolymarketAdapter :=
  match replies ad with
  | [] => (Ok {| data := []; nextCursor := None |}, ad)
  | r :: rest => (r, {| replies := rest; now := now ad |})
  end.

Definition polymarket_adapter (rt : runtime) : MarketAdapter PolymarketAdapter := {|
  source_name := "polymarket";
  fetch_markets := fun _ _ => next_reply;
  fetch_trades := fun _ _ _ _ => next_reply;
  fetch_price_snapshots := fun _ _ => next_reply;
  normalize_market := fun raw ad => (normalize_market_from_raw rt raw "polymarket", ad);
  normalize_trade := fun raw ad => (normalize_trade_from_raw rt raw "polymarket", ad);
  normalize_price_snapshot :=
    fun raw ad => (normalize_price_snapshot_from_raw rt (now ad) raw "polymarket", ad)
|}.

(** * Stand-ins used by the examples *)

(** A date parser for the examples: [YYYY-MM-DD] gives midnight of that
    day, anything else is a [ValueError]. *)
Definition iso_date (s : string) : result datetime :=
  match list_ascii_of_string s with
  | [y1; y2; y3; y4; h1; m1; m2; h2; d1; d2] =>
      if forallb is_digit [y1; y2; y3; y4; m1; m2; d1; d2]
         && Ascii.eqb h1 "-" && Ascii.eqb h2 "-" then
        let y := 1000 * digit_val y1 + 100 * digit_val y2 + 10 * digit_val y3 + digit_val y4 in
        let m := 10 * digit_val m1 + digit_val m2 in
        let d := 10 * digit_val d1 + digit_val d2 in
        if (1 <=? m) && (m <=? 12) && (1 <=? d) && (d <=? 31)
        then Ok (datetime_of y m d 0 0 0)
        else Raise ValueError
      else Raise ValueError
  | _ => Raise ValueError
  end.

Definition example_runtime : runtime :=
  {| parse_date := iso_date; py_repr := fun _ => "<repr>" |}.

(** A stub engine for the command-line examples: each ingestion call
    returns the next scripted outcome, [Ok 0] when the script is over. *)
Record StubEngine : Type := {
  bootstrap_ok : bool;
  scripted : list (result Z)
}.

Definition stub_next (e : StubEngine) : result Z * StubEngine :=
  match scripted e with
  | [] => (Ok 0, e)
  | r :: rest => (r, {| bootstrap_ok := bootstrap_ok e; scripted := rest |})
  end.

#[global] Instance stub_env : CliEnv StubEngine := {
  storage_bootstrap := fun e => (if bootstrap_ok e then Ok tt else Raise OperationalError, e);
  engine_ingest_markets := fun _ _ => stub_next;
  engine_ingest_trades := fun _ _ _ _ => stub_next;
  engine_ingest_price_snapshots := fun _ _ => stub_next
}.

(** The payload of the repository's snapshot test, without the fields the
    derivation does not read. *)
Definition bid_ask_payload : raw_dict := [("bid", VStr "0.64"); ("ask", VStr "0.66")].

(** The trade payload of the repository's test, without its timestamp. *)
Definition untimed_trade_payload : raw_dict :=
  [("id", VStr "trade-456"); ("marketId", VStr "market-123"); ("outcomeId", VStr "YES");
   ("price", VStr "0.65"); ("quantity", VStr "100.0"); ("side", VStr "buy")].



(** A market payload whose question is null. *)
Definition unasked_market_payload : raw_dict :=
  [("id", VStr "market-123"); ("question", VNone)].

(** A trade record as the normalizer produces it from a complete payload. *)
Definition example_trade (trade_id : string) (price : float) : Trade :=
  {| t_trade_id := trade_id; t_source := "polymarket"; t_market_id := "market-123";
     t_outcome_id := "YES"; t_price := Some price; t_quantity := Some 100%float;
     t_timestamp := Some (datetime_of 2024 1 15 10 30 0); t_side := VStr "buy";
     t_taker_address := VNone; t_maker_address := VNone; t_transaction_hash := VNone;
     t_raw_data := [] |}.

(** A world around the relational backend with empty tables, nothing
    logged and no call made yet. *)
Definition example_world (ad : PolymarketAdapter) : world PostgresStorage.t PolymarketAdapter :=
  {| w_storage := PostgresStorage.empty; w_adapter := ad; w_obs := obs_empty; w_calls := [] |}.

(** An adapter whose client has one page to deliver. *)
Definition one_page (raws : list raw_dict) : PolymarketAdapter :=
  {| replies := [Ok {| data := raws; nextCursor := None |}];
     now := datetime_of 2024 1 15 10 30 0 |}.

(** A client whose network is down, and one whose server answers 404. *)
Definition client_with (replies : nat -> PolymarketClient.reply) : PolymarketClient.t :=
  {| PolymarketClient.transport := replies; PolymarketClient.requests_made := 0;
     PolymarketClient.obs := obs_empty |}.

Definition network_down : PolymarketClient.t :=
  client_with (fun _ => PolymarketClient.Raises NetworkError).

Definition not_found : PolymarketClient.t :=
  client_with (fun _ => PolymarketClient.Response 404 "Not Found" (Raise JSONDecodeError)).

(** A stub engine with a working database and the given script. *)
Definition stub_engine (script : list (result Z)) : StubEngine :=
  {| bootstrap_ok := true; scripted := script |}.

(** Two backend states hold the same tables. *)
Definition same_tables (a b : PostgresStorage.t) : Prop :=
  PostgresStorage.raw_api_responses a = PostgresStorage.raw_api_responses b
  /\ PostgresStorage.markets a = PostgresStorage.markets b
  /\ PostgresStorage.trades a = PostgresStorage.trades b
  /\ PostgresStorage.price_snapshots a = PostgresStorage.price_snapshots b
  /\ PostgresStorage.ingestion_checkpoints a = PostgresStorage.ingestion_checkpoints b.

(** ** What the specification calls a field that is not supplied *)

(** The payload gives no number for a field: the key is absent or its
    value is null (both read as [None]), or [float()] refuses the value. *)
Definition no_number (v : value) : Prop :=
  v = VNone \/ py_float v = Raise ValueError \/ py_float v = Raise TypeError.

(** ** What the specification calls an upsert *)

(** Look up an existing row by the natural key; if found, overwrite every
    column except the natural key with the incoming values; if not found,
    insert a new row. *)
Definition spec_upsert {R K} `{EqDecision K} (key : R -> K) (set_columns : R -> R -> R)
    (t : list R) (r : R) : list R :=
  match lookup_row key (key r) t with
  | Some existing => replace_first key (key existing) (set_columns existing r) t
  | None => t ++ [r]
  end.

(** The number of rows of a table under a natural key. *)
Definition rows_with_key {R K} `{EqDecision K} (key : R -> K) (k : K) (t : list R) : nat :=
  length (filter (fun row => key row = k) t).

(** ** What the specification calls one transaction *)

(** The error of the first record of the batch that the table refuses, if
    it refuses one. *)
Fixpoint first_refusal {R : Type} (accepts : R -> result unit) (batch : list R) : option exn :=
  match batch with
  | [] => None
  | r :: rest =>
      match accepts r with
      | Ok _ => first_refusal accepts rest
      | Raise e => Some e
      end
  end.

(** The line a [store_*] method logs before it re-raises. *)
Definition error_line (error_event : string) (e : exn) : log_entry :=
  {| lvl := Error; event := error_event; fields := [("error", FErr e)] |}.

(** ** What the specification calls the day-by-day backfill *)


(** A market record as the normalizer produces it from a payload with an
    id and a question. *)
Definition example_market (market_id question : string) : Market :=
  {| m_market_id := market_id; m_source := "polymarket"; m_question := VStr question;
     m_description := VNone; m_end_date := None; m_resolution_source := VNone;
     m_category := VNone; m_tags := VList []; m_liquidity := None; m_volume_24h := None;
     m_created_at := None; m_updated_at := None; m_raw_data := [] |}.

(** A snapshot payload that carries no timestamp. *)
Definition untimed_snapshot_payload : raw_dict :=
  [("marketId", VStr "market-123"); ("outcomeId", VStr "YES");
   ("impliedProbability", VStr "0.65")].

(** The snapshot [a] as it would be with another timestamp. *)
Definition restamped (a : PriceSnapshot) (timestamp : datetime) : PriceSnapshot :=
  {| s_market_id := s_market_id a; s_source := s_source a;
     s_outcome_id := s_outcome_id a; s_timestamp := timestamp;
     s_implied_probability := s_implied_probability a;
     s_bid := s_bid a; s_ask := s_ask a; s_mid := s_mid a; s_spread := s_spread a;
     s_volume_24h := s_volume_24h a; s_liquidity := s_liquidity a;
     s_raw_data := s_raw_data a |}.

(** ** What an ingestion run may ask of its collaborators *)

(** A property of the worlds before and after a computation, whatever it
    returns or raises. *)
Definition steps {W X : Type} (R : W -> W -> Prop) (m : M W X) : Prop :=
  forall w, R w (snd (m w)).

(** The record of calls is only extended, and by calls satisfying
    [allowed]. *)
Definition extends_by {S A : Type} (allowed : call -> Prop) (w w' : world S A) : Prop :=
  exists extra, w_calls w' = w_calls w ++ extra /\ Forall allowed extra.

Definition is_fetch (c : call) : bool :=
  match c with
  | FetchMarkets _ _ | FetchTrades _ _ _ _ | FetchPriceSnapshots _ _ => true
  | _ => false
  end.

(** The calls of a markets run for [limit], archiving or not. *)
Definition markets_call (source : string) (limit : option Z) (archive : bool) (c : call)
  : Prop :=
  match c with
  | FetchMarkets l _ => l = limit
  | NormalizeMarket _ | StoreMarkets _ => True
  | StoreRaw s e _ => archive = true /\ s = source /\ e = "markets"
  | _ => False
  end.

(** The calls of a trades run: the checkpoint is read only when no
    [since] was given, and a given [since] is the one of every fetch. *)
Definition trades_call (source : string) (market_id : option string) (since : option datetime)
    (limit : option Z) (archive : bool) (c : call) : Prop :=
  match c with
  | GetLatestCheckpoint s d => since = None /\ s = source /\ d = "trades"
  | FetchTrades m s l _ =>
      m = market_id /\ l = limit /\ (forall d, since = Some d -> s = Some d)
  | NormalizeTrade _ | StoreTrades _ => True
  | StoreRaw s e _ => archive = true /\ s = source /\ e = "trades"
  | UpdateCheckpoint s d _ => s = source /\ d = "trades"
  | _ => False
  end.

(** The calls of a price-snapshot run. *)
Definition prices_call (source : string) (market_id : option string) (since : option datetime)
    (archive : bool) (c : call) : Prop :=
  match c with
  | FetchPriceSnapshots m s => m = market_id /\ s = since
  | NormalizePriceSnapshot _ | StorePriceSnapshots _ => True
  | StoreRaw s e _ => archive = true /\ s = source /\ e = "price_snapshots"
  | UpdateCheckpoint s d _ => s = source /\ d = "price_snapshots"
  | _ => False
  end.

(** ** Counting failures *)

(** On return the quantity [c] is as before; on an exception it has grown
    by [per_level] for each of the nested operations the exception passed
    through, at least [lo] and at most [hi] of them. *)
Definition counts_failures {W X : Type} (c : W -> Z) (per_level : Z) (lo hi : nat)
    (m : M W X) : Prop :=
  forall w, match m w with
            | (Ok _, w') => c w' = c w
            | (Raise _, w') =>
                exists depth : nat,
                  (lo <= depth <= hi)%nat /\ c w' = c w + per_level * Z.of_nat depth
            end.

(** An adapter whose client fails on the first request. *)
Definition failing_adapter (e : exn) : PolymarketAdapter :=
  {| replies := [Raise e]; now := datetime_of 2024 1 15 10 30 0 |}.


Definition announced_page (raws : list raw_dict) : PolymarketAdapter :=
  {| replies := [Ok {| data := raws; nextCursor := Some "page-2" |}];
     now := datetime_of 2024 1 15 10 30 0 |}.

(** A client whose first two requests fail in transit, and one whose
    server answers 200 with a body that is not JSON. *)
Definition flaky : PolymarketClient.t :=
  client_with (fun n => match n with
                        | O => PolymarketClient.Raises TimeoutException
                        | Datatypes.S O => PolymarketClient.Raises NetworkError
                        | _ => PolymarketClient.Response 200 "{}" (Ok (VDict []))
                        end).

Definition garbled : PolymarketClient.t :=
  client_with (fun _ => PolymarketClient.Response 200 "<html>" (Raise JSONDecodeError)).

(** ** Whole days *)

(** A datetime at 00:00:00.000000, as a date without a time parses. *)
Definition is_midnight (d : datetime) : Prop :=
  hour d = 0 /\ minute d = 0 /\ second d = 0 /\ microsecond d = 0.

(** The engine calls of [n] consecutive days from [current] on. *)
Fixpoint day_calls (market_id : option string) (store_raw_flag : bool) (current : datetime)
    (n : nat) : list cli_event :=
  match n with
  | O => []
  | Datatypes.S n' =>
      IngestTrades market_id (Some current) None store_raw_flag
      :: day_calls market_id store_raw_flag (add_days current 1) n'
  end.

(** The outcomes of the engine calls of [n] consecutive days from
    [current] on, made one after the other from the environment [e]. *)
Fixpoint day_outcomes {E : Type} `{CliEnv E} (market_id : option string)
    (store_raw_flag : bool) (current : datetime) (n : nat) (e : E) : list (result Z) :=
  match n with
  | O => []
  | Datatypes.S n' =>
      let '(r, e') := engine_ingest_trades market_id (Some current) None store_raw_flag e in
      r :: day_outcomes market_id store_raw_flag (add_days current 1) n' e'
  end.

(** The sum of the counts returned. *)
Definition sum_ok (outcomes : list (result Z)) : Z :=
  fold_right (fun r acc => match r with Ok count => count + acc | Raise _ => acc end) 0 outcomes.

(** What can make a normalizer raise: an integer field beyond the float
    range, or a date parser that raises something the helpers do not
    catch. *)
Definition escapes (rt : runtime) (raw : raw_dict) (e : exn) : Prop :=
  (e = OverflowError
   /\ exists key z, dict_lookup key raw = Some (VInt z)
                    /\ float_of_int z = Raise OverflowError)
  \/ (exists key s, dict_lookup key raw = Some (VStr s)
                    /\ parse_date rt s = Raise e
                    /\ is_value_or_type_error e = false).

(** ** Pagination *)

(** Whether the run goes on after a page. *)
Definition continues (limit : option Z) (p : page) : bool :=
  cursor_truthy (nextCursor p)
  && match limit with
     | None => true
     | Some k => Z.of_nat (length (data p)) =? k
     end.

(** The pages of one run: after each but the last the run goes on. *)
Fixpoint chained (limit : option Z) (pages : list page) : Prop :=
  match pages with
  | [] => False
  | p :: rest =>
      match rest with
      | [] => continues limit p = false
      | _ :: _ => continues limit p = true /\ chained limit rest
      end
  end.

(** The fetches of a run over these pages, each with the cursor the page
    before announced. *)
Fixpoint fetches (limit : option Z) (cursor : option string) (pages : list page) : list call :=
  match pages with
  | [] => []
  | p :: rest => FetchMarkets limit cursor :: fetches limit (nextCursor p) rest
  end.

(** The archive row [store_raw] makes. *)
Definition archive_row (request_id : Z) (source endpoint : string)
    (response_data metadata : value) : RawApiResponse :=
  {| r_request_id := request_id; r_source := source; r_endpoint := endpoint;
     r_response_json := response_data; r_status_code := 200; r_metadata := metadata |}.

(** The database accepts the archive row of each page of a markets run,
    whatever its request id. *)
Fixpoint archivable (db : database) (source : string) (cursor : option string)
    (pages : list page) : Prop :=
  match pages with
  | [] => True
  | p :: rest =>
      (forall request_id,
          raw_accepts db
            (archive_row request_id source "markets"
               (VDict [("data", raw_list (data p)); ("cursor", opt_str_value cursor)]) VNone)
          = Ok tt)
      /\ archivable db source (nextCursor p) rest
  end.

(** Request ids handed out so far are older than the next one. *)
Definition fresh_ids (st : PostgresStorage.t) : Prop :=
  Forall (fun r => r_request_id r < PostgresStorage.next_uuid st)
    (PostgresStorage.raw_api_responses st).

(** An adapter with two pages of one market each, the first announcing
    the second. *)
Definition two_pages : PolymarketAdapter :=
  {| replies := [Ok {| data := [[("id", VStr "market-1")]]; nextCursor := Some "page-2" |};
                 Ok {| data := [[("id", VStr "market-2")]]; nextCursor := None |}];
     now := datetime_of 2024 1 15 10 30 0 |}.

(** ** The uniqueness the tables declare *)

(** Every table has at most one row per natural key (its
    [UniqueConstraint]), the archive at most one per request id, and the
    request ids handed out so far lie below the next one. *)
Definition well_keyed (st : PostgresStorage.t) : Prop :=
  NoDup (map market_key (PostgresStorage.markets st))
  /\ NoDup (map trade_key (PostgresStorage.trades st))
  /\ NoDup (map snapshot_key (PostgresStorage.price_snapshots st))
  /\ NoDup (map checkpoint_key (PostgresStorage.ingestion_checkpoints st))
  /\ NoDup (map r_request_id (PostgresStorage.raw_api_responses st))
  /\ Forall (fun r => r_request_id r < PostgresStorage.next_uuid st)
       (PostgresStorage.raw_api_responses st).

(** The checkpoint row an update writes. *)
Definition checkpoint_row (source data_type : string) (timestamp : datetime) : Checkpoint :=
  {| c_source := source; c_data_type := data_type; c_last_sync_timestamp := timestamp |}.

(** * Properties of the normalization schemas *)


(** [float()] on a string fails with [ValueError] only. *)
Lemma float_of_str_error (s : string) (e : exn) :
  float_of_str s = Raise e -> e = ValueError.
Proof.
  unfold float_of_str.
  destruct (split_sign _) as [neg body].
  destruct (_ || _); [discriminate |].
  destruct (String.eqb _ "nan"); [discriminate |].
  destruct (parse_number body) as [[[n nd] x] |]; [discriminate |].
  now intros [= <-].
Qed.

(** Leading zeros do not count as digits, and literals far outside the
    binary64 range round to infinity and to zero. *)
Example float_of_str_leading_zeros :
  float_of_str (string_of_list_ascii (repeat "0"%char 401 ++ ["1"%char])) = Ok 1%float
  /\ float_of_str "1e400" = Ok infinity
  /\ float_of_str "-1e-400" = Ok (-0)%float
  /\ float_of_str "0.1e1" = Ok 1%float.
Proof. repeat split; vm_compute; reflexivity. Qed.

(** The only exception [float()] lets through [_parse_float] is the
    [OverflowError] of an integer beyond the binary64 range. *)
Lemma _parse_float_error (v : value) (default : option float) (e : exn) :
  _parse_float v default = Raise e ->
  e = OverflowError /\ exists z, v = VInt z /\ float_of_int z = Raise OverflowError.
Proof.
  destruct v as [| b | z | f | s | l | d | d]; simpl; try discriminate.
  - unfold float_of_int.
    destruct (z =? 0) eqn:Hz; [discriminate |].
    destruct (round_ratio _ _) as [[m ex] |] eqn:Hr; [discriminate |].
    simpl. intros [= <-]. split; [reflexivity |].
    exists z. split; [reflexivity |].
    unfold float_of_int. now rewrite Hz, Hr.
  - destruct (float_of_str s) as [f | e'] eqn:Hs; [discriminate |].
    apply float_of_str_error in Hs as ->. discriminate.
Qed.

(** Absent or unparsable input gives the default. *)
Lemma _parse_float_default (v : value) (default : option float) :
  v = VNone \/ py_float v = Raise ValueError \/ py_float v = Raise TypeError ->
  _parse_float v default = Ok default.
Proof.
  intros [-> | [Hv | Hv]]; [reflexivity | |];
    destruct v; simpl in *; try reflexivity; try congruence; now rewrite Hv.
Qed.

Lemma _parse_float_parsed (v : value) (default : option float) (f : float) :
  py_float v = Ok f -> _parse_float v default = Ok (Some f).
Proof.
  intros Hv. destruct v; simpl in *; try congruence; now rewrite Hv.
Qed.

(** [_parse_datetime] returns unless the date parser raises something
    other than [ValueError] or [TypeError]. *)
Lemma _parse_datetime_error (rt : runtime) (v : value) (e : exn) :
  _parse_datetime rt v = Raise e ->
  exists s, v = VStr s /\ parse_date rt s = Raise e /\ is_value_or_type_error e = false.
Proof.
  destruct v as [| b | z | f | s | l | d | d]; simpl; try discriminate.
  destruct (parse_date rt s) as [d | e'] eqn:Hp; [discriminate |].
  destruct (is_value_or_type_error e') eqn:He; [discriminate |].
  intros [= <-]. now exists s.
Qed.

(** C4. The normalizers are meant never to raise, and the parsing helpers
    catch [ValueError] and [TypeError]; but [float()] of an integer beyond
    the binary64 range raises [OverflowError], which the [except] clause of
    [_parse_float] does not list. A payload whose numeric field is the JSON
    integer [10^400] makes each of the three normalizers raise instead of
    returning a record with the documented default. *)
Theorem parse_float_lets_overflow_escape (rt : runtime) (source : string) (utcnow : datetime) :
  normalize_trade_from_raw rt
    [("id", VStr "trade-456"); ("price", VInt (10 ^ 400))] source = Raise OverflowError
  /\ normalize_market_from_raw rt
       [("id", VStr "market-123"); ("liquidity", VInt (10 ^ 400))] source = Raise OverflowError
  /\ normalize_price_snapshot_from_raw rt utcnow
       [("marketId", VStr "market-123"); ("bid", VInt (10 ^ 400))] source = Raise OverflowError.
Proof. repeat split; vm_compute; reflexivity. Qed.

(** Outside that slip the normalizer does return: when no numeric field is
    an integer beyond the float range and the date parser raises nothing
    but [ValueError] or [TypeError], the trade normalizer returns a record,
    with price and quantity present. *)
Lemma normalize_trade_returns (rt : runtime) (raw : raw_dict) (source : string) :
  (forall s, match parse_date rt s with
             | Ok _ => True
             | Raise e => is_value_or_type_error e = true
             end) ->
  (forall key z, dict_lookup key raw = Some (VInt z) -> is_ok (float_of_int z) = true) ->
  exists t, normalize_trade_from_raw rt raw source = Ok t
            /\ is_Some (t_price t) /\ is_Some (t_quantity t).
Proof.
  intros Hdate Hint.
  assert (Hfloat : forall key, exists o,
             _parse_float (dict_get raw key VNone) (Some 0%float) = Ok o /\ is_Some o).
  { intros key.
    destruct (_parse_float (dict_get raw key VNone) (Some 0%float)) as [o | e] eqn:Hp.
    - exists o. split; [reflexivity |].
      destruct (dict_get raw key VNone) as [| b | z | f | s | l | d | d];
        simpl in Hp; try (injection Hp as <-; eauto).
      + destruct (float_of_int z); [| destruct (is_value_or_type_error _)];
          try (injection Hp as <-; eauto); discriminate.
      + destruct (float_of_str s); [| destruct (is_value_or_type_error _)];
          try (injection Hp as <-; eauto); discriminate.
    - apply _parse_float_error in Hp as (_ & z & Hz & Hover).
      unfold dict_get in Hz. destruct (dict_lookup key raw) as [v |] eqn:Hl; [| discriminate].
      subst v. apply Hint in Hl. rewrite Hover in Hl. discriminate. }
  assert (Htime : exists o, _parse_datetime rt (dict_get raw "timestamp" VNone) = Ok o).
  { destruct (_parse_datetime rt (dict_get raw "timestamp" VNone)) as [o | e] eqn:Hp; [eauto |].
    apply _parse_datetime_error in Hp as (s & _ & Hs & He).
    specialize (Hdate s). rewrite Hs in Hdate. congruence. }
  destruct (Hfloat "price") as (p & Hp & Hps), (Hfloat "quantity") as (q & Hq & Hqs),
    Htime as (ts & Hts).
  unfold normalize_trade_from_raw. rewrite Hp, Hq, Hts. simpl. eauto.
Qed.

(** Case analysis on the next fallible step of a normalizer that is known
    to have returned. *)
Ltac step_rbind H :=
  match type of H with
  | context [rbind ?r _] =>
      let E := fresh "E" in
      destruct r eqn:E; simpl in H; [| discriminate H]
  end.

(** Two equations giving the result of the same call identify the results. *)
Ltac same_results :=
  repeat match goal with
         | H1 : ?x = Ok ?a, H2 : ?x = Ok ?b |- _ =>
             assert (a = b) by congruence; clear H2; subst
         | H : Ok ?a = Ok ?b |- _ =>
             assert (a = b) by congruence; clear H; subst
         end.

(** C5, as amended. For every raw price-snapshot payload that normalizes:
    when [bid] and [ask] parse to the numbers [b] and [a], the record has
    [mid = (b + a) / 2] whenever the payload gives no number for [mid]
    (the key is absent, its value is null, or it is not a number), and
    [spread = a - b] whenever it gives no number for [spread], both in
    binary64 arithmetic; a supplied [mid] or [spread] that parses as a
    number is kept as parsed, whatever bid and ask are; and with no number
    for [mid] (or [spread]) and none for bid or ask, the field is absent. *)
Theorem snapshot_derived_fields (rt : runtime) (utcnow : datetime) (raw : raw_dict)
    (source : string) (r : PriceSnapshot) :
  normalize_price_snapshot_from_raw rt utcnow raw source = Ok r ->
  (forall b a,
      py_float (dict_get raw "bid" VNone) = Ok b ->
      py_float (dict_get raw "ask" VNone) = Ok a ->
      s_bid r = Some b /\ s_ask r = Some a
      /\ (no_number (dict_get raw "mid" VNone) -> s_mid r = Some ((b + a) / 2)%float)
      /\ (no_number (dict_get raw "spread" VNone) -> s_spread r = Some (a - b)%float))
  /\ (forall m, py_float (dict_get raw "mid" VNone) = Ok m -> s_mid r = Some m)
  /\ (forall sp, py_float (dict_get raw "spread" VNone) = Ok sp -> s_spread r = Some sp)
  /\ (no_number (dict_get raw "bid" VNone) \/ no_number (dict_get raw "ask" VNone) ->
      (no_number (dict_get raw "mid" VNone) -> s_mid r = None)
      /\ (no_number (dict_get raw "spread" VNone) -> s_spread r = None)).
Proof.
  intros Hn. unfold normalize_price_snapshot_from_raw in Hn.
  do 8 step_rbind Hn. injection Hn as <-. cbn [s_bid s_ask s_mid s_spread].
  pose proof (fun v => _parse_float_parsed v None) as Hp.
  pose proof (fun v => _parse_float_default v None) as Hd.
  split; [intros bid ask Hb Ha | split; [intros mid Hm | split; [intros spread Hs |]]].
  - apply Hp in Hb, Ha. same_results.
    repeat split; intros Hnone; apply Hd in Hnone; same_results; reflexivity.
  - apply Hp in Hm. same_results. reflexivity.
  - apply Hp in Hs. same_results. reflexivity.
  - intros [Hb | Ha]; [apply Hd in Hb | apply Hd in Ha]; same_results;
      (split; intros Hnone; apply Hd in Hnone; same_results);
      try reflexivity;
      match goal with |- match ?x with _ => _ end = _ => now destruct x end.
Qed.

(** The derived-field rule at the payload [{bid: "0.64", ask: "0.66"}]:
    the mid is exactly the float [0.65]; the spread is the float
    [0.020000000000000018], within [1e-15] of [0.02]; and a supplied mid of
    [0.5] stays [0.5]. *)
Lemma snapshot_derived_fields_example :
  (exists r,
      normalize_price_snapshot_from_raw example_runtime (datetime_of 2024 1 15 10 30 0)
        bid_ask_payload "polymarket" = Ok r
      /\ s_mid r = Some 0.65%float
      /\ s_spread r = Some 0.020000000000000018%float
      /\ (PrimFloat.abs (0.020000000000000018 - 0.02) <? 1e-15)%float = true)
  /\ (exists r,
        normalize_price_snapshot_from_raw example_runtime (datetime_of 2024 1 15 10 30 0)
          (("mid", VFloat 0.5) :: bid_ask_payload) "polymarket" = Ok r
        /\ s_mid r = Some 0.5%float).
Proof.
  split.
  - destruct (normalize_price_snapshot_from_raw example_runtime (datetime_of 2024 1 15 10 30 0)
                bid_ask_payload "polymarket") as [r | e] eqn:Hn;
      [| vm_compute in Hn; discriminate Hn].
    exists r. split; [reflexivity |].
    destruct (snapshot_derived_fields _ _ _ _ _ Hn) as (Hrule & _ & _).
    destruct (Hrule 0.64%float 0.66%float) as (_ & _ & Hmid & Hspread);
      [vm_compute; reflexivity | vm_compute; reflexivity |].
    split; [rewrite Hmid by (left; reflexivity); vm_compute; reflexivity |].
    split; [rewrite Hspread by (left; reflexivity); vm_compute; reflexivity |].
    vm_compute; reflexivity.
  - destruct (normalize_price_snapshot_from_raw example_runtime (datetime_of 2024 1 15 10 30 0)
                (("mid", VFloat 0.5) :: bid_ask_payload) "polymarket") as [r | e] eqn:Hn;
      [| vm_compute in Hn; discriminate Hn].
    exists r. split; [reflexivity |].
    destruct (snapshot_derived_fields _ _ _ _ _ Hn) as (_ & Hkept & _).
    apply Hkept. reflexivity.
Defined.

(** C5 fails as stated: a supplied [mid] or [spread] is not always
    preserved. One that is not a number (["n/a"], or null) is replaced by
    the value derived from bid and ask. *)
Lemma unparsable_mid_is_replaced :
  exists r r',
    normalize_price_snapshot_from_raw example_runtime (datetime_of 2024 1 15 10 30 0)
      (("mid", VStr "n/a") :: ("spread", VNone) :: bid_ask_payload) "polymarket" = Ok r
    /\ dict_lookup "mid" (s_raw_data r) = Some (VStr "n/a")
    /\ s_mid r = Some 0.65%float
    /\ dict_lookup "spread" (s_raw_data r) = Some VNone
    /\ s_spread r = Some 0.020000000000000018%float
    /\ normalize_price_snapshot_from_raw example_runtime (datetime_of 2024 1 15 10 30 0)
         [("mid", VStr "n/a")] "polymarket" = Ok r'
    /\ s_mid r' = None.
Proof.
  eexists. eexists.
  split; [vm_compute; reflexivity |].
  repeat split; vm_compute; reflexivity.
Qed.

(** * Properties of the storage backend *)

Section LookupFacts.
Context {R K : Type} `{EqDecision K}.
Context (key : R -> K).

Lemma lookup_row_Some (k : K) (t : list R) (row : R) :
  lookup_row key k t = Some row -> key row = k /\ row ∈ t.
Proof.
  unfold lookup_row. intros Hf. apply find_some in Hf as [Hin Hk].
  apply bool_decide_eq_true in Hk. split; [assumption | now apply list_elem_of_In].
Qed.

Lemma lookup_row_None (k : K) (t : list R) :
  lookup_row key k t = None <-> k ∉ map key t.
Proof.
  unfold lookup_row. induction t as [| row t IH]; simpl.
  - split; [intros _; apply not_elem_of_nil | reflexivity].
  - rewrite not_elem_of_cons, <- IH.
    case_bool_decide; [split; [discriminate | intros [? _]; congruence] |].
    split; [auto | tauto].
Qed.

Lemma replace_first_keys (k : K) (new : R) (t : list R) :
  key new = k -> map key (replace_first key k new t) = map key t.
Proof.
  intros Hk. induction t as [| row t IH]; simpl; [reflexivity |].
  case_bool_decide; simpl; congruence.
Qed.

Lemma lookup_replace_first (k : K) (new : R) (t : list R) :
  key new = k -> k ∈ map key t ->
  lookup_row key k (replace_first key k new t) = Some new.
Proof.
  intros Hk. unfold lookup_row. induction t as [| row t IH]; simpl.
  - intros Hin. now apply not_elem_of_nil in Hin.
  - rewrite elem_of_cons. intros Hin. case_bool_decide as Hrow; simpl.
    + now rewrite bool_decide_eq_true_2.
    + rewrite bool_decide_eq_false_2 by assumption. apply IH.
      destruct Hin; [congruence | assumption].
Qed.

Lemma lookup_replace_first_other (k k' : K) (new : R) (t : list R) :
  key new = k -> k' <> k ->
  lookup_row key k' (replace_first key k new t) = lookup_row key k' t.
Proof.
  intros Hk Hne. unfold lookup_row. induction t as [| row t IH]; simpl; [reflexivity |].
  case_bool_decide as Hrow; simpl.
  - rewrite !bool_decide_eq_false_2 by congruence. reflexivity.
  - case_bool_decide; [reflexivity | apply IH].
Qed.

Lemma lookup_app_new (k : K) (r : R) (t : list R) :
  lookup_row key k (t ++ [r]) =
  match lookup_row key k t with
  | Some row => Some row
  | None => if bool_decide (key r = k) then Some r else None
  end.
Proof.
  unfold lookup_row. induction t as [| row t IH]; simpl; [reflexivity |].
  destruct (bool_decide (key row = k)); [reflexivity | apply IH].
Qed.

Lemma rows_with_key_count (k : K) (t : list R) :
  rows_with_key key k t = length (filter (fun k' => k' = k) (map key t)).
Proof.
  unfold rows_with_key. induction t as [| row t IH]; simpl; [reflexivity |].
  rewrite !filter_cons. case_decide; simpl; congruence.
Qed.

Lemma count_absent (k : K) (ks : list K) :
  k ∉ ks -> filter (fun k' => k' = k) ks = [].
Proof.
  induction ks as [| k0 ks IH]; [reflexivity |].
  rewrite not_elem_of_cons, filter_cons. intros [Hne Hnotin].
  rewrite decide_False by congruence. now apply IH.
Qed.

Lemma count_NoDup (k : K) (ks : list K) :
  NoDup ks -> k ∈ ks -> length (filter (fun k' => k' = k) ks) = 1%nat.
Proof.
  induction 1 as [| k0 ks Hnotin Hnd IH]; [intros Hin; now apply not_elem_of_nil in Hin |].
  rewrite filter_cons, elem_of_cons. intros [-> | Hin].
  - rewrite decide_True by reflexivity. simpl. now rewrite count_absent.
  - rewrite decide_False by (intros ->; contradiction). now apply IH.
Qed.
End LookupFacts.

Section UpsertFacts.
Context {R K : Type} `{EqDecision K}.
Context (key : R -> K) (set_columns : R -> R -> R).

Abbreviation ups := (spec_upsert key set_columns).

(** Rows whose key columns are exactly the ones [setattr] skips. *)
Hypothesis set_columns_same_key :
  forall existing incoming, key existing = key incoming ->
                            set_columns existing incoming = incoming.

(** After an upsert the row under the record's key is the row that was
    there, if any, with its other columns set to the record's. *)
Lemma spec_upsert_lookup (t : list R) (r : R) :
  lookup_row key (key r) (ups t r) = Some r.
Proof.
  unfold spec_upsert.
  destruct (lookup_row key (key r) t) as [existing |] eqn:Hl.
  - pose proof (lookup_row_Some _ _ _ _ Hl) as [Hk Hin].
    rewrite (set_columns_same_key _ _ Hk), Hk.
    apply lookup_replace_first; [reflexivity |].
    rewrite <- Hk. apply list_elem_of_In, in_map. now apply list_elem_of_In.
  - rewrite lookup_app_new, Hl. now rewrite bool_decide_eq_true_2.
Qed.

(** Rows under other keys are left as they were. *)
Lemma spec_upsert_other (t : list R) (r : R) (k : K) :
  k <> key r -> lookup_row key k (ups t r) = lookup_row key k t.
Proof.
  intros Hne. unfold spec_upsert.
  destruct (lookup_row key (key r) t) as [existing |] eqn:Hl.
  - pose proof (lookup_row_Some _ _ _ _ Hl) as [Hk _].
    rewrite (set_columns_same_key _ _ Hk), Hk.
    now apply lookup_replace_first_other.
  - rewrite lookup_app_new. destruct (lookup_row key k t); [reflexivity |].
    now rewrite bool_decide_eq_false_2 by congruence.
Qed.

Lemma spec_upsert_keys (t : list R) (r : R) :
  map key (ups t r) =
  if bool_decide (key r ∈ map key t) then map key t else map key t ++ [key r].
Proof.
  unfold spec_upsert.
  destruct (lookup_row key (key r) t) as [existing |] eqn:Hl.
  - pose proof (lookup_row_Some _ _ _ _ Hl) as [Hk Hin].
    rewrite bool_decide_eq_true_2
      by (rewrite <- Hk; apply list_elem_of_In, in_map; now apply list_elem_of_In).
    rewrite (set_columns_same_key _ _ Hk), Hk. now apply replace_first_keys.
  - apply lookup_row_None in Hl. rewrite bool_decide_eq_false_2 by assumption.
    now rewrite map_app.
Qed.

(** The natural keys of a table stay pairwise distinct. *)
Lemma spec_upsert_NoDup (t : list R) (r : R) :
  NoDup (map key t) -> NoDup (map key (ups t r)).
Proof.
  intros Hnd. rewrite spec_upsert_keys. case_bool_decide as Hin; [assumption |].
  apply NoDup_app. repeat split; [assumption | | apply NoDup_singleton].
  intros k Hk Hk'. apply list_elem_of_singleton in Hk' as ->. contradiction.
Qed.

Lemma fold_upsert_NoDup (batch : list R) :
  forall t, NoDup (map key t) -> NoDup (map key (fold_left ups batch t)).
Proof.
  induction batch as [| r batch IH]; intros t Hnd; simpl; [assumption |].
  apply IH. now apply spec_upsert_NoDup.
Qed.

(** After a batch of upserts the row under a key is the last record of
    the batch with that key, or the row that was there when the batch has
    none. *)
Lemma fold_upsert_lookup (batch : list R) (k : K) :
  forall t,
    lookup_row key k (fold_left ups batch t) =
    match lookup_row key k (rev batch) with
    | Some r => Some r
    | None => lookup_row key k t
    end.
Proof.
  induction batch as [| r batch IH]; intros t; simpl; [reflexivity |].
  rewrite IH, lookup_app_new.
  destruct (lookup_row key k (rev batch)); [reflexivity |].
  case_bool_decide as Hk.
  - rewrite <- Hk. apply spec_upsert_lookup.
  - apply spec_upsert_other. congruence.
Qed.

End UpsertFacts.

Section SessionFacts.
Context {R K : Type} `{EqDecision K}.
Context (key : R -> K) (set_columns : R -> R -> R).
Context (accepts : R -> result unit) (uq : string).

Abbreviation loop := (upsert_loop key set_columns accepts uq).
Abbreviation eff := (effective key accepts uq).
Abbreviation wrec := (write_record key set_columns accepts uq).
Abbreviation wrecs := (write_records key set_columns accepts uq).
Abbreviation store := (store_batch key set_columns accepts uq).
Abbreviation ups := (spec_upsert key set_columns).

(** Once a write has been refused, the loop stops at its next lookup. *)
Lemma upsert_loop_refused (batch : list R) (n : Z) (s : session) (e : exn) :
  eff s = Raise e ->
  loop batch n s = match batch with [] => (Ok n, s) | _ :: _ => (Raise e, s) end.
Proof.
  intros He. destruct batch as [| r batch]; [reflexivity |].
  unfold effective in He. simpl.
  unfold upsert_one, query_first, flush. now rewrite He.
Qed.

(** The loop never touches the committed table, counts every record, and
    leaves in the session exactly the writes of [wrecs]. *)
Lemma upsert_loop_spec (batch : list R) :
  forall (n : Z) (s : session) (t : list R),
    eff s = Ok t ->
    match loop batch n s with
    | (Ok m, s') => m = n + Z.of_nat (length batch)
                    /\ committed s' = committed s
                    /\ eff s' = wrecs batch t
    | (Raise e, s') => committed s' = committed s /\ wrecs batch t = Raise e
    end.
Proof.
  induction batch as [| r batch IH]; intros n s t Heff.
  - simpl. rewrite Heff. repeat split. lia.
  - assert (Hstep : exists s1, upsert_one key set_columns accepts uq r s = (Ok tt, s1)
                               /\ committed s1 = committed s
                               /\ eff s1 = wrec t r).
    { unfold upsert_one, query_first, flush. unfold effective in Heff. rewrite Heff. simpl.
      unfold write_record.
      destruct (lookup_row key (key r) t) as [existing |]; eexists; (split; [reflexivity |]);
        split; try reflexivity; unfold effective; simpl;
        match goal with |- rbind ?x _ = _ => destruct x; reflexivity end. }
    destruct Hstep as (s1 & Hone & Hc1 & He1).
    simpl. rewrite Hone.
    destruct (wrec t r) as [t1 | e] eqn:Hw.
    + specialize (IH (n + 1) s1 t1 He1).
      destruct (loop batch (n + 1) s1) as [[m | e] s'].
      * destruct IH as (-> & Hc & He). rewrite Hc, Hc1. repeat split; [lia | exact He].
      * destruct IH as (Hc & He). rewrite Hc, Hc1. auto.
    + rewrite (upsert_loop_refused _ _ _ _ He1).
      destruct batch; simpl; [| auto].
      repeat split; try lia; assumption.
Qed.

(** A [store_*] method is the batch's writes, all or none. *)
Lemma store_batch_spec (error_event : string) (batch table : list R) :
  store error_event batch table =
  match wrecs batch table with
  | Ok t => (Ok (Z.of_nat (length batch)), t, [])
  | Raise e => (Raise e, table,
                [{| lvl := Error; event := error_event; fields := [("error", FErr e)] |}])
  end.
Proof.
  unfold store_batch.
  pose proof (upsert_loop_spec batch 0 (open_session table) table eq_refl) as Hloop.
  destruct (loop batch 0 (open_session table)) as [[m | e] s].
  - destruct Hloop as (-> & Hc & He). unfold commit, flush.
    unfold effective in He. rewrite He.
    destruct (wrecs batch table); simpl; [reflexivity |].
    now rewrite Hc.
  - destruct Hloop as (Hc & ->). simpl. now rewrite Hc.
Qed.

(** Every accepted write is the specification's upsert. *)
Lemma write_record_upsert (t t' : list R) (r : R) :
  wrec t r = Ok t' -> t' = ups t r.
Proof.
  unfold write_record, spec_upsert.
  destruct (lookup_row key (key r) t) as [existing |] eqn:Hl; simpl.
  - destruct (accepts _); simpl; congruence.
  - destruct (accepts r); simpl; [| discriminate]. rewrite Hl. congruence.
Qed.

Lemma write_records_upsert (batch : list R) :
  forall t t', wrecs batch t = Ok t' -> t' = fold_left ups batch t.
Proof.
  induction batch as [| r batch IH]; intros t t'; simpl; [congruence |].
  destruct (wrec t r) as [t1 |] eqn:Hw; simpl; [| discriminate].
  apply write_record_upsert in Hw as ->. apply IH.
Qed.

(** Rows whose key columns are exactly the ones [setattr] skips. *)
Hypothesis set_columns_same_key :
  forall existing incoming, key existing = key incoming ->
                            set_columns existing incoming = incoming.

Lemma write_record_accepted (t : list R) (r : R) :
  accepts r = Ok tt -> wrec t r = Ok (ups t r).
Proof.
  intros Hok. unfold write_record, spec_upsert.
  destruct (lookup_row key (key r) t) as [existing |] eqn:Hl; simpl.
  - apply lookup_row_Some in Hl as [Hk _].
    rewrite (set_columns_same_key _ _ Hk), Hok. reflexivity.
  - now rewrite Hok, Hl.
Qed.

Lemma write_records_accepted (batch : list R) :
  forall t, Forall (fun r => accepts r = Ok tt) batch ->
            wrecs batch t = Ok (fold_left ups batch t).
Proof.
  induction batch as [| r batch IH]; intros t Hall; simpl; [reflexivity |].
  inversion Hall as [| ? ? Hr Hrest]; subst.
  rewrite (write_record_accepted _ _ Hr). simpl. now apply IH.
Qed.

(** A record the table refuses is refused whether its key is new or not. *)
Lemma write_record_refused (t : list R) (r : R) (e : exn) :
  accepts r = Raise e -> wrec t r = Raise e.
Proof.
  intros Hno. unfold write_record.
  destruct (lookup_row key (key r) t) as [existing |] eqn:Hl; simpl.
  - apply lookup_row_Some in Hl as [Hk _].
    rewrite (set_columns_same_key _ _ Hk), Hno. reflexivity.
  - now rewrite Hno.
Qed.

(** The writes of a batch succeed up to its first refused record. *)
Lemma write_records_first_refusal (batch : list R) :
  forall t, wrecs batch t = match first_refusal accepts batch with
                            | None => Ok (fold_left ups batch t)
                            | Some e => Raise e
                            end.
Proof.
  induction batch as [| r batch IH]; intros t; simpl; [reflexivity |].
  destruct (accepts r) as [[] | e] eqn:Hr.
  - rewrite (write_record_accepted _ _ Hr). simpl. apply IH.
  - now rewrite (write_record_refused _ _ _ Hr).
Qed.

(** A [store_*] method as a function of its batch. *)
Lemma store_batch_first_refusal (error_event : string) (batch table : list R) :
  store error_event batch table =
  match first_refusal accepts batch with
  | None => (Ok (Z.of_nat (length batch)), fold_left ups batch table, [])
  | Some e => (Raise e, table, [error_line error_event e])
  end.
Proof.
  rewrite store_batch_spec, write_records_first_refusal.
  now destruct (first_refusal accepts batch).
Qed.
End SessionFacts.

(** No record is refused exactly when every record is accepted. *)
Lemma first_refusal_None {R : Type} (accepts : R -> result unit) (batch : list R) :
  first_refusal accepts batch = None <-> Forall (fun r => accepts r = Ok tt) batch.
Proof.
  induction batch as [| r batch IH]; simpl; [split; [constructor | reflexivity] |].
  destruct (accepts r) as [[] | e] eqn:Hr.
  - rewrite IH. split; [now constructor | now inversion 1].
  - split; [discriminate |]. inversion 1; congruence.
Qed.

(** A refusal is the verdict on a record of the batch before which every
    record was accepted. *)
Lemma first_refusal_Some {R : Type} (accepts : R -> result unit) (batch : list R) (e : exn) :
  first_refusal accepts batch = Some e <->
  exists before r after,
    batch = before ++ r :: after
    /\ Forall (fun x => accepts x = Ok tt) before
    /\ accepts r = Raise e.
Proof.
  induction batch as [| r batch IH]; simpl.
  - split; [discriminate |]. intros (before & r & after & Hb & _). now destruct before.
  - destruct (accepts r) as [[] | e'] eqn:Hr.
    + rewrite IH. split.
      * intros (before & r' & after & -> & Hall & Hno).
        exists (r :: before), r', after. repeat split; [now constructor | exact Hno].
      * intros (before & r' & after & Hb & Hall & Hno).
        destruct before as [| b before]; simpl in Hb; injection Hb as -> ->; [congruence |].
        inversion Hall; subst. now exists before, r', after.
    + split.
      * intros [= ->]. exists [], r, batch. repeat split; [constructor | exact Hr].
      * intros (before & r' & after & Hb & Hall & Hno).
        destruct before as [| b before]; simpl in Hb; injection Hb as -> ->; [congruence |].
        inversion Hall; subst. congruence.
Qed.

(** ** The three tables *)

Lemma market_same_key (existing incoming : Market) :
  market_key existing = market_key incoming -> market_set_columns existing incoming = incoming.
Proof. destruct existing, incoming. unfold market_key. simpl. now intros [= -> ->]. Qed.

Lemma trade_same_key (existing incoming : Trade) :
  trade_key existing = trade_key incoming -> trade_set_columns existing incoming = incoming.
Proof. destruct existing, incoming. unfold trade_key. simpl. now intros [= -> ->]. Qed.

Lemma snapshot_same_key (existing incoming : PriceSnapshot) :
  snapshot_key existing = snapshot_key incoming ->
  snapshot_set_columns existing incoming = incoming.
Proof. destruct existing, incoming. unfold snapshot_key. simpl. now intros [= -> -> -> ->]. Qed.

(** The key columns of an overwritten row are the ones it had. *)
Lemma trade_set_columns_key (existing incoming : Trade) :
  trade_key (trade_set_columns existing incoming) = trade_key existing.
Proof. reflexivity. Qed.

(** Each [store_*] method as a function of its batch: when no record is
    refused, the count and the table of upserts; otherwise the first
    refusal is raised, the tables are as they were and the error is
    logged. *)
Lemma store_markets_spec (st : PostgresStorage.t) (batch : list Market) :
  PostgresStorage.store_markets batch st =
  match first_refusal (market_accepts (PostgresStorage.engine st)) batch with
  | None =>
      (Ok (Z.of_nat (length batch)),
       {| PostgresStorage.engine := PostgresStorage.engine st;
          PostgresStorage.raw_api_responses := PostgresStorage.raw_api_responses st;
          PostgresStorage.markets :=
            fold_left (spec_upsert market_key market_set_columns) batch
              (PostgresStorage.markets st);
          PostgresStorage.trades := PostgresStorage.trades st;
          PostgresStorage.price_snapshots := PostgresStorage.price_snapshots st;
          PostgresStorage.ingestion_checkpoints := PostgresStorage.ingestion_checkpoints st;
          PostgresStorage.next_uuid := PostgresStorage.next_uuid st;
          PostgresStorage.logged := PostgresStorage.logged st |})
  | Some e =>
      (Raise e,
       {| PostgresStorage.engine := PostgresStorage.engine st;
          PostgresStorage.raw_api_responses := PostgresStorage.raw_api_responses st;
          PostgresStorage.markets := PostgresStorage.markets st;
          PostgresStorage.trades := PostgresStorage.trades st;
          PostgresStorage.price_snapshots := PostgresStorage.price_snapshots st;
          PostgresStorage.ingestion_checkpoints := PostgresStorage.ingestion_checkpoints st;
          PostgresStorage.next_uuid := PostgresStorage.next_uuid st;
          PostgresStorage.logged :=
            PostgresStorage.logged st
            ++ [error_line "storage.postgres.store_markets.error" e] |})
  end.
Proof.
  unfold PostgresStorage.store_markets.
  rewrite (store_batch_first_refusal _ _ _ _ market_same_key).
  destruct (first_refusal _ batch); [reflexivity | now rewrite app_nil_r].
Qed.

Lemma store_trades_spec (st : PostgresStorage.t) (batch : list Trade) :
  PostgresStorage.store_trades batch st =
  match first_refusal (trade_accepts (PostgresStorage.engine st)) batch with
  | None =>
      (Ok (Z.of_nat (length batch)),
       {| PostgresStorage.engine := PostgresStorage.engine st;
          PostgresStorage.raw_api_responses := PostgresStorage.raw_api_responses st;
          PostgresStorage.markets := PostgresStorage.markets st;
          PostgresStorage.trades :=
            fold_left (spec_upsert trade_key trade_set_columns) batch
              (PostgresStorage.trades st);
          PostgresStorage.price_snapshots := PostgresStorage.price_snapshots st;
          PostgresStorage.ingestion_checkpoints := PostgresStorage.ingestion_checkpoints st;
          PostgresStorage.next_uuid := PostgresStorage.next_uuid st;
          PostgresStorage.logged := PostgresStorage.logged st |})
  | Some e =>
      (Raise e,
       {| PostgresStorage.engine := PostgresStorage.engine st;
          PostgresStorage.raw_api_responses := PostgresStorage.raw_api_responses st;
          PostgresStorage.markets := PostgresStorage.markets st;
          PostgresStorage.trades := PostgresStorage.trades st;
          PostgresStorage.price_snapshots := PostgresStorage.price_snapshots st;
          PostgresStorage.ingestion_checkpoints := PostgresStorage.ingestion_checkpoints st;
          PostgresStorage.next_uuid := PostgresStorage.next_uuid st;
          PostgresStorage.logged :=
            PostgresStorage.logged st
            ++ [error_line "storage.postgres.store_trades.error" e] |})
  end.
Proof.
  unfold PostgresStorage.store_trades.
  rewrite (store_batch_first_refusal _ _ _ _ trade_same_key).
  destruct (first_refusal _ batch); [reflexivity | now rewrite app_nil_r].
Qed.

Lemma store_price_snapshots_spec (st : PostgresStorage.t) (batch : list PriceSnapshot) :
  PostgresStorage.store_price_snapshots batch st =
  match first_refusal (snapshot_accepts (PostgresStorage.engine st)) batch with
  | None =>
      (Ok (Z.of_nat (length batch)),
       {| PostgresStorage.engine := PostgresStorage.engine st;
          PostgresStorage.raw_api_responses := PostgresStorage.raw_api_responses st;
          PostgresStorage.markets := PostgresStorage.markets st;
          PostgresStorage.trades := PostgresStorage.trades st;
          PostgresStorage.price_snapshots :=
            fold_left (spec_upsert snapshot_key snapshot_set_columns) batch
              (PostgresStorage.price_snapshots st);
          PostgresStorage.ingestion_checkpoints := PostgresStorage.ingestion_checkpoints st;
          PostgresStorage.next_uuid := PostgresStorage.next_uuid st;
          PostgresStorage.logged := PostgresStorage.logged st |})
  | Some e =>
      (Raise e,
       {| PostgresStorage.engine := PostgresStorage.engine st;
          PostgresStorage.raw_api_responses := PostgresStorage.raw_api_responses st;
          PostgresStorage.markets := PostgresStorage.markets st;
          PostgresStorage.trades := PostgresStorage.trades st;
          PostgresStorage.price_snapshots := PostgresStorage.price_snapshots st;
          PostgresStorage.ingestion_checkpoints := PostgresStorage.ingestion_checkpoints st;
          PostgresStorage.next_uuid := PostgresStorage.next_uuid st;
          PostgresStorage.logged :=
            PostgresStorage.logged st
            ++ [error_line "storage.postgres.store_price_snapshots.error" e] |})
  end.
Proof.
  unfold PostgresStorage.store_price_snapshots.
  rewrite (store_batch_first_refusal _ _ _ _ snapshot_same_key).
  destruct (first_refusal _ batch); [reflexivity | now rewrite app_nil_r].
Qed.

(** [store_trades] on records the database accepts: every record counts,
    the table is the batch of upserts, and nothing else changes. *)
Lemma store_trades_accepted (st : PostgresStorage.t) (batch : list Trade) :
  Forall (fun r => trade_accepts (PostgresStorage.engine st) r = Ok tt) batch ->
  PostgresStorage.store_trades batch st =
  (Ok (Z.of_nat (length batch)),
   {| PostgresStorage.engine := PostgresStorage.engine st;
      PostgresStorage.raw_api_responses := PostgresStorage.raw_api_responses st;
      PostgresStorage.markets := PostgresStorage.markets st;
      PostgresStorage.trades :=
        fold_left (spec_upsert trade_key trade_set_columns) batch (PostgresStorage.trades st);
      PostgresStorage.price_snapshots := PostgresStorage.price_snapshots st;
      PostgresStorage.ingestion_checkpoints := PostgresStorage.ingestion_checkpoints st;
      PostgresStorage.next_uuid := PostgresStorage.next_uuid st;
      PostgresStorage.logged := PostgresStorage.logged st |}).
Proof.
  intros Hall. apply first_refusal_None in Hall.
  now rewrite store_trades_spec, Hall.
Qed.

(** The same for [store_markets] and [store_price_snapshots]. *)
Lemma store_markets_accepted (st : PostgresStorage.t) (batch : list Market) :
  Forall (fun r => market_accepts (PostgresStorage.engine st) r = Ok tt) batch ->
  exists st',
    PostgresStorage.store_markets batch st = (Ok (Z.of_nat (length batch)), st')
    /\ PostgresStorage.engine st' = PostgresStorage.engine st
    /\ PostgresStorage.markets st' =
         fold_left (spec_upsert market_key market_set_columns) batch (PostgresStorage.markets st).
Proof.
  intros Hall. apply first_refusal_None in Hall.
  rewrite store_markets_spec, Hall. eexists. repeat split.
Qed.

Lemma store_price_snapshots_accepted (st : PostgresStorage.t) (batch : list PriceSnapshot) :
  Forall (fun r => snapshot_accepts (PostgresStorage.engine st) r = Ok tt) batch ->
  exists st',
    PostgresStorage.store_price_snapshots batch st = (Ok (Z.of_nat (length batch)), st')
    /\ PostgresStorage.engine st' = PostgresStorage.engine st
    /\ PostgresStorage.price_snapshots st' =
         fold_left (spec_upsert snapshot_key snapshot_set_columns) batch
           (PostgresStorage.price_snapshots st).
Proof.
  intros Hall. apply first_refusal_None in Hall.
  rewrite store_price_snapshots_spec, Hall. eexists. repeat split.
Qed.

(** A trade without a timestamp is refused by every database: by the
    [nullable=False] of the column, if not before for one of its values. *)
Lemma untimed_trade_refused (db : database) (t : Trade) :
  t_timestamp t = None ->
  exists e, trade_accepts db t = Raise e
            /\ (trade_values db t = Ok tt -> is_Some (t_price t) -> is_Some (t_quantity t) ->
                e = IntegrityError "timestamp").
Proof.
  intros Hts. unfold trade_accepts, trade_not_null. rewrite Hts.
  destruct (trade_values db t) as [[] | e]; cbn [rbind].
  - destruct (t_price t) as [p |]; cbn [not_null rbind].
    + destruct (t_quantity t) as [q |]; cbn [not_null rbind].
      * eexists. split; [reflexivity |]. reflexivity.
      * eexists. split; [reflexivity |]. intros _ _ [q Hq]. discriminate.
    + eexists. split; [reflexivity |]. intros _ [p Hp]. discriminate.
  - exists e. split; [reflexivity |]. discriminate.
Qed.

(** C1, as amended. For every batch of trade records the database accepts
    into the trades table (every value can be written to its column and
    every [nullable=False] column has one: in particular each record
    carries a timestamp), [store_trades] returns the number of records in
    the batch and leaves the table as the records' upserts in order: under
    every natural key stands the last record of the batch with that key
    (its key columns are those of the row found there, its other columns
    the record's), rows under keys the batch does not mention are
    untouched, and every key of the batch has exactly one row. In
    particular, storing two accepted records with the same
    [(trade_id, source)] one after the other returns 1 each time and leaves
    exactly one row for the key, with the second record's columns. *)
Theorem store_trades_upserts :
  (forall (st : PostgresStorage.t) (batch : list Trade),
      Forall (fun r => trade_accepts (PostgresStorage.engine st) r = Ok tt) batch ->
      NoDup (map trade_key (PostgresStorage.trades st)) ->
      exists st',
        PostgresStorage.store_trades batch st = (Ok (Z.of_nat (length batch)), st')
        /\ PostgresStorage.trades st' =
             fold_left (spec_upsert trade_key trade_set_columns) batch (PostgresStorage.trades st)
        /\ (forall k, lookup_row trade_key k (PostgresStorage.trades st') =
                      match lookup_row trade_key k (rev batch) with
                      | Some r => Some r
                      | None => lookup_row trade_key k (PostgresStorage.trades st)
                      end)
        /\ NoDup (map trade_key (PostgresStorage.trades st'))
        /\ (forall r, r ∈ batch ->
                      rows_with_key trade_key (trade_key r) (PostgresStorage.trades st') = 1%nat))
  /\ (forall (st : PostgresStorage.t) (first second : Trade),
        trade_accepts (PostgresStorage.engine st) first = Ok tt ->
        trade_accepts (PostgresStorage.engine st) second = Ok tt ->
        trade_key first = trade_key second ->
        NoDup (map trade_key (PostgresStorage.trades st)) ->
        exists st1 st2 row,
          PostgresStorage.store_trades [first] st = (Ok 1, st1)
          /\ PostgresStorage.store_trades [second] st1 = (Ok 1, st2)
          /\ rows_with_key trade_key (trade_key second) (PostgresStorage.trades st2) = 1%nat
          /\ lookup_row trade_key (trade_key second) (PostgresStorage.trades st2) = Some row
          /\ trade_set_columns row second = row).
Proof.
  assert (Hgeneral : forall (st : PostgresStorage.t) (batch : list Trade),
    Forall (fun r => trade_accepts (PostgresStorage.engine st) r = Ok tt) batch ->
    NoDup (map trade_key (PostgresStorage.trades st)) ->
    exists st',
      PostgresStorage.store_trades batch st = (Ok (Z.of_nat (length batch)), st')
      /\ PostgresStorage.engine st' = PostgresStorage.engine st
      /\ PostgresStorage.trades st' =
           fold_left (spec_upsert trade_key trade_set_columns) batch (PostgresStorage.trades st)
      /\ (forall k, lookup_row trade_key k (PostgresStorage.trades st') =
                    match lookup_row trade_key k (rev batch) with
                    | Some r => Some r
                    | None => lookup_row trade_key k (PostgresStorage.trades st)
                    end)
      /\ NoDup (map trade_key (PostgresStorage.trades st'))
      /\ (forall r, r ∈ batch ->
                    rows_with_key trade_key (trade_key r) (PostgresStorage.trades st') = 1%nat)).
  { intros st batch Hall Hnd. eexists. split; [now apply store_trades_accepted |]. simpl.
    split; [reflexivity |]. split; [reflexivity |].
    split; [intros k; now apply fold_upsert_lookup, trade_same_key |].
    assert (Hnd' : NoDup (map trade_key
                     (fold_left (spec_upsert trade_key trade_set_columns) batch
                        (PostgresStorage.trades st))))
      by (apply fold_upsert_NoDup; auto using trade_same_key).
    split; [exact Hnd' |].
    intros r Hr. rewrite rows_with_key_count. apply count_NoDup; [exact Hnd' |].
    apply list_elem_of_In, in_map_iff.
    pose proof (fold_upsert_lookup trade_key trade_set_columns trade_same_key batch
                  (trade_key r) (PostgresStorage.trades st)) as Hl.
    assert (Hlast : exists r', lookup_row trade_key (trade_key r) (rev batch) = Some r').
    { destruct (lookup_row trade_key (trade_key r) (rev batch)) as [r' |] eqn:Hnone; [eauto |].
      apply lookup_row_None in Hnone. exfalso. apply Hnone.
      apply list_elem_of_In, in_map, in_rev. rewrite rev_involutive.
      now apply list_elem_of_In. }
    destruct Hlast as (r' & Hlast). rewrite Hlast in Hl.
    apply lookup_row_Some in Hl as [Hk Hin]. exists r'. split; [exact Hk |].
    now apply list_elem_of_In. }
  split.
  { intros st batch Hall Hnd.
    destruct (Hgeneral st batch Hall Hnd) as (st' & Hs & _ & Hrest). now exists st'. }
  intros st first second Hfirst Hsecond Hkey Hnd.
  destruct (Hgeneral st [first]) as (st1 & Hs1 & He1 & _ & _ & Hnd1 & _);
    [now constructor | assumption |].
  destruct (Hgeneral st1 [second]) as (st2 & Hs2 & _ & _ & Hlook & _ & Hone);
    [rewrite He1; now constructor | assumption |].
  exists st1, st2, second. repeat split; try assumption.
  - apply Hone. apply list_elem_of_singleton. reflexivity.
  - rewrite Hlook. simpl. unfold lookup_row. simpl. now rewrite bool_decide_eq_true_2.
  - now apply trade_same_key.
Qed.

(** C1 at a concrete input: the same trade stored twice, the second time
    with another price. *)
Lemma store_trades_upserts_example :
  exists st1 st2 row,
    PostgresStorage.store_trades [example_trade "trade-456" 0.65] PostgresStorage.empty
    = (Ok 1, st1)
    /\ PostgresStorage.store_trades [example_trade "trade-456" 0.7] st1 = (Ok 1, st2)
    /\ rows_with_key trade_key (trade_key (example_trade "trade-456" 0.7))
         (PostgresStorage.trades st2) = 1%nat
    /\ lookup_row trade_key (trade_key (example_trade "trade-456" 0.7))
         (PostgresStorage.trades st2) = Some row
    /\ trade_set_columns row (example_trade "trade-456" 0.7) = row.
Proof.
  apply (proj2 store_trades_upserts);
    [reflexivity | reflexivity | reflexivity | apply NoDup_nil_2].
Defined.

(** C1 fails as stated: the trade normalized from a payload without a
    timestamp is a normalized trade record, and [store_trades] refuses it
    whatever the database and the table hold (the [timestamp] column is
    declared [nullable=False]): the call raises, returns no count and
    leaves every table as it was. A database that can write the record's
    values raises [IntegrityError] for that column. *)
Lemma store_trades_refuses_missing_timestamp :
  exists t,
    normalize_trade_from_raw example_runtime untimed_trade_payload "polymarket" = Ok t
    /\ t_timestamp t = None
    /\ (forall st, exists e st',
           PostgresStorage.store_trades [t] st = (Raise e, st')
           /\ same_tables st st'
           /\ (trade_values (PostgresStorage.engine st) t = Ok tt ->
               e = IntegrityError "timestamp"))
    /\ fst (PostgresStorage.store_trades [t] PostgresStorage.empty)
       = Raise (IntegrityError "timestamp").
Proof.
  eexists.
  split; [vm_compute; reflexivity |].
  split; [reflexivity |].
  split; [| vm_compute; reflexivity].
  intros st.
  match goal with
  | |- context [PostgresStorage.store_trades [?t] st] =>
      destruct (untimed_trade_refused (PostgresStorage.engine st) t eq_refl) as (e & He & Hwhy)
  end.
  exists e. rewrite store_trades_spec. cbn [first_refusal]. rewrite He.
  eexists. split; [reflexivity |].
  split; [unfold same_tables; simpl; tauto |].
  intros Hvalues. apply Hwhy; [exact Hvalues | |]; eexists; reflexivity.
Qed.

(** C2. Every [store_markets], [store_trades] and [store_price_snapshots]
    call is all or nothing, and which of the two is decided by the batch:
    if the database accepts every record, the call returns the number of
    records and leaves in its table every record's upsert, in order; if it
    refuses one, the error of the first refused record is raised to the
    caller, the error line is logged, and every table is as it was before
    the call, the upserts of the records before the refused one included.
    No call touches another table. *)
Theorem batch_is_one_transaction (st : PostgresStorage.t) :
  (forall batch,
      match first_refusal (market_accepts (PostgresStorage.engine st)) batch with
      | None =>
          exists st',
            PostgresStorage.store_markets batch st = (Ok (Z.of_nat (length batch)), st')
            /\ PostgresStorage.markets st' =
                 fold_left (spec_upsert market_key market_set_columns) batch
                   (PostgresStorage.markets st)
            /\ PostgresStorage.trades st' = PostgresStorage.trades st
            /\ PostgresStorage.price_snapshots st' = PostgresStorage.price_snapshots st
            /\ PostgresStorage.raw_api_responses st' = PostgresStorage.raw_api_responses st
            /\ PostgresStorage.ingestion_checkpoints st'
               = PostgresStorage.ingestion_checkpoints st
            /\ PostgresStorage.logged st' = PostgresStorage.logged st
      | Some e =>
          exists st',
            PostgresStorage.store_markets batch st = (Raise e, st')
            /\ same_tables st st'
            /\ PostgresStorage.logged st' =
                 PostgresStorage.logged st
                 ++ [error_line "storage.postgres.store_markets.error" e]
      end)
  /\ (forall batch,
        match first_refusal (trade_accepts (PostgresStorage.engine st)) batch with
        | None =>
            exists st',
              PostgresStorage.store_trades batch st = (Ok (Z.of_nat (length batch)), st')
              /\ PostgresStorage.trades st' =
                   fold_left (spec_upsert trade_key trade_set_columns) batch
                     (PostgresStorage.trades st)
              /\ PostgresStorage.markets st' = PostgresStorage.markets st
              /\ PostgresStorage.price_snapshots st' = PostgresStorage.price_snapshots st
              /\ PostgresStorage.raw_api_responses st' = PostgresStorage.raw_api_responses st
              /\ PostgresStorage.ingestion_checkpoints st'
                 = PostgresStorage.ingestion_checkpoints st
              /\ PostgresStorage.logged st' = PostgresStorage.logged st
        | Some e =>
            exists st',
              PostgresStorage.store_trades batch st = (Raise e, st')
              /\ same_tables st st'
              /\ PostgresStorage.logged st' =
                   PostgresStorage.logged st
                   ++ [error_line "storage.postgres.store_trades.error" e]
        end)
  /\ (forall batch,
        match first_refusal (snapshot_accepts (PostgresStorage.engine st)) batch with
        | None =>
            exists st',
              PostgresStorage.store_price_snapshots batch st
              = (Ok (Z.of_nat (length batch)), st')
              /\ PostgresStorage.price_snapshots st' =
                   fold_left (spec_upsert snapshot_key snapshot_set_columns) batch
                     (PostgresStorage.price_snapshots st)
              /\ PostgresStorage.markets st' = PostgresStorage.markets st
              /\ PostgresStorage.trades st' = PostgresStorage.trades st
              /\ PostgresStorage.raw_api_responses st' = PostgresStorage.raw_api_responses st
              /\ PostgresStorage.ingestion_checkpoints st'
                 = PostgresStorage.ingestion_checkpoints st
              /\ PostgresStorage.logged st' = PostgresStorage.logged st
        | Some e =>
            exists st',
              PostgresStorage.store_price_snapshots batch st = (Raise e, st')
              /\ same_tables st st'
              /\ PostgresStorage.logged st' =
                   PostgresStorage.logged st
                   ++ [error_line "storage.postgres.store_price_snapshots.error" e]
        end)
  /\ (forall (R : Type) (accepts : R -> result unit) (batch : list R),
        (first_refusal accepts batch = None <-> Forall (fun r => accepts r = Ok tt) batch)
        /\ (forall e, first_refusal accepts batch = Some e <->
                      exists before r after,
                        batch = before ++ r :: after
                        /\ Forall (fun x => accepts x = Ok tt) before
                        /\ accepts r = Raise e)).
Proof.
  split; [| split; [| split]].
  - intros batch. rewrite store_markets_spec.
    destruct (first_refusal _ batch); eexists; (split; [reflexivity |]);
      unfold same_tables; simpl; tauto.
  - intros batch. rewrite store_trades_spec.
    destruct (first_refusal _ batch); eexists; (split; [reflexivity |]);
      unfold same_tables; simpl; tauto.
  - intros batch. rewrite store_price_snapshots_spec.
    destruct (first_refusal _ batch); eexists; (split; [reflexivity |]);
      unfold same_tables; simpl; tauto.
  - intros R accepts batch. split; [apply first_refusal_None |].
    intros e. apply first_refusal_Some.
Qed.

(** A batch whose second record is refused: the first record had already
    been written inside the transaction, and is not there afterwards. *)
Example refused_batch_leaves_nothing :
  exists untimed st',
    normalize_trade_from_raw example_runtime untimed_trade_payload "polymarket" = Ok untimed
    /\ PostgresStorage.store_trades
         [example_trade "trade-1" 0.65; untimed; example_trade "trade-3" 0.7]
         PostgresStorage.empty
       = (Raise (IntegrityError "timestamp"), st')
    /\ PostgresStorage.trades st' = [].
Proof.
  eexists. eexists.
  split; [vm_compute; reflexivity |].
  split; [vm_compute; reflexivity | reflexivity].
Qed.

(** * Properties of the ingestion engine *)

(** Running the engine's monadic code symbolically. *)
Ltac run :=
  repeat (progress (try unfold bind; try unfold ret; try unfold raise;
                    try unfold on_adapter; try unfold on_storage;
                    try unfold try_except; try unfold log_duration;
                    try unfold logger; try unfold metrics_increment;
                    try unfold with_obs; simpl)).

(** The order on datetimes is a strict order. *)
Lemma dt_ltb_irrefl (a : datetime) : dt_ltb a a = false.
Proof.
  unfold dt_ltb, dt_tuple. simpl.
  rewrite !Z.ltb_irrefl, !Z.eqb_refl. reflexivity.
Qed.

Lemma dt_ltb_trans (a b c : datetime) :
  dt_ltb a b = true -> dt_ltb b c = true -> dt_ltb a c = true.
Proof.
  unfold dt_ltb, dt_tuple. simpl.
  rewrite !andb_false_r, !orb_false_r.
  repeat rewrite ?orb_true_iff, ?andb_true_iff, ?Z.ltb_lt, ?Z.eqb_eq.
  intros Hab Hbc.
  destruct (Z.lt_trichotomy (ordinal a) (ordinal c)) as [? | [? | ?]]; [lia | | lia].
  destruct (Z.lt_trichotomy (hour a) (hour c)) as [? | [? | ?]]; [lia | | lia].
  destruct (Z.lt_trichotomy (minute a) (minute c)) as [? | [? | ?]]; [lia | | lia].
  destruct (Z.lt_trichotomy (second a) (second c)) as [? | [? | ?]]; [lia | | lia].
  right. split; [assumption |]. right. split; [assumption |].
  right. split; [assumption |]. right. split; [assumption |]. lia.
Qed.

(** [max] returns an item of the sequence that no item exceeds. *)
Lemma py_max_spec (d : datetime) (l : list datetime) :
  exists m, py_max (d :: l) = Ok m
            /\ m ∈ d :: l
            /\ (forall x, x ∈ d :: l -> dt_ltb m x = false).
Proof.
  unfold py_max. eexists. split; [reflexivity |].
  assert (Hinv : forall l seen best,
             best ∈ seen -> (forall x, x ∈ seen -> dt_ltb best x = false) ->
             let m := fold_left (fun best item => if dt_ltb best item then item else best)
                        l best in
             m ∈ seen ++ l /\ (forall x, x ∈ seen ++ l -> dt_ltb m x = false)).
  { clear. induction l as [| item l IH]; intros seen best Hin Hmax; simpl.
    - rewrite app_nil_r. auto.
    - replace (seen ++ item :: l) with ((seen ++ [item]) ++ l) by now rewrite <- app_assoc.
      apply IH.
      + destruct (dt_ltb best item); apply elem_of_app; [right | left; assumption].
        now apply list_elem_of_singleton.
      + intros x Hx. apply elem_of_app in Hx as [Hx | Hx].
        * destruct (dt_ltb best item) eqn:Hlt; [| now apply Hmax].
          destruct (dt_ltb item x) eqn:Hix; [| reflexivity].
          rewrite <- (Hmax x Hx). symmetry. now apply (dt_ltb_trans best item x).
        * apply list_elem_of_singleton in Hx as ->.
          destruct (dt_ltb best item) eqn:Hlt; [apply dt_ltb_irrefl | assumption]. }
  apply (Hinv l [d] d).
  - now apply list_elem_of_singleton.
  - intros x Hx. apply list_elem_of_singleton in Hx as ->. apply dt_ltb_irrefl.
Qed.

Section EngineFacts.
Context {S A : Type} `{StorageBackend S} `{MarketAdapter A}.

(** The checkpoint step on a non-empty batch: with at least one timestamp
    the checkpoint of the data type is set to the largest of them; with
    none, [max()] raises and nothing is written. *)
Lemma advance_checkpoint_spec (data_type : string) (timestamps : list (option datetime))
    (w : world S A) :
  timestamps <> [] ->
  match omap id timestamps with
  | [] => advance_checkpoint data_type timestamps w = (Raise ValueError, w)
  | d :: ds =>
      exists m,
        m ∈ d :: ds
        /\ (forall x, x ∈ d :: ds -> dt_ltb m x = false)
        /\ advance_checkpoint data_type timestamps w
           = on_storage (UpdateCheckpoint source_name data_type m)
               (update_checkpoint source_name data_type m) w
  end.
Proof.
  intros Hne. unfold advance_checkpoint.
  destruct timestamps as [| t ts]; [congruence |].
  destruct (omap id (t :: ts)) as [| d ds] eqn:Hpresent.
  - reflexivity.
  - destruct (py_max_spec d ds) as (m & Hmax & Hin & Hle).
    exists m. split; [exact Hin |]. split; [exact Hle |].
    unfold bind. rewrite Hmax. reflexivity.
Qed.

(** C6 for markets. *)
Lemma ingest_markets_empty (fuel : nat) (limit : option Z) (cursor : option string)
    (flag : bool) (w : world S A) (p : page) (ad' : A) :
  fetch_markets limit cursor (w_adapter w) = (Ok p, ad') ->
  data p = [] ->
  exists w',
    ingest_markets (Datatypes.S fuel) limit cursor flag w = (Ok 0, w')
    /\ w_storage w' = w_storage w
    /\ w_calls w' = w_calls w ++ [FetchMarkets limit cursor].
Proof.
  intros Hfetch Hdata.
  unfold ingest_markets, log_duration, try_except, bind, on_adapter. simpl.
  rewrite Hfetch, Hdata. simpl. eexists. repeat split.
Qed.

(** C6 for trades called with an explicit [since]. *)
Lemma ingest_trades_empty (fuel : nat) (market_id : option string) (since : datetime)
    (limit : option Z) (cursor : option string) (flag : bool) (w : world S A)
    (p : page) (ad' : A) :
  fetch_trades market_id (Some since) limit cursor (w_adapter w) = (Ok p, ad') ->
  data p = [] ->
  exists w',
    ingest_trades (Datatypes.S fuel) market_id (Some since) limit cursor flag w = (Ok 0, w')
    /\ w_storage w' = w_storage w
    /\ w_calls w' = w_calls w ++ [FetchTrades market_id (Some since) limit cursor].
Proof.
  intros Hfetch Hdata.
  unfold ingest_trades, log_duration, try_except, bind, on_adapter. simpl.
  rewrite Hfetch, Hdata. simpl. eexists. repeat split.
Qed.

(** C6 for trades called without [since]: the checkpoint is read before
    the fetch, and nothing follows the fetch. *)
Lemma ingest_trades_empty_from_checkpoint (fuel : nat) (market_id : option string)
    (limit : option Z) (cursor : option string) (flag : bool) (w : world S A)
    (checkpoint : option datetime) (st1 : S) (p : page) (ad' : A) :
  get_latest_checkpoint source_name "trades" (w_storage w) = (Ok checkpoint, st1) ->
  fetch_trades market_id checkpoint limit cursor (w_adapter w) = (Ok p, ad') ->
  data p = [] ->
  exists w',
    ingest_trades (Datatypes.S fuel) market_id None limit cursor flag w = (Ok 0, w')
    /\ w_storage w' = st1
    /\ w_calls w' = w_calls w ++ [GetLatestCheckpoint source_name "trades";
                                   FetchTrades market_id checkpoint limit cursor].
Proof.
  intros Hcheck Hfetch Hdata.
  unfold ingest_trades, log_duration, try_except, bind, on_adapter, on_storage, source. simpl.
  rewrite Hcheck.
  destruct checkpoint as [c |]; simpl; rewrite Hfetch, Hdata; simpl;
    eexists; repeat split; simpl; now rewrite <- app_assoc.
Qed.

(** C6 for price snapshots. *)
Lemma ingest_price_snapshots_empty (market_id : option string) (since : option datetime)
    (flag : bool) (w : world S A) (p : page) (ad' : A) :
  fetch_price_snapshots market_id since (w_adapter w) = (Ok p, ad') ->
  data p = [] ->
  exists w',
    ingest_price_snapshots market_id since flag w = (Ok 0, w')
    /\ w_storage w' = w_storage w
    /\ w_calls w' = w_calls w ++ [FetchPriceSnapshots market_id since].
Proof.
  intros Hfetch Hdata.
  unfold ingest_price_snapshots, log_duration, try_except, bind, on_adapter. simpl.
  rewrite Hfetch, Hdata. simpl. eexists. repeat split.
Qed.

(** A one-record trades page whose record normalizes without a timestamp:
    the batch goes to storage, then [max()] over no timestamps raises. *)
Lemma ingest_trades_untimed (fuel : nat) (market_id : option string) (since : datetime)
    (limit : option Z) (cursor : option string) (w : world S A)
    (p : page) (ad1 ad2 : A) (raw : raw_dict) (t : Trade) (r : result Z) (st' : S) :
  fetch_trades market_id (Some since) limit cursor (w_adapter w) = (Ok p, ad1) ->
  data p = [raw] ->
  normalize_trade raw ad1 = (Ok t, ad2) ->
  t_timestamp t = None ->
  store_trades [t] (w_storage w) = (r, st') ->
  exists w',
    ingest_trades (Datatypes.S fuel) market_id (Some since) limit cursor false w
    = (Raise (match r with Ok _ => ValueError | Raise e => e end), w')
    /\ w_storage w' = st'
    /\ w_calls w' = w_calls w ++ [FetchTrades market_id (Some since) limit cursor;
                                   NormalizeTrade raw; StoreTrades [t]].
Proof.
  intros Hfetch Hdata Hnorm Htime Hstore.
  unfold ingest_trades. run.
  rewrite Hfetch, Hdata. run. rewrite Hnorm. run. rewrite Hstore.
  unfold advance_checkpoint. run. rewrite Htime. run.
  destruct r; run; eexists; repeat split; simpl; now rewrite <- !app_assoc.
Qed.
End EngineFacts.

(** C6. For every storage backend and market adapter: when the fetched
    page's data list is empty, each ingestion operation returns 0; the
    storage state is the one it had at the fetch, and the fetch is the last
    contract call made, so there is no raw-archive write, no record store
    and no checkpoint read or update after it. (For trades called without
    [since], the one checkpoint read precedes the fetch.) *)
Theorem empty_page_short_circuits (S A : Type) (B : StorageBackend S) (Ad : MarketAdapter A)
    (w : world S A) (p : page) (ad' : A) (fuel : nat) (market_id : option string)
    (limit : option Z) (cursor : option string) (flag : bool) :
  data p = [] ->
  (fetch_markets limit cursor (w_adapter w) = (Ok p, ad') ->
   exists w',
     ingest_markets (Datatypes.S fuel) limit cursor flag w = (Ok 0, w')
     /\ w_storage w' = w_storage w
     /\ w_calls w' = w_calls w ++ [FetchMarkets limit cursor])
  /\ (forall since,
        fetch_trades market_id (Some since) limit cursor (w_adapter w) = (Ok p, ad') ->
        exists w',
          ingest_trades (Datatypes.S fuel) market_id (Some since) limit cursor flag w = (Ok 0, w')
          /\ w_storage w' = w_storage w
          /\ w_calls w' = w_calls w ++ [FetchTrades market_id (Some since) limit cursor])
  /\ (forall checkpoint st1,
        get_latest_checkpoint source_name "trades" (w_storage w) = (Ok checkpoint, st1) ->
        fetch_trades market_id checkpoint limit cursor (w_adapter w) = (Ok p, ad') ->
        exists w',
          ingest_trades (Datatypes.S fuel) market_id None limit cursor flag w = (Ok 0, w')
          /\ w_storage w' = st1
          /\ w_calls w' = w_calls w ++ [GetLatestCheckpoint source_name "trades";
                                         FetchTrades market_id checkpoint limit cursor])
  /\ (forall since,
        fetch_price_snapshots market_id since (w_adapter w) = (Ok p, ad') ->
        exists w',
          ingest_price_snapshots market_id since flag w = (Ok 0, w')
          /\ w_storage w' = w_storage w
          /\ w_calls w' = w_calls w ++ [FetchPriceSnapshots market_id since]).
Proof.
  intros Hdata. repeat split.
  - intros Hfetch. eapply ingest_markets_empty; eassumption.
  - intros since Hfetch. eapply ingest_trades_empty; eassumption.
  - intros checkpoint st1 Hcheck Hfetch.
    eapply ingest_trades_empty_from_checkpoint; eassumption.
  - intros since Hfetch. eapply ingest_price_snapshots_empty; eassumption.
Qed.

(** C6 at the relational backend and an adapter whose client returns an
    empty structure. *)
Lemma empty_page_short_circuits_example :
  exists w',
    @ingest_markets _ _ postgres_backend (polymarket_adapter example_runtime)
      1 None None true (example_world (one_page [])) = (Ok 0, w')
    /\ w_storage w' = PostgresStorage.empty
    /\ w_calls w' = [FetchMarkets None None].
Proof.
  apply (proj1 (empty_page_short_circuits _ _ postgres_backend
                  (polymarket_adapter example_runtime) (example_world (one_page []))
                  {| data := []; nextCursor := None |}
                  {| replies := []; now := datetime_of 2024 1 15 10 30 0 |}
                  0%nat None None None true eq_refl)).
  reflexivity.
Defined.

(** C3. The engine guards the checkpoint update with [if latest_timestamp],
    but computes [latest_timestamp] as [max(...)] over the records that
    have a timestamp, and [max] of an empty sequence raises [ValueError].
    On a trades page whose only record has no timestamp the operation
    therefore raises, whatever the storage backend does: if the backend
    stored the batch, the exception is that [ValueError], raised after the
    records were stored; no checkpoint update is made. *)
Theorem untimed_page_raises (S : Type) (B : StorageBackend S) (rt : runtime) (st : S)
    (since : datetime) :
  let w := {| w_storage := st; w_adapter := one_page [untimed_trade_payload];
              w_obs := obs_empty; w_calls := [] |} in
  exists t e w',
    normalize_trade_from_raw rt untimed_trade_payload "polymarket" = Ok t
    /\ t_timestamp t = None
    /\ @ingest_trades _ _ B (polymarket_adapter rt) 1 None (Some since) None None false w
       = (Raise e, w')
    /\ List.filter is_checkpoint_update (w_calls w') = []
    /\ (forall n st', store_trades [t] st = (Ok n, st') ->
                      e = ValueError /\ w_storage w' = st'
                      /\ w_calls w' = [FetchTrades None (Some since) None None;
                                       NormalizeTrade untimed_trade_payload;
                                       StoreTrades [t]]).
Proof.
  intros w.
  set (t0 := {| t_trade_id := "trade-456"; t_source := "polymarket";
                t_market_id := "market-123"; t_outcome_id := "YES";
                t_price := Some 0.65%float; t_quantity := Some 100%float;
                t_timestamp := None; t_side := VStr "buy";
                t_taker_address := VNone; t_maker_address := VNone;
                t_transaction_hash := VNone; t_raw_data := untimed_trade_payload |}).
  assert (Hn : normalize_trade_from_raw rt untimed_trade_payload "polymarket" = Ok t0)
    by (vm_compute; reflexivity).
  exists t0.
  destruct (store_trades [t0] st) as [r st'] eqn:Hstore.
  destruct (@ingest_trades_untimed _ _ B (polymarket_adapter rt) 0%nat None since None None w
              {| data := [untimed_trade_payload]; nextCursor := None |}
              {| replies := []; now := datetime_of 2024 1 15 10 30 0 |}
              {| replies := []; now := datetime_of 2024 1 15 10 30 0 |}
              untimed_trade_payload t0 r st')
    as (w' & Hw & Hst & Hcalls);
    [reflexivity | reflexivity | simpl; now rewrite Hn | reflexivity | exact Hstore |].
  exists (match r with Ok _ => ValueError | Raise e => e end), w'.
  split; [exact Hn |]. split; [reflexivity |]. split; [exact Hw |].
  split; [rewrite Hcalls; reflexivity |].
  intros n st0 [= -> ->]. auto.
Qed.

(** * Properties of the HTTP client *)

Lemma emit_counters (l : level) (ev : string) (fs : list (string * field)) (o : Obs) :
  counters (emit l ev fs o) = counters o.
Proof. now destruct l. Qed.

Lemma get_counter_emit (metric : string) (tg : tags) (l : level) (ev : string)
    (fs : list (string * field)) (o : Obs) :
  get_counter metric tg (emit l ev fs o) = get_counter metric tg o.
Proof. unfold get_counter. now rewrite emit_counters. Qed.

Lemma get_counter_increment (metric : string) (tg : tags) (v : Z) (o : Obs) :
  get_counter metric tg (increment metric v tg o) = get_counter metric tg o + v.
Proof.
  unfold get_counter, increment. rewrite emit_counters. simpl.
  now rewrite lookup_insert_eq.
Qed.

Lemma get_counter_increment_other (metric metric' : string) (tg tg' : tags) (v : Z) (o : Obs) :
  _format_key metric' tg' <> _format_key metric tg ->
  get_counter metric tg (increment metric' v tg' o) = get_counter metric tg o.
Proof.
  intros Hne. unfold get_counter, increment. rewrite emit_counters. simpl.
  now rewrite lookup_insert_ne.
Qed.

Lemma get_counter_gauge (metric m : string) (tg tg' : tags) (o : Obs) :
  get_counter metric tg (gauge m tg' o) = get_counter metric tg o.
Proof. unfold gauge. now rewrite get_counter_emit. Qed.

Lemma log_emit (l : level) (ev : string) (fs : list (string * field)) (o : Obs)
    (entry : log_entry) :
  entry ∈ log o -> entry ∈ log (emit l ev fs o).
Proof. destruct l; simpl; auto; intros Hin; apply elem_of_app; auto. Qed.

Lemma log_increment (metric : string) (v : Z) (tg : tags) (o : Obs) (entry : log_entry) :
  entry ∈ log o -> entry ∈ log (increment metric v tg o).
Proof. intros Hin. unfold increment. now apply log_emit. Qed.

Module ClientFacts.
Import PolymarketClient.

(** One attempt consumes one reply of the transport and yields
    [attempt_result] of it. *)
Lemma request_once_result (method url : string) (c : t) :
  fst (request_once method url c) = attempt_result (transport c (requests_made c))
  /\ requests_made (snd (request_once method url c)) = Datatypes.S (requests_made c)
  /\ transport (snd (request_once method url c)) = transport c.
Proof.
  unfold request_once, log_duration, try_except, bind, client_request, raise_for_status,
    with_obs, attempt_result. simpl.
  destruct (transport c (requests_made c)) as [status text json | e]; simpl.
  - destruct ((200 <=? status) && (status <? 300)); simpl; [| auto].
    destruct json as [v | e]; simpl; [auto |]. destruct e; simpl; auto.
  - destruct e; simpl; auto.
Qed.

Ltac split_ands := repeat match goal with |- _ /\ _ => split end.

(** Unfolding one attempt without unfolding the metrics registry. *)
Ltac unfold_attempt :=
  unfold request_once, log_duration, try_except, bind, client_request, raise_for_status,
    with_obs, ret, raise;
  cbn beta iota zeta delta [fst snd obs set_obs transport requests_made].

(** A non-success status increments the error counter tagged with it and
    logs the status with the first 500 characters of the body. *)
Lemma request_once_status (method url : string) (c : t) (status : Z) (text : string)
    (json : result value) :
  transport c (requests_made c) = Response status text json ->
  (200 <=? status) && (status <? 300) = false ->
  get_counter "api.requests.error" [("status", Some (pretty status))]
    (obs (snd (request_once method url c)))
  = get_counter "api.requests.error" [("status", Some (pretty status))] (obs c) + 1
  /\ status_line status text ∈ log (obs (snd (request_once method url c))).
Proof.
  intros Hreply Hstatus. unfold_attempt.
  rewrite Hreply, Hstatus. unfold_attempt. split.
  - rewrite get_counter_increment_other by (simpl; discriminate).
    rewrite !get_counter_emit, get_counter_increment, get_counter_emit. reflexivity.
  - apply log_increment, log_emit. simpl.
    apply elem_of_app. right. apply list_elem_of_singleton. reflexivity.
Qed.

(** An attempt that ends in a retried exception leaves the status-tagged
    counters and the log lines as they were. *)
Lemma request_once_retried (method url : string) (c : t) (e : exn) :
  attempt_result (transport c (requests_made c)) = Raise e ->
  retry_if e = true ->
  (forall status : Z,
      get_counter "api.requests.error" [("status", Some (pretty status))]
        (obs (snd (request_once method url c)))
      = get_counter "api.requests.error" [("status", Some (pretty status))] (obs c))
  /\ (forall entry, entry ∈ log (obs c) -> entry ∈ log (obs (snd (request_once method url c)))).
Proof.
  intros Hres Hretry. unfold_attempt.
  unfold attempt_result in Hres.
  destruct (transport c (requests_made c)) as [status text json | e'].
  - destruct ((200 <=? status) && (status <? 300)); [| injection Hres as <-; discriminate].
    subst json. destruct e; try discriminate; unfold_attempt; split.
    all: try (intros status';
              rewrite get_counter_increment_other by (simpl; discriminate);
              rewrite get_counter_emit;
              rewrite get_counter_increment_other by (simpl; discriminate);
              rewrite get_counter_increment_other by (simpl; discriminate);
              now rewrite get_counter_emit).
    all: intros entry Hin; now repeat (first [apply log_increment | apply log_emit]).
  - injection Hres as ->. destruct e; try discriminate; unfold_attempt; split.
    all: try (intros status';
              rewrite get_counter_increment_other by (simpl; discriminate);
              rewrite get_counter_emit;
              rewrite get_counter_increment_other by (simpl; discriminate);
              now rewrite get_counter_emit).
    all: intros entry Hin; now repeat (first [apply log_increment | apply log_emit]).
Qed.

(** The retry loop: how many attempts it makes, which ones are followed by
    another, what it returns, and what a final non-success status leaves
    in the metrics and the log. *)
Lemma retrying_spec (further : nat) (method url : string) :
  forall c : t,
  exists made : nat,
    (1 <= made <= Datatypes.S further)%nat
    /\ requests_made (snd (retrying further method url c)) = (requests_made c + made)%nat
    /\ transport (snd (retrying further method url c)) = transport c
    /\ (forall i, (Datatypes.S i < made)%nat ->
                  exists e, attempt_result (transport c (requests_made c + i)%nat) = Raise e
                            /\ retry_if e = true)
    /\ fst (retrying further method url c)
       = match attempt_result (transport c (requests_made c + made - 1)%nat) with
         | Ok v => Ok v
         | Raise e => if retry_if e then Raise (RetryError e) else Raise e
         end
    /\ (forall e, attempt_result (transport c (requests_made c + made - 1)%nat) = Raise e ->
                  retry_if e = true -> made = Datatypes.S further)
    /\ (forall status text json,
          transport c (requests_made c + made - 1)%nat = Response status text json ->
          (200 <=? status) && (status <? 300) = false ->
          get_counter "api.requests.error" [("status", Some (pretty status))]
            (obs (snd (retrying further method url c)))
          = get_counter "api.requests.error" [("status", Some (pretty status))] (obs c) + 1
          /\ status_line status text ∈ log (obs (snd (retrying further method url c)))).
Proof.
  induction further as [| further IH]; intros c;
    pose proof (request_once_result method url c) as (Hres & Hmade & Htr);
    pose proof (request_once_status method url c) as Hstatus;
    pose proof (request_once_retried method url c) as Hkeep;
    simpl retrying;
    destruct (request_once method url c) as [r1 c1]; simpl in Hres, Hmade, Htr, Hstatus, Hkeep;
    subst r1.
  - (* the last attempt allowed *)
    exists 1%nat.
    replace (requests_made c + 1 - 1)%nat with (requests_made c) by lia.
    destruct (attempt_result (transport c (requests_made c))) as [v | e] eqn:Hr; simpl;
      [| destruct (retry_if e) eqn:He; simpl];
      split_ands; try lia; try assumption; try reflexivity; try congruence;
      intros i Hi; lia.
  - destruct (attempt_result (transport c (requests_made c))) as [v | e] eqn:Hr; simpl;
      [| destruct (retry_if e) eqn:He; simpl].
    + exists 1%nat. replace (requests_made c + 1 - 1)%nat with (requests_made c) by lia.
      rewrite Hr.
      split_ands; try lia; try assumption; try reflexivity; try congruence;
        intros i Hi; lia.
    + destruct (IH c1) as (made & Hrange & Hcount & Htr' & Hprev & Hfst & Hall & Hlast).
      destruct (Hkeep e eq_refl He) as [Hcounter Hlog].
      exists (Datatypes.S made).
      rewrite Hmade, Htr in *.
      replace (requests_made c + Datatypes.S made - 1)%nat
        with (Datatypes.S (requests_made c) + made - 1)%nat by lia.
      split_ands; try lia; try assumption.
      * intros [| i] Hi.
        -- exists e. rewrite Nat.add_0_r. auto.
        -- destruct (Hprev i) as (e' & He' & Hre'); [lia |].
           exists e'. replace (requests_made c + Datatypes.S i)%nat
                        with (Datatypes.S (requests_made c) + i)%nat by lia. auto.
      * intros e' He' Hre'. f_equal. now apply (Hall e').
      * intros status text json Hreply Hbad.
        destruct (Hlast status text json) as [Hc Hl]; try assumption.
        split; [| exact Hl]. rewrite Hc. now rewrite Hcounter.
    + exists 1%nat. replace (requests_made c + 1 - 1)%nat with (requests_made c) by lia.
      rewrite Hr, He.
      split_ands; try lia; try assumption; try reflexivity; try congruence;
        intros i Hi; lia.
Qed.
End ClientFacts.

(** C8. Every request makes between one and three attempts. An attempt is
    followed by another only if it failed with a transient transport error
    ([TimeoutException] or [NetworkError]); when the last allowed attempt
    fails that way too, three attempts have been made and the error
    surfaces (as tenacity raises it, wrapped in [RetryError]). A non-2xx
    status is never followed by another attempt: [HTTPStatusError]
    propagates at once, the error counter tagged with the status code has
    been incremented by one, and the status has been logged with the first
    500 characters of the response body. *)
Theorem request_retry_policy (method url : string) (c : PolymarketClient.t) :
  exists made : nat,
    (1 <= made <= 3)%nat
    /\ PolymarketClient.requests_made (snd (PolymarketClient._request method url c))
       = (PolymarketClient.requests_made c + made)%nat
    /\ (forall i, (Datatypes.S i < made)%nat ->
          exists e,
            PolymarketClient.attempt_result
              (PolymarketClient.transport c (PolymarketClient.requests_made c + i)%nat) = Raise e
            /\ (e = TimeoutException \/ e = NetworkError))
    /\ (forall e,
          PolymarketClient.attempt_result
            (PolymarketClient.transport c (PolymarketClient.requests_made c + made - 1)%nat)
          = Raise e ->
          e = TimeoutException \/ e = NetworkError ->
          made = 3%nat
          /\ fst (PolymarketClient._request method url c) = Raise (RetryError e))
    /\ (forall i status text json,
          (i < made)%nat ->
          PolymarketClient.transport c (PolymarketClient.requests_made c + i)%nat
          = PolymarketClient.Response status text json ->
          (200 <=? status) && (status <? 300) = false ->
          Datatypes.S i = made
          /\ fst (PolymarketClient._request method url c) = Raise (HTTPStatusError status text)
          /\ get_counter "api.requests.error" [("status", Some (pretty status))]
               (PolymarketClient.obs (snd (PolymarketClient._request method url c)))
             = get_counter "api.requests.error" [("status", Some (pretty status))]
                 (PolymarketClient.obs c) + 1
          /\ {| lvl := Error; event := "api.request.error";
                fields := [("status_code", FVal (VInt status));
                           ("response_text", FVal (VStr (String.substring 0 500 text)))] |}
             ∈ log (PolymarketClient.obs (snd (PolymarketClient._request method url c)))).
Proof.
  unfold PolymarketClient._request.
  destruct (ClientFacts.retrying_spec 2 method url c)
    as (made & Hrange & Hcount & _ & Hprev & Hfst & Hall & Hlast).
  assert (Htransient : forall e, PolymarketClient.retry_if e = true <->
                                 e = TimeoutException \/ e = NetworkError).
  { intros e. split; [destruct e; simpl; auto; discriminate | intros [-> | ->]; reflexivity]. }
  exists made. split; [exact Hrange |]. split; [exact Hcount |].
  split; [| split].
  - intros i Hi. destruct (Hprev i Hi) as (e & He & Hre). exists e. split; [exact He |].
    now apply Htransient.
  - intros e He Hre. apply Htransient in Hre. split; [now apply (Hall e) |].
    rewrite Hfst, He, Hre. reflexivity.
  - intros i status text json Hi Hreply Hbad.
    assert (Hi' : Datatypes.S i = made).
    { destruct (Nat.eq_dec (Datatypes.S i) made) as [| Hne]; [assumption | exfalso].
      destruct (Hprev i) as (e & He & Hre); [lia |].
      unfold PolymarketClient.attempt_result in He. rewrite Hreply, Hbad in He.
      injection He as <-. discriminate Hre. }
    split; [exact Hi' |].
    replace (PolymarketClient.requests_made c + made - 1)%nat
      with (PolymarketClient.requests_made c + i)%nat in * by lia.
    split.
    + rewrite Hfst. unfold PolymarketClient.attempt_result. rewrite Hreply, Hbad. reflexivity.
    + now apply (Hlast status text json).
Qed.

(** C8 at a client whose network is down: three attempts, then the
    wrapped transport error; and at a server answering 404: one attempt,
    the status error itself, and the tagged counter at one. *)
Lemma request_retry_policy_example :
  (PolymarketClient.requests_made
     (snd (PolymarketClient._request "POST" PolymarketClient.GRAPHQL_URL network_down)) = 3%nat
   /\ fst (PolymarketClient._request "POST" PolymarketClient.GRAPHQL_URL network_down)
      = Raise (RetryError NetworkError))
  /\ (PolymarketClient.requests_made
        (snd (PolymarketClient._request "POST" PolymarketClient.GRAPHQL_URL not_found)) = 1%nat
      /\ fst (PolymarketClient._request "POST" PolymarketClient.GRAPHQL_URL not_found)
         = Raise (HTTPStatusError 404 "Not Found")
      /\ get_counter "api.requests.error" [("status", Some "404")]
           (PolymarketClient.obs
              (snd (PolymarketClient._request "POST" PolymarketClient.GRAPHQL_URL not_found)))
         = 1).
Proof.
  split.
  - destruct (request_retry_policy "POST" PolymarketClient.GRAPHQL_URL network_down)
      as (made & Hrange & Hcount & _ & Hdown & _).
    destruct (Hdown NetworkError eq_refl (or_intror eq_refl)) as [-> Hfst].
    split; [exact Hcount | exact Hfst].
  - destruct (request_retry_policy "POST" PolymarketClient.GRAPHQL_URL not_found)
      as (made & Hrange & Hcount & _ & _ & Hstatus).
    destruct (Hstatus 0%nat 404 "Not Found" (Raise JSONDecodeError))
      as (<- & Hfst & Hcounter & _); [lia | reflexivity | reflexivity |].
    split; [exact Hcount |]. split; [exact Hfst |].
    exact Hcounter.
Defined.

(** * Properties of the command-line interface *)

Lemma dt_ltb_ordinal (a b : datetime) : dt_ltb a b = true -> ordinal a <= ordinal b.
Proof.
  unfold dt_ltb, dt_tuple. simpl.
  destruct (ordinal a <? ordinal b) eqn:Hlt; [lia |].
  destruct (ordinal a =? ordinal b) eqn:Heq; [lia | discriminate].
Qed.

Section CliFacts.
Context (rt : runtime) {E : Type} `{CliEnv E}.

(** The storage constructor's events are database events, and it is the
    only thing that has happened when it returns. *)
Lemma get_storage_events (e : E) :
  List.filter is_io_event (snd (fst (get_storage e))) = snd (fst (get_storage e))
  /\ List.filter is_ingest_event (snd (fst (get_storage e))) = []
  /\ (is_ok (fst (fst (get_storage e))) = true ->
      snd (fst (get_storage e)) = [DbConnect; DbSelectText; DbCreateAll]).
Proof.
  unfold get_storage. destruct (storage_bootstrap e) as [[[] | x] e']; simpl; auto.
  repeat split. discriminate.
Qed.

Lemma filter_app_bool {X} (f : X -> bool) (l k : list X) :
  List.filter f (l ++ k) = List.filter f l ++ List.filter f k.
Proof. induction l as [| x l IH]; simpl; [reflexivity |]. destruct (f x); simpl; congruence. Qed.

(** The loop ends within its fuel: the cursor's date moves on by at least
    one day per iteration and never passes the end by more than one. *)
Lemma backfill_loop_terminates (market_id : option string) (no_raw : bool) (end_dt : datetime)
    (fuel : nat) :
  forall current total evs e,
    ordinal end_dt - ordinal current + 1 <= Z.of_nat fuel ->
    exists res, backfill_loop fuel market_id no_raw end_dt current total evs e = Some res.
Proof.
  induction fuel as [| fuel IH]; intros current total evs e Hfuel; simpl.
  - destruct (dt_ltb current end_dt) eqn:Hlt; [| eauto].
    apply dt_ltb_ordinal in Hlt. lia.
  - destruct (dt_ltb current end_dt) eqn:Hlt; [| eauto].
    destruct (engine_ingest_trades market_id (Some current) None (negb no_raw) e)
      as [[count | x] e']; [| eauto].
    apply IH. apply dt_ltb_ordinal in Hlt.
    unfold following_day, day_end, add_days, replace_hms. simpl.
    destruct (dt_ltb end_dt _); simpl; lia.
Qed.

End CliFacts.

(** C7, as amended. For every CLI invocation with invalid operator input
    (a non-empty [--since] text on the trades command that the date parser
    refuses, a [--start] or [--end] on backfill that it refuses, a backfill
    range with start equal to or after end, or the prices backfill path)
    the process exits with code 1 without invoking the ingestion engine:
    no fetch and no record, raw-archive or checkpoint operation is made.
    The only database work done is that of the storage constructor, which
    every command runs first. An empty [--since] is not validated at all:
    the command behaves exactly as if the option had not been given, and
    (the constructor having succeeded) invokes the engine without a lower
    bound. *)
Theorem invalid_input_exits_before_ingestion (rt : runtime) (E : Type) (Env : CliEnv E)
    (e : E) (market_id : option string) (no_raw : bool) :
  (forall text limit x,
      text <> "" ->
      parse_date rt text = Raise x ->
      let f := trades rt market_id (Some text) limit no_raw e in
      exit_code f = 1
      /\ List.filter is_ingest_event (events f) = []
      /\ List.filter is_io_event (events f) = snd (fst (get_storage e)))
  /\ (forall limit,
        let f := trades rt market_id (Some "") limit no_raw e in
        f = trades rt market_id None limit no_raw e
        /\ (is_ok (fst (storage_bootstrap e)) = true ->
            List.filter is_ingest_event (events f)
            = [IngestTrades market_id None limit (negb no_raw)]))
  /\ (forall start end_ trades_type,
        (exists x, parse_date rt start = Raise x)
        \/ (exists d x, parse_date rt start = Ok d /\ parse_date rt end_ = Raise x)
        \/ (exists start_dt end_dt,
              parse_date rt start = Ok start_dt /\ parse_date rt end_ = Ok end_dt
              /\ (dt_ltb start_dt end_dt = false \/ trades_type = false)) ->
        exists f,
          backfill rt start end_ trades_type market_id no_raw e = Some f
          /\ exit_code f = 1
          /\ List.filter is_ingest_event (events f) = []
          /\ List.filter is_io_event (events f) = snd (fst (get_storage e))).
Proof.
  pose proof (get_storage_events e) as (Hio & Hing & _).
  split; [| split].
  - intros text limit x Hne Hparse. unfold trades, with_engine.
    destruct (get_storage e) as [[[[] | x0] evs] e']; simpl in *.
    + apply String.eqb_neq in Hne. rewrite Hne, Hparse.
      destruct x; simpl; rewrite !filter_app_bool, Hing, Hio; simpl;
        now rewrite !app_nil_r.
    + rewrite !filter_app_bool, Hing, Hio. simpl. now rewrite !app_nil_r.
  - intros limit. split; [reflexivity |].
    unfold trades, with_engine, get_storage, run_ingest.
    destruct (storage_bootstrap e) as [[[] | x] e']; [| discriminate]. intros _.
    cbn [String.eqb].
    destruct (engine_ingest_trades market_id None limit (negb no_raw) e') as [[count | x] e''];
      reflexivity.
  - intros start end_ trades_type Hbad. unfold backfill.
    destruct (get_storage e) as [[[[] | x0] evs] e']; simpl in *.
    + destruct Hbad as [(x & Hs) | [(d & x & Hs & He) | (start_dt & end_dt & Hs & He & Hrange)]].
      * rewrite Hs. simpl. destruct x; (eexists; split; [reflexivity |]); simpl;
          rewrite !filter_app_bool, Hing, Hio; simpl; now rewrite !app_nil_r.
      * rewrite Hs, He. simpl. destruct x; (eexists; split; [reflexivity |]); simpl;
          rewrite !filter_app_bool, Hing, Hio; simpl; now rewrite !app_nil_r.
      * rewrite Hs, He. simpl. unfold dt_leb.
        destruct (dt_ltb start_dt end_dt) eqn:Hlt; simpl.
        -- destruct Hrange as [? | ->]; [discriminate |].
           eexists. split; [reflexivity |]. simpl.
           rewrite !filter_app_bool, Hing, Hio. simpl. now rewrite !app_nil_r.
        -- eexists. split; [reflexivity |]. simpl.
           rewrite !filter_app_bool, Hing, Hio. simpl. now rewrite !app_nil_r.
    + eexists. split; [reflexivity |]. simpl.
      rewrite !filter_app_bool, Hing, Hio. simpl. now rewrite !app_nil_r.
Qed.

(** C7 at [--since yesterday] and at a backfill whose start is after its
    end. *)
Lemma invalid_input_exits_before_ingestion_example :
  (exit_code (trades example_runtime None (Some "yesterday") None false (stub_engine [])) = 1
   /\ List.filter is_ingest_event
        (events (trades example_runtime None (Some "yesterday") None false (stub_engine [])))
      = [])
  /\ exists f,
      backfill example_runtime "2024-01-03" "2024-01-01" true None false (stub_engine [])
      = Some f
      /\ exit_code f = 1
      /\ List.filter is_ingest_event (events f) = [].
Proof.
  destruct (invalid_input_exits_before_ingestion example_runtime StubEngine stub_env
              (stub_engine []) None false) as (Hsince & _ & Hbackfill).
  split.
  - destruct (Hsince "yesterday" None ValueError) as (Hcode & Hing & _);
      [discriminate | reflexivity |]. split; assumption.
  - destruct (Hbackfill "2024-01-03" "2024-01-01" true) as (f & Hf & Hcode & Hing & _).
    + right. right. exists (datetime_of 2024 1 3 0 0 0), (datetime_of 2024 1 1 0 0 0).
      repeat split; auto.
    + exists f. auto.
Defined.

(** C7 fails as stated, in two ways. A backfill whose start is after its
    end exits with code 1 only after the storage constructor has connected
    to the database, executed its statement and issued [create_all]. And
    the empty text, which the date parser refuses like any other
    unparsable text, is not rejected as [--since]: the engine is invoked
    and the process exits with code 0. *)
Lemma invalid_input_reaches_database_or_engine :
  (backfill example_runtime "2024-01-03" "2024-01-01" true None false (stub_engine [])
   = Some {| exit_code := 1;
             events := [DbConnect; DbSelectText; DbCreateAll; AdapterCreated;
                        Echo true MsgStartBeforeEnd];
             env := stub_engine [] |}
   /\ List.filter is_io_event [DbConnect; DbSelectText; DbCreateAll; AdapterCreated;
                               Echo true MsgStartBeforeEnd]
      = [DbConnect; DbSelectText; DbCreateAll])
  /\ (parse_date example_runtime "" = Raise ValueError
      /\ trades example_runtime None (Some "") None false (stub_engine [Ok 3])
         = {| exit_code := 0;
              events := [DbConnect; DbSelectText; DbCreateAll; AdapterCreated;
                         IngestTrades None None None true;
                         Echo false (MsgIngested "trades" 3); AdapterClosed];
              env := stub_engine [] |}).
Proof. repeat split. Qed.





(** * Further properties of the storage backend *)

Lemma checkpoint_same_key (existing incoming : Checkpoint) :
  checkpoint_key existing = checkpoint_key incoming ->
  checkpoint_set_columns existing incoming = incoming.
Proof. destruct existing, incoming. unfold checkpoint_key. simpl. now intros [= -> ->]. Qed.

(** [update_checkpoint] is the single write its lookup leads to. *)
Lemma update_checkpoint_spec (source data_type : string) (timestamp : datetime)
    (st : PostgresStorage.t) :
  PostgresStorage.update_checkpoint source data_type timestamp st =
  match write_record checkpoint_key checkpoint_set_columns checkpoint_accepts "uq_checkpoints"
          (PostgresStorage.ingestion_checkpoints st)
          (checkpoint_row source data_type timestamp) with
  | Ok table =>
      (Ok tt,
       {| PostgresStorage.engine := PostgresStorage.engine st;
          PostgresStorage.raw_api_responses := PostgresStorage.raw_api_responses st;
          PostgresStorage.markets := PostgresStorage.markets st;
          PostgresStorage.trades := PostgresStorage.trades st;
          PostgresStorage.price_snapshots := PostgresStorage.price_snapshots st;
          PostgresStorage.ingestion_checkpoints := table;
          PostgresStorage.next_uuid := PostgresStorage.next_uuid st;
          PostgresStorage.logged := PostgresStorage.logged st ++ [] |})
  | Raise e =>
      (Raise e,
       {| PostgresStorage.engine := PostgresStorage.engine st;
          PostgresStorage.raw_api_responses := PostgresStorage.raw_api_responses st;
          PostgresStorage.markets := PostgresStorage.markets st;
          PostgresStorage.trades := PostgresStorage.trades st;
          PostgresStorage.price_snapshots := PostgresStorage.price_snapshots st;
          PostgresStorage.ingestion_checkpoints := PostgresStorage.ingestion_checkpoints st;
          PostgresStorage.next_uuid := PostgresStorage.next_uuid st;
          PostgresStorage.logged :=
            PostgresStorage.logged st
            ++ [{| lvl := Error; event := "storage.postgres.update_checkpoint.error";
                   fields := [("error", FErr e)] |}] |})
  end.
Proof.
  unfold PostgresStorage.update_checkpoint, write_record, checkpoint_row,
    query_first, commit, flush, open_session, write_unit.
  cbn [pending working committed write_units].
  change (checkpoint_key {| c_source := source; c_data_type := data_type;
                            c_last_sync_timestamp := timestamp |})
    with (source, data_type).
  destruct (lookup_row checkpoint_key (source, data_type)
              (PostgresStorage.ingestion_checkpoints st)) as [existing |] eqn:Hl.
  - unfold set_attrs. cbn [pending working committed write_units write_unit app rbind].
    destruct (checkpoint_accepts _); reflexivity.
  - unfold add. cbn [pending working committed write_units write_unit app rbind].
    destruct (checkpoint_accepts _); [| reflexivity].
    cbn [rbind].
    change (checkpoint_key {| c_source := source; c_data_type := data_type;
                              c_last_sync_timestamp := timestamp |})
      with (source, data_type).
    rewrite Hl. reflexivity.
Qed.

Lemma get_latest_checkpoint_spec (source data_type : string) (st : PostgresStorage.t) :
  PostgresStorage.get_latest_checkpoint source data_type st =
  (Ok (c_last_sync_timestamp
         <$> lookup_row checkpoint_key (source, data_type)
               (PostgresStorage.ingestion_checkpoints st)), st).
Proof. reflexivity. Qed.




(** ** The uniqueness constraints as an invariant *)

Section StoreBatchFacts.
Context {R K : Type} `{EqDecision K}.
Context (key : R -> K) (set_columns : R -> R -> R).
Context (accepts : R -> result unit) (uq : string).
Hypothesis set_columns_same_key :
  forall existing incoming, key existing = key incoming ->
                            set_columns existing incoming = incoming.

(** Whatever a [store_*] method does, the table it leaves has distinct
    natural keys if the table it found had. *)
Lemma store_batch_NoDup (error_event : string) (batch table : list R) :
  NoDup (map key table) ->
  NoDup (map key (snd (fst (store_batch key set_columns accepts uq error_event batch table)))).
Proof.
  intros Hnd. rewrite store_batch_spec.
  destruct (write_records key set_columns accepts uq batch table) as [t | e] eqn:Hw;
    [| exact Hnd].
  apply write_records_upsert in Hw as ->. simpl.
  now apply fold_upsert_NoDup.
Qed.
End StoreBatchFacts.

Lemma well_keyed_empty : well_keyed PostgresStorage.empty.
Proof. unfold well_keyed. simpl. repeat split; constructor. Qed.

(** A request id not yet handed out is not in the archive. *)
Lemma fresh_request_id (st : PostgresStorage.t) :
  Forall (fun r => r_request_id r < PostgresStorage.next_uuid st)
    (PostgresStorage.raw_api_responses st) ->
  lookup_row r_request_id (PostgresStorage.next_uuid st)
    (PostgresStorage.raw_api_responses st) = None.
Proof.
  intros Hall. apply lookup_row_None. intros Hin.
  apply list_elem_of_In, in_map_iff in Hin as (r & Hid & Hr).
  rewrite Forall_forall in Hall. apply list_elem_of_In, Hall in Hr. lia.
Qed.

(** [store_raw] with a fresh request id: one row appended, or nothing. *)
Lemma store_raw_spec (source endpoint : string) (response_data metadata : value)
    (st : PostgresStorage.t) :
  lookup_row r_request_id (PostgresStorage.next_uuid st)
    (PostgresStorage.raw_api_responses st) = None ->
  let record := {| r_request_id := PostgresStorage.next_uuid st; r_source := source;
                   r_endpoint := endpoint; r_response_json := response_data;
                   r_status_code := 200; r_metadata := metadata |} in
  PostgresStorage.store_raw source endpoint response_data metadata st =
  match raw_accepts (PostgresStorage.engine st) record with
  | Ok _ =>
      (Ok (pretty (PostgresStorage.next_uuid st)),
       {| PostgresStorage.engine := PostgresStorage.engine st;
          PostgresStorage.raw_api_responses := PostgresStorage.raw_api_responses st ++ [record];
          PostgresStorage.markets := PostgresStorage.markets st;
          PostgresStorage.trades := PostgresStorage.trades st;
          PostgresStorage.price_snapshots := PostgresStorage.price_snapshots st;
          PostgresStorage.ingestion_checkpoints := PostgresStorage.ingestion_checkpoints st;
          PostgresStorage.next_uuid := PostgresStorage.next_uuid st + 1;
          PostgresStorage.logged := PostgresStorage.logged st |})
  | Raise e =>
      (Raise e,
       {| PostgresStorage.engine := PostgresStorage.engine st;
          PostgresStorage.raw_api_responses := PostgresStorage.raw_api_responses st;
          PostgresStorage.markets := PostgresStorage.markets st;
          PostgresStorage.trades := PostgresStorage.trades st;
          PostgresStorage.price_snapshots := PostgresStorage.price_snapshots st;
          PostgresStorage.ingestion_checkpoints := PostgresStorage.ingestion_checkpoints st;
          PostgresStorage.next_uuid := PostgresStorage.next_uuid st + 1;
          PostgresStorage.logged :=
            PostgresStorage.logged st
            ++ [{| lvl := Error; event := "storage.postgres.store_raw.error";
                   fields := [("error", FErr e)] |}] |})
  end.
Proof.
  intros Hfresh record.
  unfold PostgresStorage.store_raw, commit, flush, add, open_session.
  cbn [pending working committed write_units write_unit app].
  fold record. destruct (raw_accepts _ record) as [[] | e]; cbn [rbind]; [| reflexivity].
  cbn [r_request_id record]. rewrite Hfresh. reflexivity.
Qed.

(** X2. The uniqueness constraints hold in every state the backend can
    reach: they hold when the tables are empty, and each of the six
    storage operations, whether it returns or raises, leaves every table
    with at most one row per natural key, the archive with at most one row
    per request id, and all archived request ids below the next one to be
    handed out. *)
Theorem storage_keeps_keys_unique (st : PostgresStorage.t) :
  well_keyed st ->
  (forall source endpoint response_data metadata,
      well_keyed (snd (PostgresStorage.store_raw source endpoint response_data metadata st)))
  /\ (forall batch, well_keyed (snd (PostgresStorage.store_markets batch st)))
  /\ (forall batch, well_keyed (snd (PostgresStorage.store_trades batch st)))
  /\ (forall batch, well_keyed (snd (PostgresStorage.store_price_snapshots batch st)))
  /\ (forall source data_type,
        well_keyed (snd (PostgresStorage.get_latest_checkpoint source data_type st)))
  /\ (forall source data_type timestamp,
        well_keyed (snd (PostgresStorage.update_checkpoint source data_type timestamp st))).
Proof.
  intros (Hm & Ht & Hs & Hc & Hr & Hids).
  split; [| split; [| split; [| split; [| split]]]].
  - intros source endpoint response_data metadata.
    rewrite store_raw_spec by now apply fresh_request_id.
    assert (Hbelow : Forall (fun r => r_request_id r < PostgresStorage.next_uuid st + 1)
                       (PostgresStorage.raw_api_responses st))
      by (eapply Forall_impl; [exact Hids | simpl; intros; lia]).
    destruct (raw_accepts _ _); unfold well_keyed; cbn [snd PostgresStorage.markets
      PostgresStorage.trades PostgresStorage.price_snapshots
      PostgresStorage.ingestion_checkpoints PostgresStorage.raw_api_responses
      PostgresStorage.next_uuid]; [| tauto].
    do 4 (split; [assumption |]). split.
    + rewrite map_app. apply NoDup_app.
      split; [assumption |]. split; [| apply NoDup_singleton].
      intros k Hk Hk'. apply list_elem_of_singleton in Hk'. cbn [r_request_id] in Hk'. subst k.
      apply list_elem_of_In, in_map_iff in Hk as (r & Hid & Hin).
      rewrite Forall_forall in Hids. apply list_elem_of_In, Hids in Hin. lia.
    + apply Forall_app. split; [exact Hbelow |].
      constructor; [cbn [r_request_id]; lia | constructor].
  - intros batch. unfold PostgresStorage.store_markets.
    pose proof (store_batch_NoDup market_key market_set_columns
                  (market_accepts (PostgresStorage.engine st))
                  "uq_markets_id_source" market_same_key
                  "storage.postgres.store_markets.error" batch _ Hm) as Hnd.
    destruct (store_batch _ _ _ _ _ _ _) as [[r table] lines].
    unfold well_keyed. simpl in *. tauto.
  - intros batch. unfold PostgresStorage.store_trades.
    pose proof (store_batch_NoDup trade_key trade_set_columns
                  (trade_accepts (PostgresStorage.engine st))
                  "uq_trades_id_source" trade_same_key
                  "storage.postgres.store_trades.error" batch _ Ht) as Hnd.
    destruct (store_batch _ _ _ _ _ _ _) as [[r table] lines].
    unfold well_keyed. simpl in *. tauto.
  - intros batch. unfold PostgresStorage.store_price_snapshots.
    pose proof (store_batch_NoDup snapshot_key snapshot_set_columns
                  (snapshot_accepts (PostgresStorage.engine st))
                  "uq_price_snapshots" snapshot_same_key
                  "storage.postgres.store_price_snapshots.error" batch _ Hs) as Hnd.
    destruct (store_batch _ _ _ _ _ _ _) as [[r table] lines].
    unfold well_keyed. simpl in *. tauto.
  - intros source data_type. rewrite get_latest_checkpoint_spec.
    unfold well_keyed. simpl. tauto.
  - intros source data_type timestamp. rewrite update_checkpoint_spec.
    destruct (write_record _ _ _ _ _ _) as [t | e] eqn:Hw;
      unfold well_keyed; cbn [snd PostgresStorage.markets
      PostgresStorage.trades PostgresStorage.price_snapshots
      PostgresStorage.ingestion_checkpoints PostgresStorage.raw_api_responses
      PostgresStorage.next_uuid]; [| tauto].
    apply write_record_upsert in Hw as ->.
    pose proof (spec_upsert_NoDup _ _ checkpoint_same_key _
                  (checkpoint_row source data_type timestamp) Hc).
    tauto.
Qed.

(** X2 at the empty database. *)
Lemma storage_keeps_keys_unique_example :
  well_keyed (snd (PostgresStorage.store_trades
                     [example_trade "trade-456" 0.65; example_trade "trade-456" 0.7]
                     PostgresStorage.empty)).
Proof.
  apply (storage_keeps_keys_unique PostgresStorage.empty).
  unfold well_keyed. simpl. repeat split; constructor.
Defined.

(** ** The raw archive *)

(** X3. [store_raw] is append-only. In a state that satisfies the
    uniqueness constraints, the call makes one row of a fresh request id,
    the arguments as given and status code 200. If the database accepts
    the row, the call returns the text of that id and appends the row; the
    rows archived before are kept in place and none of them has the
    returned id. If the database refuses the row, the call raises the
    database's error, logs it, and leaves the archive as it was. In both
    cases no other table changes. *)
Theorem store_raw_appends (st : PostgresStorage.t) (source endpoint : string)
    (response_data metadata : value) :
  well_keyed st ->
  let row := {| r_request_id := PostgresStorage.next_uuid st; r_source := source;
                r_endpoint := endpoint; r_response_json := response_data;
                r_status_code := 200; r_metadata := metadata |} in
  let out := PostgresStorage.store_raw source endpoint response_data metadata st in
  PostgresStorage.markets (snd out) = PostgresStorage.markets st
  /\ PostgresStorage.trades (snd out) = PostgresStorage.trades st
  /\ PostgresStorage.price_snapshots (snd out) = PostgresStorage.price_snapshots st
  /\ PostgresStorage.ingestion_checkpoints (snd out) = PostgresStorage.ingestion_checkpoints st
  /\ match raw_accepts (PostgresStorage.engine st) row with
     | Ok _ =>
         fst out = Ok (pretty (r_request_id row))
         /\ PostgresStorage.raw_api_responses (snd out)
            = PostgresStorage.raw_api_responses st ++ [row]
         /\ PostgresStorage.logged (snd out) = PostgresStorage.logged st
         /\ (forall old, old ∈ PostgresStorage.raw_api_responses st ->
                         (pretty (r_request_id old) : string) <> pretty (r_request_id row))
     | Raise e =>
         fst out = Raise e
         /\ PostgresStorage.raw_api_responses (snd out) = PostgresStorage.raw_api_responses st
         /\ PostgresStorage.logged (snd out)
            = PostgresStorage.logged st ++ [error_line "storage.postgres.store_raw.error" e]
     end.
Proof.
  intros (_ & _ & _ & _ & _ & Hids) row out. subst out.
  rewrite store_raw_spec by now apply fresh_request_id.
  fold row. destruct (raw_accepts _ row) as [[] | e]; cbn [fst snd];
    (do 4 (split; [reflexivity |])).
  - split; [reflexivity |]. split; [reflexivity |]. split; [reflexivity |].
    intros old Hold Heq. apply (inj pretty) in Heq. cbn [r_request_id row] in Heq.
    rewrite Forall_forall in Hids. apply Hids in Hold. lia.
  - split; [reflexivity |]. split; reflexivity.
Qed.

(** X3 at the archive of a first markets page. *)
Lemma store_raw_appends_example :
  exists row,
    fst (PostgresStorage.store_raw "polymarket" "markets" (VDict []) VNone PostgresStorage.empty)
    = Ok (pretty (r_request_id row))
    /\ PostgresStorage.raw_api_responses
         (snd (PostgresStorage.store_raw "polymarket" "markets" (VDict []) VNone
                 PostgresStorage.empty)) = [row]
    /\ r_status_code row = 200.
Proof.
  destruct (store_raw_appends PostgresStorage.empty "polymarket" "markets" (VDict []) VNone)
    as (_ & _ & _ & _ & Hid & Hrows & _).
  - unfold well_keyed. simpl. repeat split; constructor.
  - eexists. split; [exact Hid |]. split; [exact Hrows | reflexivity].
Defined.

(** ** Ingesting the same batch again *)

Section UpsertAgain.
Context {R K : Type} `{EqDecision K}.
Context (key : R -> K) (set_columns : R -> R -> R).
Hypothesis set_columns_same_key :
  forall existing incoming, key existing = key incoming ->
                            set_columns existing incoming = incoming.

(** Two tables with the same distinct keys in the same order and the same
    row under every key are the same table. *)
Lemma table_ext (t1 : list R) :
  forall t2, map key t1 = map key t2 -> NoDup (map key t1) ->
             (forall k, lookup_row key k t1 = lookup_row key k t2) -> t1 = t2.
Proof.
  induction t1 as [| a t1 IH]; intros [| b t2] Hkeys Hnd Hl; try discriminate; [reflexivity |].
  simpl in Hkeys. injection Hkeys as Hk Hkeys.
  apply NoDup_cons in Hnd as [Hnotin Hnd].
  assert (Hab : a = b).
  { specialize (Hl (key a)). unfold lookup_row in Hl. simpl in Hl.
    rewrite !bool_decide_eq_true_2 in Hl by congruence. congruence. }
  subst b. f_equal. apply IH; [assumption | assumption |].
  intros k. destruct (decide (key a = k)) as [<- | Hne].
  - transitivity (@None R); [| symmetry]; apply lookup_row_None;
      [| rewrite <- Hkeys]; exact Hnotin.
  - specialize (Hl k). unfold lookup_row in Hl. simpl in Hl.
    rewrite !bool_decide_eq_false_2 in Hl by assumption. exact Hl.
Qed.

Lemma fold_upsert_keys_stable (batch : list R) :
  forall t, (forall r, r ∈ batch -> key r ∈ map key t) ->
            map key (fold_left (spec_upsert key set_columns) batch t) = map key t.
Proof.
  induction batch as [| r batch IH]; intros t Hin; simpl; [reflexivity |].
  assert (Hk : map key (spec_upsert key set_columns t r) = map key t).
  { rewrite (spec_upsert_keys _ _ set_columns_same_key).
    rewrite bool_decide_eq_true_2; [reflexivity |]. apply Hin, elem_of_cons. now left. }
  rewrite IH; [exact Hk |].
  intros r' Hr'. rewrite Hk. apply Hin, elem_of_cons. now right.
Qed.

Lemma fold_upsert_covers (batch : list R) (t : list R) (r : R) :
  r ∈ batch -> key r ∈ map key (fold_left (spec_upsert key set_columns) batch t).
Proof.
  intros Hr.
  pose proof (fold_upsert_lookup key set_columns set_columns_same_key batch (key r) t) as Hl.
  destruct (lookup_row key (key r) (rev batch)) as [r' |] eqn:Hlast.
  - apply lookup_row_Some in Hl as [Hk Hin]. rewrite <- Hk.
    apply list_elem_of_In, in_map. now apply list_elem_of_In.
  - apply lookup_row_None in Hlast. exfalso. apply Hlast.
    apply list_elem_of_In, in_map, in_rev. rewrite rev_involutive. now apply list_elem_of_In.
Qed.

(** Upserting a batch into the table that its own upsert left changes
    nothing. *)
Lemma fold_upsert_again (batch t : list R) :
  NoDup (map key t) ->
  let t' := fold_left (spec_upsert key set_columns) batch t in
  fold_left (spec_upsert key set_columns) batch t' = t'.
Proof.
  intros Hnd t'.
  assert (Hkeys : map key (fold_left (spec_upsert key set_columns) batch t') = map key t')
    by (apply fold_upsert_keys_stable; intros r Hr; now apply fold_upsert_covers).
  apply table_ext; [exact Hkeys | |].
  - rewrite Hkeys. now apply fold_upsert_NoDup.
  - intros k. rewrite (fold_upsert_lookup _ _ set_columns_same_key). subst t'.
    rewrite (fold_upsert_lookup _ _ set_columns_same_key).
    now destruct (lookup_row key k (rev batch)).
Qed.
End UpsertAgain.

(** X4. [store_markets] is an idempotent upsert. For every batch of market
    records the database accepts, stored into a table with distinct keys: the
    call returns the number of records of the batch (not of rows written);
    afterwards the row under each natural key is the last record of the
    batch with that key, and rows under keys the batch does not mention
    are as before; storing the same batch once more returns the same
    count and leaves the table exactly as it was after the first call. *)
Theorem store_markets_idempotent (st : PostgresStorage.t) (batch : list Market) :
  Forall (fun r => market_accepts (PostgresStorage.engine st) r = Ok tt) batch ->
  NoDup (map market_key (PostgresStorage.markets st)) ->
  exists st1 st2,
    PostgresStorage.store_markets batch st = (Ok (Z.of_nat (length batch)), st1)
    /\ (forall k, lookup_row market_key k (PostgresStorage.markets st1) =
                  match lookup_row market_key k (rev batch) with
                  | Some r => Some r
                  | None => lookup_row market_key k (PostgresStorage.markets st)
                  end)
    /\ PostgresStorage.store_markets batch st1 = (Ok (Z.of_nat (length batch)), st2)
    /\ PostgresStorage.markets st2 = PostgresStorage.markets st1.
Proof.
  intros Hall Hnd.
  destruct (store_markets_accepted st batch Hall) as (st1 & Hs1 & He1 & Ht1).
  rewrite <- He1 in Hall.
  destruct (store_markets_accepted st1 batch Hall) as (st2 & Hs2 & _ & Ht2).
  exists st1, st2. split; [exact Hs1 |]. split.
  - intros k. rewrite Ht1. now apply fold_upsert_lookup, market_same_key.
  - split; [exact Hs2 |]. rewrite Ht2, Ht1.
    now apply (fold_upsert_again _ _ market_same_key).
Qed.

(** X4 at a batch that mentions one market twice. *)
Lemma store_markets_idempotent_example :
  exists st1 st2,
    PostgresStorage.store_markets
      [example_market "market-123" "Will it rain?"; example_market "market-123" "Will it snow?"]
      PostgresStorage.empty = (Ok 2, st1)
    /\ lookup_row market_key ("market-123", "polymarket") (PostgresStorage.markets st1)
       = Some (example_market "market-123" "Will it snow?")
    /\ PostgresStorage.store_markets
         [example_market "market-123" "Will it rain?"; example_market "market-123" "Will it snow?"]
         st1 = (Ok 2, st2)
    /\ PostgresStorage.markets st2 = PostgresStorage.markets st1.
Proof.
  destruct (store_markets_idempotent PostgresStorage.empty
              [example_market "market-123" "Will it rain?";
               example_market "market-123" "Will it snow?"])
    as (st1 & st2 & Hs1 & Hl & Hs2 & Hsame).
  - repeat constructor.
  - apply NoDup_nil_2.
  - exists st1, st2. split; [exact Hs1 |]. split; [| split; [exact Hs2 | exact Hsame]].
    rewrite Hl. reflexivity.
Defined.

(** ** Price history *)

(** A snapshot normalized from a payload whose timestamp is absent or
    unusable carries the clock reading, and nothing else of it depends on
    the clock. *)
Lemma untimed_snapshot_clock (rt : runtime) (raw : raw_dict) (source : string)
    (now1 now2 : datetime) (a : PriceSnapshot) :
  _parse_datetime rt (dict_get raw "timestamp" VNone) = Ok None ->
  normalize_price_snapshot_from_raw rt now1 raw source = Ok a ->
  s_timestamp a = now1
  /\ normalize_price_snapshot_from_raw rt now2 raw source = Ok (restamped a now2).
Proof.
  intros Htime. unfold normalize_price_snapshot_from_raw. rewrite Htime. cbn [rbind].
  intros Ha.
  destruct (_parse_float (dict_get raw "impliedProbability" VNone) (Some 0%float));
    cbn [rbind] in *; [| discriminate].
  destruct (_parse_float (dict_get raw "bid" VNone) None); cbn [rbind] in *; [| discriminate].
  destruct (_parse_float (dict_get raw "ask" VNone) None); cbn [rbind] in *; [| discriminate].
  destruct (_parse_float (dict_get raw "mid" VNone) None); cbn [rbind] in *; [| discriminate].
  destruct (_parse_float (dict_get raw "spread" VNone) None); cbn [rbind] in *; [| discriminate].
  destruct (_parse_float (dict_get raw "volume24h" VNone) None); cbn [rbind] in *;
    [| discriminate].
  destruct (_parse_float (dict_get raw "liquidity" VNone) None); cbn [rbind] in *;
    [| discriminate].
  injection Ha as <-. split; reflexivity.
Qed.

(** X5. Price snapshots are keyed by their timestamp too, and a payload
    whose timestamp is missing, null or unparseable is stamped with the
    clock reading of its normalization. So ingesting one and the same such
    payload at two different clock readings is not an overwrite: both
    normalizations succeed, with records equal in every column but the
    timestamp, and when the database accepts the two records both stores
    return 1 and the table then holds the two snapshots side by side, each
    under its own key. *)
Theorem untimed_snapshots_accumulate (rt : runtime) (st : PostgresStorage.t) (raw : raw_dict)
    (source : string) (now1 now2 : datetime) (a : PriceSnapshot) :
  _parse_datetime rt (dict_get raw "timestamp" VNone) = Ok None ->
  normalize_price_snapshot_from_raw rt now1 raw source = Ok a ->
  snapshot_accepts (PostgresStorage.engine st) a = Ok tt ->
  snapshot_accepts (PostgresStorage.engine st) (restamped a now2) = Ok tt ->
  NoDup (map snapshot_key (PostgresStorage.price_snapshots st)) ->
  now1 <> now2 ->
  exists st1 st2,
    normalize_price_snapshot_from_raw rt now2 raw source = Ok (restamped a now2)
    /\ s_timestamp a = now1
    /\ PostgresStorage.store_price_snapshots [a] st = (Ok 1, st1)
    /\ PostgresStorage.store_price_snapshots [restamped a now2] st1 = (Ok 1, st2)
    /\ lookup_row snapshot_key (snapshot_key a) (PostgresStorage.price_snapshots st2) = Some a
    /\ lookup_row snapshot_key (snapshot_key (restamped a now2))
         (PostgresStorage.price_snapshots st2) = Some (restamped a now2)
    /\ snapshot_key a <> snapshot_key (restamped a now2).
Proof.
  intros Htime Ha Haacc Hbacc Hnd Hnow.
  destruct (untimed_snapshot_clock rt raw source now1 now2 a Htime Ha) as [Hta Hb].
  set (b := restamped a now2) in *.
  assert (Hne : snapshot_key a <> snapshot_key b)
    by (unfold snapshot_key, b, restamped; cbn; congruence).
  destruct (store_price_snapshots_accepted st [a]) as (st1 & Hs1 & He1 & Ht1);
    [now constructor |].
  destruct (store_price_snapshots_accepted st1 [b]) as (st2 & Hs2 & _ & Ht2);
    [rewrite He1; now constructor |].
  exists st1, st2. split; [exact Hb |]. split; [exact Hta |].
  split; [exact Hs1 |]. split; [exact Hs2 |].
  rewrite Ht2, Ht1. cbn [fold_left].
  split; [| split; [apply (spec_upsert_lookup _ _ snapshot_same_key) | exact Hne]].
  rewrite (spec_upsert_other _ _ snapshot_same_key) by exact Hne.
  apply (spec_upsert_lookup _ _ snapshot_same_key).
Qed.

(** X5 at a payload without a timestamp, read at 10:30 and at 10:31. *)
Lemma untimed_snapshots_accumulate_example :
  exists a b st1 st2,
    normalize_price_snapshot_from_raw example_runtime (datetime_of 2024 1 15 10 30 0)
      untimed_snapshot_payload "polymarket" = Ok a
    /\ normalize_price_snapshot_from_raw example_runtime (datetime_of 2024 1 15 10 31 0)
         untimed_snapshot_payload "polymarket" = Ok b
    /\ PostgresStorage.store_price_snapshots [a] PostgresStorage.empty = (Ok 1, st1)
    /\ PostgresStorage.store_price_snapshots [b] st1 = (Ok 1, st2)
    /\ length (PostgresStorage.price_snapshots st2) = 2%nat.
Proof.
  destruct (normalize_price_snapshot_from_raw example_runtime (datetime_of 2024 1 15 10 30 0)
              untimed_snapshot_payload "polymarket") as [a | e] eqn:Ha;
    [| vm_compute in Ha; discriminate Ha].
  destruct (untimed_snapshots_accumulate example_runtime PostgresStorage.empty
              untimed_snapshot_payload "polymarket"
              (datetime_of 2024 1 15 10 30 0) (datetime_of 2024 1 15 10 31 0) a)
    as (st1 & st2 & Hb & _ & Hs1 & Hs2 & _);
    [reflexivity | exact Ha | | | apply NoDup_nil_2 | vm_compute; discriminate |].
  - vm_compute in Ha. injection Ha as <-. reflexivity.
  - vm_compute in Ha. injection Ha as <-. reflexivity.
  - exists a, (restamped a (datetime_of 2024 1 15 10 31 0)), st1, st2.
    split; [reflexivity |]. split; [exact Hb |].
    split; [exact Hs1 |]. split; [exact Hs2 |].
    vm_compute in Ha. injection Ha as <-.
    vm_compute in Hs1. injection Hs1 as <-.
    vm_compute in Hs2. injection Hs2 as <-. reflexivity.
Defined.

(** * Further properties of the ingestion engine *)

(** ** Properties kept by every step of a run *)

Section Stepwise.
Context {S A : Type} `{StorageBackend S} `{MarketAdapter A}.
Context (R : world S A -> world S A -> Prop).
Hypothesis R_refl : forall w, R w w.
Hypothesis R_trans : forall a b c, R a b -> R b c -> R a c.
(** Logging and metrics do not matter to [R]. *)
Hypothesis R_obs : forall o w, R w (set_obs o w).

Lemma steps_ret {X} (x : X) : steps R (ret x).
Proof. intros w. apply R_refl. Qed.

Lemma steps_raise {X} (e : exn) : steps R (raise (X := X) e).
Proof. intros w. apply R_refl. Qed.

(** Sequencing, with what is known of the first computation's value. *)
Lemma steps_bind_with {X Y} (P : X -> Prop) (m : M (world S A) X)
    (k : X -> M (world S A) Y) :
  steps R m -> (forall w x w', m w = (Ok x, w') -> P x) ->
  (forall x, P x -> steps R (k x)) -> steps R (bind m k).
Proof.
  intros Hm HP Hk w. unfold bind. specialize (Hm w). specialize (HP w).
  destruct (m w) as [[x | e] w1]; simpl in *; [| exact Hm].
  apply R_trans with w1; [exact Hm | apply Hk; now apply (HP x w1)].
Qed.

Lemma steps_bind {X Y} (m : M (world S A) X) (k : X -> M (world S A) Y) :
  steps R m -> (forall x, steps R (k x)) -> steps R (bind m k).
Proof. intros Hm Hk. apply (steps_bind_with (fun _ => True)); auto. Qed.

Lemma steps_try_except {X} (body : M (world S A) X) (handler : exn -> M (world S A) X) :
  steps R body -> (forall e, steps R (handler e)) -> steps R (try_except body handler).
Proof.
  intros Hb Hh w. unfold try_except. specialize (Hb w).
  destruct (body w) as [[x | e] w1]; simpl in *; [exact Hb |].
  apply R_trans with w1; [exact Hb | apply Hh].
Qed.

Lemma steps_logger (l : level) (ev : string) (fs : list (string * field)) :
  steps R (logger l ev fs).
Proof. intros w. apply R_obs. Qed.

Lemma steps_metrics_increment (metric : string) (v : Z) (tg : tags) :
  steps R (metrics_increment metric v tg).
Proof. intros w. apply R_obs. Qed.

Lemma steps_log_duration {X} (operation : string) (context : tags) (body : M (world S A) X) :
  steps R body -> steps R (log_duration w_obs set_obs operation context body).
Proof.
  intros Hb w. unfold log_duration.
  set (w1 := set_obs (emit Info (operation +:+ ".start") (context_fields context) (w_obs w)) w).
  specialize (Hb w1).
  destruct (body w1) as [[x | e] w2]; simpl in *;
    (apply R_trans with w1; [apply R_obs |]);
    (apply R_trans with w2; [exact Hb | apply R_obs]).
Qed.

Lemma steps_map_m {X Y} (f : X -> M (world S A) Y) (l : list X) :
  (forall x, steps R (f x)) -> steps R (map_m f l).
Proof.
  intros Hf. induction l as [| x l IH]; simpl; [apply steps_ret |].
  apply steps_bind; [apply Hf |]. intros y.
  apply steps_bind; [exact IH |]. intros ys. apply steps_ret.
Qed.

Lemma steps_advance_checkpoint (data_type : string) (timestamps : list (option datetime)) :
  (forall timestamp,
      steps R (on_storage (UpdateCheckpoint source data_type timestamp)
                 (update_checkpoint source data_type timestamp))) ->
  steps R (advance_checkpoint data_type timestamps).
Proof.
  intros Hu. unfold advance_checkpoint. destruct timestamps; [apply steps_ret |].
  apply steps_bind; [intros w; apply R_refl | exact Hu].
Qed.

(** [ingest_markets], given the property of the contract calls it makes. *)
Lemma ingest_markets_steps (limit : option Z) (flag : bool) :
  (forall cursor, steps R (on_adapter (FetchMarkets limit cursor) (fetch_markets limit cursor))) ->
  (forall raw, steps R (on_adapter (NormalizeMarket raw) (normalize_market raw))) ->
  (forall batch, steps R (on_storage (StoreMarkets batch) (store_markets batch))) ->
  (flag = true ->
   forall response_data,
     steps R (on_storage (StoreRaw source "markets" response_data)
                (store_raw source "markets" response_data VNone))) ->
  forall fuel cursor, steps R (ingest_markets fuel limit cursor flag).
Proof.
  intros Hfetch Hnorm Hstore Hraw.
  induction fuel as [| fuel IH]; intros cursor; [apply steps_raise |].
  cbn [ingest_markets].
  apply steps_log_duration, steps_try_except.
  - apply steps_bind; [apply Hfetch |]. intros response.
    destruct (data response) as [| raw raws].
    + apply steps_bind; [apply steps_logger | intros; apply steps_ret].
    + apply steps_bind.
      { destruct flag; [| apply steps_ret].
        apply steps_bind; [now apply Hraw | intros; apply steps_logger]. }
      intros _. apply steps_bind; [now apply steps_map_m |]. intros normalized.
      apply steps_bind; [apply Hstore |]. intros count.
      apply steps_bind; [apply steps_metrics_increment |]. intros _.
      apply steps_bind; [apply steps_logger |]. intros _.
      match goal with |- steps _ (if ?b then _ else _) => destruct b end;
        [| apply steps_ret].
      apply steps_bind; [apply IH | intros; apply steps_ret].
  - intros e. apply steps_bind; [apply steps_logger |]. intros _.
    apply steps_bind; [apply steps_metrics_increment | intros; apply steps_raise].
Qed.

(** [ingest_trades]: [since0] is the [since] the run was started with,
    [since] the one of the page at hand. *)
Lemma ingest_trades_steps (market_id : option string) (since0 : option datetime)
    (limit : option Z) (flag : bool) :
  (since0 = None ->
   steps R (on_storage (GetLatestCheckpoint source "trades")
              (get_latest_checkpoint source "trades"))) ->
  (forall since cursor,
      (forall d, since0 = Some d -> since = Some d) ->
      steps R (on_adapter (FetchTrades market_id since limit cursor)
                 (fetch_trades market_id since limit cursor))) ->
  (forall raw, steps R (on_adapter (NormalizeTrade raw) (normalize_trade raw))) ->
  (forall batch, steps R (on_storage (StoreTrades batch) (store_trades batch))) ->
  (forall timestamp,
      steps R (on_storage (UpdateCheckpoint source "trades" timestamp)
                 (update_checkpoint source "trades" timestamp))) ->
  (flag = true ->
   forall response_data,
     steps R (on_storage (StoreRaw source "trades" response_data)
                (store_raw source "trades" response_data VNone))) ->
  forall fuel since cursor,
    (forall d, since0 = Some d -> since = Some d) ->
    steps R (ingest_trades fuel market_id since limit cursor flag).
Proof.
  intros Hget Hfetch Hnorm Hstore Hupdate Hraw.
  induction fuel as [| fuel IH]; intros since cursor Hsince; [apply steps_raise |].
  cbn [ingest_trades].
  apply steps_log_duration, steps_try_except.
  - apply (steps_bind_with (fun since' => forall d, since0 = Some d -> since' = Some d)).
    { destruct since as [d |]; [apply steps_ret |].
      apply steps_bind.
      - apply Hget. destruct since0 as [d |]; [| reflexivity].
        specialize (Hsince d eq_refl). discriminate.
      - intros [c |]; [| apply steps_ret].
        apply steps_bind; [apply steps_logger | intros; apply steps_ret]. }
    { intros w since' w' Hrun d Hd. specialize (Hsince d Hd). subst since.
      unfold ret in Hrun. congruence. }
    intros since' Hsince'.
    apply steps_bind; [now apply Hfetch |]. intros response.
    destruct (data response) as [| raw raws].
    + apply steps_bind; [apply steps_logger | intros; apply steps_ret].
    + apply steps_bind.
      { destruct flag; [| apply steps_ret].
        apply steps_bind; [now apply Hraw | intros; apply steps_logger]. }
      intros _. apply steps_bind; [now apply steps_map_m |]. intros normalized.
      apply steps_bind; [apply Hstore |]. intros count.
      apply steps_bind; [now apply steps_advance_checkpoint |]. intros _.
      apply steps_bind; [apply steps_metrics_increment |]. intros _.
      apply steps_bind; [apply steps_logger |]. intros _.
      match goal with |- steps _ (if ?b then _ else _) => destruct b end;
        [| apply steps_ret].
      apply steps_bind; [now apply IH | intros; apply steps_ret].
  - intros e. apply steps_bind; [apply steps_logger |]. intros _.
    apply steps_bind; [apply steps_metrics_increment | intros; apply steps_raise].
Qed.

Lemma ingest_price_snapshots_steps (market_id : option string) (since : option datetime)
    (flag : bool) :
  steps R (on_adapter (FetchPriceSnapshots market_id since)
             (fetch_price_snapshots market_id since)) ->
  (forall raw, steps R (on_adapter (NormalizePriceSnapshot raw) (normalize_price_snapshot raw))) ->
  (forall batch, steps R (on_storage (StorePriceSnapshots batch) (store_price_snapshots batch))) ->
  (forall timestamp,
      steps R (on_storage (UpdateCheckpoint source "price_snapshots" timestamp)
                 (update_checkpoint source "price_snapshots" timestamp))) ->
  (flag = true ->
   forall response_data,
     steps R (on_storage (StoreRaw source "price_snapshots" response_data)
                (store_raw source "price_snapshots" response_data VNone))) ->
  steps R (ingest_price_snapshots market_id since flag).
Proof.
  intros Hfetch Hnorm Hstore Hupdate Hraw.
  unfold ingest_price_snapshots.
  apply steps_log_duration, steps_try_except.
  - apply steps_bind; [apply Hfetch |]. intros response.
    destruct (data response) as [| raw raws].
    + apply steps_bind; [apply steps_logger | intros; apply steps_ret].
    + apply steps_bind.
      { destruct flag; [| apply steps_ret].
        apply steps_bind; [now apply Hraw | intros; apply steps_logger]. }
      intros _. apply steps_bind; [now apply steps_map_m |]. intros normalized.
      apply steps_bind; [apply Hstore |]. intros count.
      apply steps_bind; [now apply steps_advance_checkpoint |]. intros _.
      apply steps_bind; [apply steps_metrics_increment |]. intros _.
      apply steps_bind; [apply steps_logger | intros; apply steps_ret].
  - intros e. apply steps_bind; [apply steps_logger |]. intros _.
    apply steps_bind; [apply steps_metrics_increment | intros; apply steps_raise].
Qed.
End Stepwise.

(** ** The record of calls *)

Section CallRecord.
Context {S A : Type} `{StorageBackend S} `{MarketAdapter A}.
Context (allowed : call -> Prop).

Lemma extends_by_refl (w : world S A) : extends_by allowed w w.
Proof. exists []. split; [now rewrite app_nil_r | constructor]. Qed.

Lemma extends_by_trans (a b c : world S A) :
  extends_by allowed a b -> extends_by allowed b c -> extends_by allowed a c.
Proof.
  intros (e1 & H1 & Ha1) (e2 & H2 & Ha2). exists (e1 ++ e2).
  split; [now rewrite H2, H1, app_assoc | now apply Forall_app].
Qed.

Lemma extends_by_obs (o : Obs) (w : world S A) : extends_by allowed w (set_obs o w).
Proof. exists []. split; [simpl; now rewrite app_nil_r | constructor]. Qed.

Lemma on_adapter_extends {X} (c : call) (op : A -> result X * A) :
  allowed c -> steps (extends_by (S := S) (A := A) allowed) (on_adapter c op).
Proof.
  intros Hc w. unfold on_adapter. destruct (op (w_adapter w)) as [r ad]. simpl.
  exists [c]. split; [reflexivity | now constructor].
Qed.

Lemma on_storage_extends {X} (c : call) (op : S -> result X * S) :
  allowed c -> steps (extends_by (S := S) (A := A) allowed) (on_storage c op).
Proof.
  intros Hc w. unfold on_storage. destruct (op (w_storage w)) as [r st]. simpl.
  exists [c]. split; [reflexivity | now constructor].
Qed.
End CallRecord.

(** X6. The contract calls of a markets run, for every storage backend,
    every adapter and every depth of pagination, whether the run returns
    or raises: the record of calls is only extended, and only by
    [fetch_markets] with the run's limit, [normalize_market],
    [store_markets] and, if archiving is on, [store_raw] for the run's
    source and the endpoint ["markets"]. So a markets run never reads or
    writes a checkpoint, and with [store_raw=False] it never writes to the
    raw archive. *)
Theorem markets_run_calls (S A : Type) (B : StorageBackend S) (Ad : MarketAdapter A)
    (fuel : nat) (limit : option Z) (cursor : option string) (flag : bool) (w : world S A) :
  extends_by (markets_call source_name limit flag) w
    (snd (ingest_markets fuel limit cursor flag w)).
Proof.
  apply (ingest_markets_steps (extends_by (markets_call source_name limit flag))
           (extends_by_refl _) (extends_by_trans _) (extends_by_obs _)).
  - intros c. now apply on_adapter_extends.
  - intros raw. now apply on_adapter_extends.
  - intros batch. now apply on_storage_extends.
  - intros -> response_data. now apply on_storage_extends.
Qed.

(** X7. The contract calls of a trades run, for every storage backend,
    every adapter and every depth of pagination, whether the run returns
    or raises: only [fetch_trades] with the run's market and limit,
    [normalize_trade], [store_trades], [update_checkpoint] for the run's
    source and the data type ["trades"], [store_raw] for the endpoint
    ["trades"] if archiving is on, and [get_latest_checkpoint] for
    ["trades"] if no [since] was given. A run started with an explicit
    [since] never reads the checkpoint, and every page of it is fetched
    with that same [since]. *)
Theorem trades_run_calls (S A : Type) (B : StorageBackend S) (Ad : MarketAdapter A)
    (fuel : nat) (market_id : option string) (since : option datetime) (limit : option Z)
    (cursor : option string) (flag : bool) (w : world S A) :
  extends_by (trades_call source_name market_id since limit flag) w
    (snd (ingest_trades fuel market_id since limit cursor flag w)).
Proof.
  apply (ingest_trades_steps (extends_by (trades_call source_name market_id since limit flag))
           (extends_by_refl _) (extends_by_trans _) (extends_by_obs _) market_id since).
  - intros ->. now apply on_storage_extends.
  - intros since' c Hsince. now apply on_adapter_extends.
  - intros raw. now apply on_adapter_extends.
  - intros batch. now apply on_storage_extends.
  - intros timestamp. now apply on_storage_extends.
  - intros -> response_data. now apply on_storage_extends.
  - auto.
Qed.

(** X8. The contract calls of a price-snapshot run, for every storage
    backend and adapter, whether the run returns or raises: one
    [fetch_price_snapshots] with the run's market and [since] as given,
    then only [normalize_price_snapshot], [store_price_snapshots],
    [update_checkpoint] for the data type ["price_snapshots"] and, if
    archiving is on, [store_raw] for the endpoint ["price_snapshots"]. The
    run writes a checkpoint but never reads one: a missing [since] is
    passed to the adapter as missing. *)
Theorem prices_run_calls (S A : Type) (B : StorageBackend S) (Ad : MarketAdapter A)
    (market_id : option string) (since : option datetime) (flag : bool) (w : world S A) :
  extends_by (prices_call source_name market_id since flag) w
    (snd (ingest_price_snapshots market_id since flag w)).
Proof.
  apply (ingest_price_snapshots_steps (extends_by (prices_call source_name market_id since flag))
           (extends_by_refl _) (extends_by_trans _) (extends_by_obs _)).
  - now apply on_adapter_extends.
  - intros raw. now apply on_adapter_extends.
  - intros batch. now apply on_storage_extends.
  - intros timestamp. now apply on_storage_extends.
  - intros -> response_data. now apply on_storage_extends.
Qed.

(** ** The error counters *)

Section FailureCount.
Context {S A : Type} `{StorageBackend S} `{MarketAdapter A}.
Context (f : Obs -> Z) (per_level : Z).
Hypothesis f_emit : forall l ev fs o, f (emit l ev fs o) = f o.
Hypothesis f_gauge : forall m tg o, f (gauge m tg o) = f o.

Abbreviation cf := (counts_failures (fun w : world S A => f (w_obs w)) per_level).

Lemma cf_ret {X} (hi : nat) (x : X) : cf 0%nat hi (ret x).
Proof. intros w. reflexivity. Qed.

Lemma cf_raise {X} (hi : nat) (e : exn) : cf 0%nat hi (raise (X := X) e).
Proof. intros w. exists 0%nat. simpl. split; lia. Qed.

Lemma cf_weaken {X} (lo hi hi' : nat) (m : M (world S A) X) :
  (hi <= hi')%nat -> cf lo hi m -> cf 0%nat hi' m.
Proof.
  intros Hle Hm w. specialize (Hm w). destruct (m w) as [[x | e] w']; [exact Hm |].
  destruct Hm as (d & Hd & Hc). exists d. split; [lia | exact Hc].
Qed.

Lemma cf_bind {X Y} (hi : nat) (m : M (world S A) X) (k : X -> M (world S A) Y) :
  cf 0%nat hi m -> (forall x, cf 0%nat hi (k x)) -> cf 0%nat hi (bind m k).
Proof.
  intros Hm Hk w. unfold bind. specialize (Hm w).
  destruct (m w) as [[x | e] w1]; [| exact Hm].
  specialize (Hk x w1). destruct (k x w1) as [[y | e] w2].
  - congruence.
  - destruct Hk as (d & Hd & Hc). exists d. split; [exact Hd | congruence].
Qed.

Lemma cf_on_storage {X} (hi : nat) (c : call) (op : S -> result X * S) :
  cf 0%nat hi (on_storage c op).
Proof.
  intros w. unfold on_storage. destruct (op (w_storage w)) as [[x | e] st]; cbn [w_obs];
    [reflexivity |]. exists 0%nat. split; lia.
Qed.

Lemma cf_on_adapter {X} (hi : nat) (c : call) (op : A -> result X * A) :
  cf 0%nat hi (on_adapter c op).
Proof.
  intros w. unfold on_adapter. destruct (op (w_adapter w)) as [[x | e] ad]; cbn [w_obs];
    [reflexivity |]. exists 0%nat. split; lia.
Qed.

Lemma cf_logger (hi : nat) (l : level) (ev : string) (fs : list (string * field)) :
  cf 0%nat hi (logger l ev fs).
Proof. intros w. unfold logger, with_obs, set_obs. cbn [w_obs]. apply f_emit. Qed.

Lemma cf_metrics_increment (hi : nat) (metric : string) (v : Z) (tg : tags) :
  (forall o, f (increment metric v tg o) = f o) -> cf 0%nat hi (metrics_increment metric v tg).
Proof. intros Hf w. unfold metrics_increment, with_obs, set_obs. cbn [w_obs]. apply Hf. Qed.

Lemma cf_map_m {X Y} (hi : nat) (g : X -> M (world S A) Y) (l : list X) :
  (forall x, cf 0%nat hi (g x)) -> cf 0%nat hi (map_m g l).
Proof.
  intros Hg. induction l as [| x l IH]; cbn [map_m]; [apply cf_ret |].
  apply cf_bind; [apply Hg |]. intros y.
  apply cf_bind; [exact IH |]. intros ys. apply cf_ret.
Qed.

(** One operation: its body inside [try], the handler that counts and
    re-raises, and [log_duration] around both, which counts again. *)
Lemma cf_operation {X} (hi : nat) (operation : string) (context : tags)
    (body : M (world S A) X) (metric : string) (tg : tags) (fs : exn -> list (string * field))
    (by_handler by_exit : Z) :
  (forall o, f (increment metric 1 tg o) = f o + by_handler) ->
  (forall o, f (increment (operation +:+ ".errors") 1 context o) = f o + by_exit) ->
  by_handler + by_exit = per_level ->
  cf 0%nat hi body ->
  cf 1%nat (Datatypes.S hi)
    (log_duration w_obs set_obs operation context
       (try_except body
          (fun e => do! _ <- logger Error (operation +:+ ".error") (fs e);
                    do! _ <- metrics_increment metric 1 tg;
                    raise e))).
Proof.
  intros Hhandler Hexit Hsum Hbody w. unfold log_duration, try_except.
  set (w1 := set_obs _ w).
  assert (H1 : f (w_obs w1) = f (w_obs w))
    by (subst w1; unfold set_obs; cbn [w_obs]; apply f_emit).
  specialize (Hbody w1). destruct (body w1) as [[x | e] w2].
  - unfold set_obs. cbn [w_obs]. rewrite f_gauge, f_emit. congruence.
  - destruct Hbody as (d & Hd & Hc).
    unfold bind, logger, metrics_increment, with_obs, raise, set_obs. cbn [w_obs].
    exists (Datatypes.S d). split; [lia |].
    rewrite Hexit, f_emit, Hhandler, f_emit, Hc, H1. lia.
Qed.
End FailureCount.

(** The counter of stored markets is another counter. *)
Lemma markets_stored_is_not_errors (source : string) :
  _format_key "ingestion.markets.stored" [("source", Some source)]
  <> _format_key "ingestion.markets.errors" [("source", Some source)].
Proof. simpl. discriminate. Qed.

(** X9. Every failure of a markets run is counted twice. The handler of
    [ingest_markets] and the [log_duration] around it increment the same
    counter, ["ingestion.markets.errors"] tagged with the source, and every
    page of the pagination is one such nested operation. So, for every
    storage backend and adapter: a run that returns leaves the counter as
    it was, and a run that raises has added two for each nested call the
    exception passed through, at least two and at most twice the depth of
    the pagination. *)
Theorem markets_failure_counted_twice (S A : Type) (B : StorageBackend S)
    (Ad : MarketAdapter A) (fuel : nat) (limit : option Z) (cursor : option string)
    (flag : bool) (w : world S A) :
  let errors (o : Obs) :=
    get_counter "ingestion.markets.errors" [("source", Some source_name)] o in
  match ingest_markets (Datatypes.S fuel) limit cursor flag w with
  | (Ok _, w') => errors (w_obs w') = errors (w_obs w)
  | (Raise _, w') =>
      exists depth : nat,
        (1 <= depth <= Datatypes.S fuel)%nat
        /\ errors (w_obs w') = errors (w_obs w) + 2 * Z.of_nat depth
  end.
Proof.
  intros errors.
  assert (Hemit : forall l ev fs o, errors (emit l ev fs o) = errors o)
    by (intros; apply get_counter_emit).
  assert (Hgauge : forall m tg o, errors (gauge m tg o) = errors o)
    by (intros; apply get_counter_gauge).
  assert (Hone : forall o, errors (increment "ingestion.markets.errors" 1
                                      [("source", Some source_name)] o) = errors o + 1)
    by (intros; apply get_counter_increment).
  assert (Hstep : forall n,
             (forall c, counts_failures (fun w : world S A => errors (w_obs w)) 2 0 n
                          (ingest_markets n limit c flag)) ->
             forall c, counts_failures (fun w : world S A => errors (w_obs w)) 2 1
                         (Datatypes.S n) (ingest_markets (Datatypes.S n) limit c flag)).
  { intros n IH c. cbn [ingest_markets].
    apply (cf_operation errors 2 Hemit Hgauge n "ingestion.markets"
             [("source", Some source)] _ "ingestion.markets.errors" [("source", Some source)]
             (fun e => [("error", FErr e); ("error_type", FVal (VStr (exn_name e)))]) 1 1);
      [exact Hone | exact Hone | reflexivity |].
    apply cf_bind; [apply cf_on_adapter |]. intros response.
    destruct (data response) as [| raw raws].
    - apply cf_bind; [now apply cf_logger | intros; apply cf_ret].
    - apply cf_bind.
      { destruct flag; [| apply cf_ret].
        apply cf_bind; [apply cf_on_storage | intros; now apply cf_logger]. }
      intros _. apply cf_bind; [apply cf_map_m; intros; apply cf_on_adapter |].
      intros normalized. apply cf_bind; [apply cf_on_storage |]. intros count.
      apply cf_bind.
      { apply cf_metrics_increment. intros o.
        apply get_counter_increment_other, markets_stored_is_not_errors. }
      intros _. apply cf_bind; [now apply cf_logger |]. intros _.
      match goal with |- counts_failures _ _ _ _ (if ?b then _ else _) => destruct b end;
        [| apply cf_ret].
      apply cf_bind; [apply IH | intros; apply cf_ret]. }
  assert (Hall : forall n c, counts_failures (fun w : world S A => errors (w_obs w)) 2 0 n
                               (ingest_markets n limit c flag)).
  { induction n as [| n IH]; intros c; [apply cf_raise |].
    apply (cf_weaken errors 2 1 (Datatypes.S n)); [lia | now apply Hstep]. }
  exact (Hstep fuel (Hall fuel) cursor w).
Qed.

(** ** A fetch that fails *)

(** X10. When the adapter's fetch raises, each ingestion operation raises
    that same exception to its caller; the fetch is the only contract call
    it made (for trades without [since], after the one checkpoint read),
    so nothing was archived, normalized or stored and no checkpoint was
    written; and the storage state is the one the run found (for trades
    without [since], the one the checkpoint read left). This holds for
    every storage backend and adapter and at every page. *)
Theorem fetch_failure_propagates (S A : Type) (B : StorageBackend S) (Ad : MarketAdapter A)
    (w : world S A) (e : exn) (ad' : A) (fuel : nat) (market_id : option string)
    (limit : option Z) (cursor : option string) (flag : bool) :
  (fetch_markets limit cursor (w_adapter w) = (Raise e, ad') ->
   exists w',
     ingest_markets (Datatypes.S fuel) limit cursor flag w = (Raise e, w')
     /\ w_storage w' = w_storage w
     /\ w_calls w' = w_calls w ++ [FetchMarkets limit cursor])
  /\ (forall since,
        fetch_trades market_id (Some since) limit cursor (w_adapter w) = (Raise e, ad') ->
        exists w',
          ingest_trades (Datatypes.S fuel) market_id (Some since) limit cursor flag w
          = (Raise e, w')
          /\ w_storage w' = w_storage w
          /\ w_calls w' = w_calls w ++ [FetchTrades market_id (Some since) limit cursor])
  /\ (forall checkpoint st1,
        get_latest_checkpoint source_name "trades" (w_storage w) = (Ok checkpoint, st1) ->
        fetch_trades market_id checkpoint limit cursor (w_adapter w) = (Raise e, ad') ->
        exists w',
          ingest_trades (Datatypes.S fuel) market_id None limit cursor flag w = (Raise e, w')
          /\ w_storage w' = st1
          /\ w_calls w' = w_calls w ++ [GetLatestCheckpoint source_name "trades";
                                         FetchTrades market_id checkpoint limit cursor])
  /\ (forall since,
        fetch_price_snapshots market_id since (w_adapter w) = (Raise e, ad') ->
        exists w',
          ingest_price_snapshots market_id since flag w = (Raise e, w')
          /\ w_storage w' = w_storage w
          /\ w_calls w' = w_calls w ++ [FetchPriceSnapshots market_id since]).
Proof.
  split; [| split; [| split]].
  - intros Hfetch.
    unfold ingest_markets, log_duration, try_except, bind, on_adapter. simpl.
    rewrite Hfetch. simpl. eexists. repeat split.
  - intros since Hfetch.
    unfold ingest_trades, log_duration, try_except, bind, on_adapter. simpl.
    rewrite Hfetch. simpl. eexists. repeat split.
  - intros checkpoint st1 Hcheck Hfetch.
    unfold ingest_trades, log_duration, try_except, bind, on_adapter, on_storage, source. simpl.
    rewrite Hcheck.
    destruct checkpoint as [c |]; simpl; rewrite Hfetch; simpl;
      eexists; repeat split; simpl; now rewrite <- app_assoc.
  - intros since Hfetch.
    unfold ingest_price_snapshots, log_duration, try_except, bind, on_adapter. simpl.
    rewrite Hfetch. simpl. eexists. repeat split.
Qed.

(** X10 at the relational backend and an adapter whose client cannot
    reach the server. *)
Lemma fetch_failure_propagates_example :
  exists w',
    @ingest_markets _ _ postgres_backend (polymarket_adapter example_runtime)
      1 None None true (example_world (failing_adapter NetworkError))
    = (Raise NetworkError, w')
    /\ w_storage w' = PostgresStorage.empty
    /\ w_calls w' = [FetchMarkets None None].
Proof.
  apply (proj1 (fetch_failure_propagates _ _ postgres_backend
                  (polymarket_adapter example_runtime)
                  (example_world (failing_adapter NetworkError)) NetworkError
                  {| replies := []; now := datetime_of 2024 1 15 10 30 0 |}
                  0%nat None None None true)).
  reflexivity.
Defined.

(** ** Where pagination stops *)

Section OneFetch.
Context {S A : Type} `{StorageBackend S} `{MarketAdapter A}.
Context (allowed : call -> Prop).

(** An operation whose fetch returns: the fetch is recorded first, and
    what follows is what the rest of the body and the handler record. *)
Lemma fetch_then {X} (operation : string) (context : tags) (c : call)
    (fetch : A -> result page * A) (k : page -> M (world S A) X)
    (handler : exn -> M (world S A) X) (w : world S A) (p : page) (ad' : A) :
  fetch (w_adapter w) = (Ok p, ad') ->
  steps (extends_by allowed) (k p) ->
  (forall e, steps (extends_by allowed) (handler e)) ->
  exists extra,
    w_calls (snd (log_duration w_obs set_obs operation context
                    (try_except (bind (on_adapter c fetch) k) handler) w))
    = w_calls w ++ c :: extra
    /\ Forall allowed extra.
Proof.
  intros Hfetch Hk Hh.
  unfold log_duration, try_except, bind, on_adapter, set_obs. cbn [w_adapter w_obs w_calls].
  rewrite Hfetch.
  match goal with |- context [k p ?w1] =>
    specialize (Hk w1); destruct (k p w1) as [[x | e] w2] end.
  - destruct Hk as (extra & Hcalls & Hall). cbn [snd w_calls] in *.
    exists extra. split; [now rewrite Hcalls, <- app_assoc | exact Hall].
  - destruct Hk as (extra & Hcalls & Hall). cbn [snd w_calls] in *.
    specialize (Hh e w2). destruct (handler e w2) as [[x | e'] w3];
      destruct Hh as (extra' & Hcalls' & Hall'); cbn [snd w_calls] in *;
      exists (extra ++ extra');
      (split; [rewrite Hcalls', Hcalls, <- !app_assoc; reflexivity | now apply Forall_app]).
Qed.
End OneFetch.

(** Discharging the steps that only log, count, return or raise. *)
Ltac steps_with Hrefl Htrans Hobs :=
  repeat first
    [ apply steps_ret; exact Hrefl
    | apply steps_raise; exact Hrefl
    | apply steps_logger; exact Hobs
    | apply steps_metrics_increment; exact Hobs
    | apply steps_bind; [exact Htrans | | intros ?]
    | apply steps_map_m; [exact Hrefl | exact Htrans | intros ?] ].

(** X11. Pagination follows the next-page cursor only if the cursor is a
    non-empty string and, when a limit is given, the page holds exactly
    [limit] records. For every storage backend and adapter: if the fetched
    page has no cursor or an empty one, or a limit is given and the page's
    length differs from it, then the markets run and the trades run make
    this one fetch and no other, whatever normalization and storage do. A
    short page therefore ends the run even when the server announced a
    further page. *)
Theorem short_page_ends_pagination (S A : Type) (B : StorageBackend S) (Ad : MarketAdapter A)
    (w : world S A) (p : page) (ad' : A) (fuel : nat) (market_id : option string)
    (limit : option Z) (cursor : option string) (flag : bool) :
  cursor_truthy (nextCursor p) = false
  \/ (exists n, limit = Some n /\ Z.of_nat (length (data p)) <> n) ->
  (fetch_markets limit cursor (w_adapter w) = (Ok p, ad') ->
   exists extra,
     w_calls (snd (ingest_markets (Datatypes.S fuel) limit cursor flag w))
     = w_calls w ++ FetchMarkets limit cursor :: extra
     /\ Forall (fun c => is_fetch c = false) extra)
  /\ (forall since,
        fetch_trades market_id (Some since) limit cursor (w_adapter w) = (Ok p, ad') ->
        exists extra,
          w_calls (snd (ingest_trades (Datatypes.S fuel) market_id (Some since) limit cursor
                          flag w))
          = w_calls w ++ FetchTrades market_id (Some since) limit cursor :: extra
          /\ Forall (fun c => is_fetch c = false) extra).
Proof.
  intros Hstop.
  assert (Hcond : forall raws : list raw_dict,
             raws = data p ->
             cursor_truthy (nextCursor p)
             && match limit with
                | None => true
                | Some n => Z.of_nat (length raws) =? n
                end = false).
  { intros raws ->. destruct Hstop as [-> | (n & -> & Hlen)]; [reflexivity |].
    apply Z.eqb_neq in Hlen. rewrite Hlen. apply andb_false_r. }
  set (R := extends_by (S := S) (A := A) (fun c => is_fetch c = false)).
  assert (Hrefl : forall a, R a a) by apply extends_by_refl.
  assert (Htrans : forall a b c, R a b -> R b c -> R a c) by apply extends_by_trans.
  assert (Hobs : forall o a, R a (set_obs o a)) by apply extends_by_obs.
  assert (Hraw : forall endpoint,
             steps R (if flag then
                        do! request_id <- on_storage
                                            (StoreRaw source endpoint
                                               (VDict [("data", raw_list (data p));
                                                       ("cursor", opt_str_value cursor)]))
                                            (store_raw source endpoint
                                               (VDict [("data", raw_list (data p));
                                                       ("cursor", opt_str_value cursor)]) VNone);
                        logger Debug (("ingestion." +:+ endpoint) +:+ ".raw_stored")
                          [("request_id", FVal (VStr request_id));
                           ("count", FVal (VInt (Z.of_nat (length (data p)))))]
                      else ret tt)).
  { intros endpoint. destruct flag; [| now apply steps_ret].
    apply steps_bind; [exact Htrans | now apply on_storage_extends |].
    intros request_id. now apply steps_logger. }
  split.
  - intros Hfetch. cbn [ingest_markets].
    apply (fetch_then _ _ _ _ _ _ _ w p ad' Hfetch);
      [| intros e; steps_with Hrefl Htrans Hobs].
    destruct (data p) as [| raw raws] eqn:Hdata; [steps_with Hrefl Htrans Hobs |].
    rewrite (Hcond (raw :: raws) eq_refl).
    apply steps_bind; [exact Htrans | exact (Hraw "markets") | intros _].
    steps_with Hrefl Htrans Hobs;
      first [now apply on_adapter_extends | now apply on_storage_extends].
  - intros since Hfetch. cbn [ingest_trades].
    match goal with |- context [bind (ret ?x) ?k] => change (bind (ret x) k) with (k x) end.
    cbn beta.
    apply (fetch_then _ _ _ _ _ _ _ w p ad' Hfetch);
      [| intros e; steps_with Hrefl Htrans Hobs].
    destruct (data p) as [| raw raws] eqn:Hdata; [steps_with Hrefl Htrans Hobs |].
    rewrite (Hcond (raw :: raws) eq_refl).
    apply steps_bind; [exact Htrans | exact (Hraw "trades") | intros _].
    steps_with Hrefl Htrans Hobs;
      first [now apply on_adapter_extends | now apply on_storage_extends | idtac].
    apply steps_advance_checkpoint; [exact Hrefl | exact Htrans |].
    intros timestamp. now apply on_storage_extends.
Qed.

(** X11 at a page of one record fetched with limit 2 that announces a
    second page. *)
Lemma short_page_ends_pagination_example :
  exists extra,
    w_calls (snd (@ingest_markets _ _ postgres_backend (polymarket_adapter example_runtime)
                    2 (Some 2) None false
                    (example_world (announced_page [untimed_trade_payload]))))
    = FetchMarkets (Some 2) None :: extra
    /\ Forall (fun c => is_fetch c = false) extra.
Proof.
  refine (proj1 (short_page_ends_pagination _ _ postgres_backend
                   (polymarket_adapter example_runtime)
                   (example_world (announced_page [untimed_trade_payload]))
                   {| data := [untimed_trade_payload]; nextCursor := Some "page-2" |}
                   {| replies := []; now := datetime_of 2024 1 15 10 30 0 |}
                   1%nat None (Some 2) None false _) _).
  - right. exists 2. split; [reflexivity | vm_compute; discriminate].
  - reflexivity.
Defined.

(** ** Equations for the steps of a run *)

Section RunEquations.
Context {S A : Type} `{StorageBackend S} `{MarketAdapter A}.

Lemma bind_ok {X Y} (m : M (world S A) X) (k : X -> M (world S A) Y) (w w' : world S A)
    (x : X) :
  m w = (Ok x, w') -> bind m k w = k x w'.
Proof. intros Hm. unfold bind. now rewrite Hm. Qed.

Lemma on_storage_eq {X} (c : call) (op : S -> result X * S) (w : world S A)
    (r : result X) (st : S) :
  op (w_storage w) = (r, st) ->
  on_storage c op w = (r, {| w_storage := st; w_adapter := w_adapter w; w_obs := w_obs w;
                             w_calls := w_calls w ++ [c] |}).
Proof. intros Hop. unfold on_storage. now rewrite Hop. Qed.

Lemma on_adapter_eq {X} (c : call) (op : A -> result X * A) (w : world S A)
    (r : result X) (ad : A) :
  op (w_adapter w) = (r, ad) ->
  on_adapter c op w = (r, {| w_storage := w_storage w; w_adapter := ad; w_obs := w_obs w;
                             w_calls := w_calls w ++ [c] |}).
Proof. intros Hop. unfold on_adapter. now rewrite Hop. Qed.

(** Normalizing a page with a normalizer that does not touch the adapter. *)
Lemma map_m_normalize {X} (mk : raw_dict -> call) (normalize : raw_dict -> A -> result X * A)
    (norm : raw_dict -> result X) (raws : list raw_dict) (normalized : list X) :
  (forall raw ad, normalize raw ad = (norm raw, ad)) ->
  Forall2 (fun raw t => norm raw = Ok t) raws normalized ->
  forall w : world S A,
    map_m (fun raw => on_adapter (mk raw) (normalize raw)) raws w
    = (Ok normalized,
       {| w_storage := w_storage w; w_adapter := w_adapter w; w_obs := w_obs w;
          w_calls := w_calls w ++ map mk raws |}).
Proof.
  intros Hpure Hall. induction Hall as [| raw t raws normalized Ht Hall IH]; intros w.
  - destruct w. simpl. unfold ret. now rewrite app_nil_r.
  - assert (Hn : normalize raw (w_adapter w) = (Ok t, w_adapter w))
      by (now rewrite Hpure, Ht).
    cbn [map_m]. rewrite (bind_ok _ _ _ _ _ (on_adapter_eq (mk raw) _ _ _ _ Hn)).
    cbn beta. rewrite (bind_ok _ _ _ _ _ (IH _)). unfold ret.
    cbn [w_storage w_adapter w_obs w_calls map]. now rewrite <- app_assoc.
Qed.
End RunEquations.

Section FromCheckpoint.
Context {S A : Type} `{StorageBackend S} `{MarketAdapter A}.

End FromCheckpoint.

Section Unreadable.
Context {S A : Type} `{StorageBackend S} `{MarketAdapter A}.

End Unreadable.



(** * Further properties of the HTTP client *)

Module ClientAccounting.
Import PolymarketClient.

(** A 2xx attempt whose body decodes. *)
Lemma request_once_success (method url : string) (c : t) (status : Z) (text : string)
    (v : value) :
  transport c (requests_made c) = Response status text (Ok v) ->
  (200 <=? status) && (status <? 300) = true ->
  fst (request_once method url c) = Ok v
  /\ get_counter "api.requests.success" [("method", Some method)]
       (obs (snd (request_once method url c)))
     = get_counter "api.requests.success" [("method", Some method)] (obs c) + 1.
Proof.
  intros Hreply Hstatus. ClientFacts.unfold_attempt.
  rewrite Hreply, Hstatus. ClientFacts.unfold_attempt. split; [reflexivity |].
  rewrite get_counter_gauge, get_counter_emit, get_counter_increment, get_counter_emit.
  reflexivity.
Qed.

(** An attempt that fails with a transient transport error. *)
Lemma request_once_transient (method url : string) (c : t) (e : exn) :
  transport c (requests_made c) = Raises e ->
  retry_if e = true ->
  fst (request_once method url c) = Raise e
  /\ get_counter "api.requests.success" [("method", Some method)]
       (obs (snd (request_once method url c)))
     = get_counter "api.requests.success" [("method", Some method)] (obs c).
Proof.
  intros Hreply Hretry. ClientFacts.unfold_attempt.
  rewrite Hreply. destruct e; try discriminate; ClientFacts.unfold_attempt;
    (split; [reflexivity |]);
    rewrite get_counter_increment_other by (simpl; discriminate);
    rewrite get_counter_emit;
    rewrite get_counter_increment_other by (simpl; discriminate);
    now rewrite get_counter_emit.
Qed.

(** A 2xx attempt whose body does not decode: the success counter has
    been incremented when [response.json()] raises into the handler. *)
Lemma request_once_undecodable (method url : string) (c : t) (status : Z) (text : string)
    (e : exn) :
  transport c (requests_made c) = Response status text (Raise e) ->
  (200 <=? status) && (status <? 300) = true ->
  (forall s t, e <> HTTPStatusError s t) ->
  fst (request_once method url c) = Raise e
  /\ get_counter "api.requests.success" [("method", Some method)]
       (obs (snd (request_once method url c)))
     = get_counter "api.requests.success" [("method", Some method)] (obs c) + 1
  /\ get_counter "api.requests.error" [("error_type", Some (exn_name e))]
       (obs (snd (request_once method url c)))
     = get_counter "api.requests.error" [("error_type", Some (exn_name e))] (obs c) + 1.
Proof.
  intros Hreply Hstatus Hnot. ClientFacts.unfold_attempt.
  rewrite Hreply, Hstatus. ClientFacts.unfold_attempt.
  destruct e; try (exfalso; eapply Hnot; reflexivity); ClientFacts.unfold_attempt;
    (split; [reflexivity |]); split.
  all: try (rewrite get_counter_increment_other by (simpl; discriminate);
            rewrite get_counter_emit;
            rewrite get_counter_increment_other by (simpl; discriminate);
            rewrite get_counter_increment, get_counter_emit; reflexivity).
  all: rewrite get_counter_increment_other by (simpl; discriminate);
       rewrite get_counter_emit, get_counter_increment;
       rewrite get_counter_increment_other by (simpl; discriminate);
       now rewrite get_counter_emit.
Qed.

(** Attempts that fail with a transient error, then one that succeeds. *)
Lemma retrying_recovers (method url : string) (status : Z) (text : string) (v : value)
    (failures : nat) :
  forall (further : nat) (c : t),
    (failures <= further)%nat ->
    (forall i, (i < failures)%nat ->
               exists e, transport c (requests_made c + i)%nat = Raises e
                         /\ retry_if e = true) ->
    transport c (requests_made c + failures)%nat = Response status text (Ok v) ->
    (200 <=? status) && (status <? 300) = true ->
    fst (retrying further method url c) = Ok v
    /\ requests_made (snd (retrying further method url c))
       = (requests_made c + failures + 1)%nat
    /\ get_counter "api.requests.success" [("method", Some method)]
         (obs (snd (retrying further method url c)))
       = get_counter "api.requests.success" [("method", Some method)] (obs c) + 1.
Proof.
  induction failures as [| failures IH]; intros further c Hle Hfail Hok Hstatus;
    pose proof (ClientFacts.request_once_result method url c) as (_ & Hmade & Htr).
  - rewrite Nat.add_0_r in Hok.
    destruct (request_once_success method url c status text v Hok Hstatus) as [Hfst Hcount].
    destruct further; simpl retrying;
      destruct (request_once method url c) as [r c1]; simpl in *; subst r; simpl;
      (split; [reflexivity |]); split; try assumption; lia.
  - destruct (Hfail 0%nat) as (e & Hreply & Hretry); [lia |].
    rewrite Nat.add_0_r in Hreply.
    destruct (request_once_transient method url c e Hreply Hretry) as [Hfst Hcount].
    destruct further as [| further]; [lia |]. simpl retrying.
    destruct (request_once method url c) as [r c1]; simpl in *; subst r. rewrite Hretry.
    destruct (IH further c1) as (Hres & Hn & Hsucc); [lia | | | exact Hstatus |].
    + intros i Hi. destruct (Hfail (Datatypes.S i)) as (e' & He' & Hre'); [lia |].
      exists e'. rewrite Htr, Hmade.
      replace (Datatypes.S (requests_made c) + i)%nat
        with (requests_made c + Datatypes.S i)%nat by lia. auto.
    + rewrite Htr, Hmade.
      replace (Datatypes.S (requests_made c) + failures)%nat
        with (requests_made c + Datatypes.S failures)%nat by lia. exact Hok.
    + split; [exact Hres |]. split; [rewrite Hn, Hmade; lia |].
      rewrite Hsucc, Hcount. reflexivity.
Qed.
End ClientAccounting.

(** X13. A request recovers from transient failures. If the first
    [failures] attempts, at most two, fail with [TimeoutException] or
    [NetworkError] and the next one is answered with a 2xx status and a
    body that decodes to [v], then [_request] returns [v], has made
    [failures + 1] requests, and has incremented the success counter
    tagged with the method exactly once: the failed attempts do not
    count as successes. *)
Theorem request_recovers (method url : string) (c : PolymarketClient.t) (failures : nat)
    (status : Z) (text : string) (v : value) :
  (failures <= 2)%nat ->
  (forall i, (i < failures)%nat ->
             PolymarketClient.transport c (PolymarketClient.requests_made c + i)%nat
             = PolymarketClient.Raises TimeoutException
             \/ PolymarketClient.transport c (PolymarketClient.requests_made c + i)%nat
                = PolymarketClient.Raises NetworkError) ->
  PolymarketClient.transport c (PolymarketClient.requests_made c + failures)%nat
  = PolymarketClient.Response status text (Ok v) ->
  (200 <=? status) && (status <? 300) = true ->
  fst (PolymarketClient._request method url c) = Ok v
  /\ PolymarketClient.requests_made (snd (PolymarketClient._request method url c))
     = (PolymarketClient.requests_made c + failures + 1)%nat
  /\ get_counter "api.requests.success" [("method", Some method)]
       (PolymarketClient.obs (snd (PolymarketClient._request method url c)))
     = get_counter "api.requests.success" [("method", Some method)]
         (PolymarketClient.obs c) + 1.
Proof.
  intros Hle Hfail Hok Hstatus.
  apply (ClientAccounting.retrying_recovers method url status text v failures 2 c Hle);
    [| exact Hok | exact Hstatus].
  intros i Hi. destruct (Hfail i Hi) as [-> | ->]; eexists; split; reflexivity.
Qed.

(** X14. A 2xx response whose body is not JSON is counted as a success
    and as an error. [_request] increments ["api.requests.success"] before
    it decodes the body, and the exception of [response.json()] is caught
    by the generic handler. So for a body whose decoding raises [e]
    (neither a transient transport error nor a status error): the request
    raises [e] itself, unwrapped, after a single attempt, and both the
    success counter tagged with the method and the error counter tagged
    with the exception's type name have been incremented by one. *)
Theorem undecodable_body_counted_twice (method url : string) (c : PolymarketClient.t)
    (status : Z) (text : string) (e : exn) :
  PolymarketClient.transport c (PolymarketClient.requests_made c)
  = PolymarketClient.Response status text (Raise e) ->
  (200 <=? status) && (status <? 300) = true ->
  PolymarketClient.retry_if e = false ->
  (forall s t, e <> HTTPStatusError s t) ->
  fst (PolymarketClient._request method url c) = Raise e
  /\ PolymarketClient.requests_made (snd (PolymarketClient._request method url c))
     = Datatypes.S (PolymarketClient.requests_made c)
  /\ get_counter "api.requests.success" [("method", Some method)]
       (PolymarketClient.obs (snd (PolymarketClient._request method url c)))
     = get_counter "api.requests.success" [("method", Some method)]
         (PolymarketClient.obs c) + 1
  /\ get_counter "api.requests.error" [("error_type", Some (exn_name e))]
       (PolymarketClient.obs (snd (PolymarketClient._request method url c)))
     = get_counter "api.requests.error" [("error_type", Some (exn_name e))]
         (PolymarketClient.obs c) + 1.
Proof.
  intros Hreply Hstatus Hretry Hnot.
  pose proof (ClientFacts.request_once_result method url c) as (_ & Hmade & _).
  destruct (ClientAccounting.request_once_undecodable method url c status text e
              Hreply Hstatus Hnot) as (Hfst & Hsucc & Herr).
  unfold PolymarketClient._request. simpl PolymarketClient.retrying.
  destruct (PolymarketClient.request_once method url c) as [r c1]. simpl in *. subst r.
  rewrite Hretry. simpl. auto.
Qed.

(** X13 at a client whose first request times out and whose second cannot
    connect. *)
Lemma request_recovers_example :
  fst (PolymarketClient._request "POST" PolymarketClient.GRAPHQL_URL flaky) = Ok (VDict [])
  /\ PolymarketClient.requests_made
       (snd (PolymarketClient._request "POST" PolymarketClient.GRAPHQL_URL flaky)) = 3%nat.
Proof.
  destruct (request_recovers "POST" PolymarketClient.GRAPHQL_URL flaky 2 200 "{}" (VDict []))
    as (Hfst & Hmade & _).
  - lia.
  - intros [| [| i]] Hi; [left; reflexivity | right; reflexivity | lia].
  - reflexivity.
  - reflexivity.
  - split; [exact Hfst | exact Hmade].
Defined.

(** X14 at a server that answers 200 with an HTML page. *)
Lemma undecodable_body_counted_twice_example :
  fst (PolymarketClient._request "POST" PolymarketClient.GRAPHQL_URL garbled)
  = Raise JSONDecodeError
  /\ get_counter "api.requests.success" [("method", Some "POST")]
       (PolymarketClient.obs
          (snd (PolymarketClient._request "POST" PolymarketClient.GRAPHQL_URL garbled))) = 1
  /\ get_counter "api.requests.error" [("error_type", Some "JSONDecodeError")]
       (PolymarketClient.obs
          (snd (PolymarketClient._request "POST" PolymarketClient.GRAPHQL_URL garbled))) = 1.
Proof.
  destruct (undecodable_body_counted_twice "POST" PolymarketClient.GRAPHQL_URL garbled
              200 "<html>" JSONDecodeError)
    as (Hfst & _ & Hsucc & Herr).
  - reflexivity.
  - reflexivity.
  - reflexivity.
  - discriminate.
  - split; [exact Hfst |]. split; [exact Hsucc | exact Herr].
Defined.

(** * Further properties of the command line *)

(** Between midnights the order is the order of the dates. *)
Lemma dt_ltb_midnight (a b : datetime) :
  is_midnight a -> is_midnight b -> dt_ltb a b = (ordinal a <? ordinal b).
Proof.
  intros (Ha1 & Ha2 & Ha3 & Ha4) (Hb1 & Hb2 & Hb3 & Hb4).
  unfold dt_ltb, dt_tuple. simpl. rewrite Ha1, Ha2, Ha3, Ha4, Hb1, Hb2, Hb3, Hb4. simpl.
  rewrite !andb_false_r, !orb_false_r. reflexivity.
Qed.

(** From a midnight before the end's date, the day's end is not clamped
    and the cursor moves to the next midnight. *)
Lemma midnight_next_day (current end_dt : datetime) :
  is_midnight current -> ordinal current < ordinal end_dt ->
  following_day (day_end current end_dt) = add_days current 1
  /\ is_midnight (add_days current 1).
Proof.
  intros (H1 & H2 & H3 & H4) Hlt. unfold following_day, day_end.
  assert (Hclamp : dt_ltb end_dt (replace_hms current 23 59 59) = false).
  { unfold dt_ltb, dt_tuple. simpl.
    replace (ordinal end_dt <? ordinal current) with false by (symmetry; apply Z.ltb_ge; lia).
    replace (ordinal end_dt =? ordinal current) with false by (symmetry; apply Z.eqb_neq; lia).
    reflexivity. }
  rewrite Hclamp. unfold add_days, replace_hms, is_midnight. simpl.
  rewrite H1, H2, H3. auto.
Qed.

Section BackfillOutcomes.
Context (rt : runtime) {E : Type} `{CliEnv E}.

(** The loop between midnights: one engine call per day, day after day,
    until the end or the first failure, and none after it. *)
Lemma backfill_loop_outcomes (market_id : option string) (no_raw : bool) (end_dt : datetime)
    (fuel : nat) :
  is_midnight end_dt ->
  forall (current : datetime) (total : Z) (evs : list cli_event) (e : E)
         (r : result Z) (evs' : list cli_event) (e' : E),
    is_midnight current ->
    backfill_loop fuel market_id no_raw end_dt current total evs e = Some (r, evs', e') ->
    exists n : nat,
      List.filter is_ingest_event evs'
      = List.filter is_ingest_event evs ++ day_calls market_id (negb no_raw) current n
      /\ Z.of_nat n <= Z.max 0 (ordinal end_dt - ordinal current)
      /\ match r with
         | Ok total' =>
             Z.of_nat n = Z.max 0 (ordinal end_dt - ordinal current)
             /\ Forall (fun o => is_ok o = true)
                  (day_outcomes market_id (negb no_raw) current n e)
             /\ total' = total + sum_ok (day_outcomes market_id (negb no_raw) current n e)
         | Raise x =>
             exists returned,
               day_outcomes market_id (negb no_raw) current n e = returned ++ [Raise x]
               /\ Forall (fun o => is_ok o = true) returned
         end.
Proof.
  intros Hend. induction fuel as [| fuel IH];
    intros current total evs e r evs' e' Hcur; simpl;
    rewrite (dt_ltb_midnight _ _ Hcur Hend);
    destruct (ordinal current <? ordinal end_dt) eqn:Hlt.
  - discriminate.
  - intros [= <- <- <-]. exists 0%nat. apply Z.ltb_ge in Hlt.
    cbn [day_calls day_outcomes]. rewrite app_nil_r. split; [reflexivity |]. split; [lia |].
    split; [lia |]. split; [constructor |]. unfold sum_ok. simpl. lia.
  - apply Z.ltb_lt in Hlt.
    destruct (midnight_next_day current end_dt Hcur Hlt) as [Hnext Hmid].
    destruct (engine_ingest_trades market_id (Some current) None (negb no_raw) e)
      as [[count | x] e1] eqn:Hcall.
    + rewrite Hnext. intros Hloop.
      apply (IH _ _ _ _ _ _ _ Hmid) in Hloop as (n & Hevs & Hle & Hr).
      unfold add_days in Hle, Hr at 1. cbn [ordinal] in Hle, Hr.
      exists (Datatypes.S n). rewrite Hevs, !filter_app_bool.
      cbn [List.filter is_ingest_event day_calls day_outcomes app].
      rewrite Hcall.
      rewrite app_nil_r, <- app_assoc. cbn [app].
      split; [reflexivity |]. split; [lia |].
      destruct r as [total' | x].
      * destruct Hr as (Hn & Hall & Htotal). split; [lia |].
        split; [constructor; [reflexivity | exact Hall] |].
        unfold sum_ok in *. cbn [fold_right]. lia.
      * destruct Hr as (returned & Hout & Hall).
        exists (Ok count :: returned). rewrite Hout. split; [reflexivity |].
        constructor; [reflexivity | exact Hall].
    + intros [= <- <- <-]. exists 1%nat. rewrite filter_app_bool.
      cbn [List.filter is_ingest_event day_calls day_outcomes app]. rewrite Hcall.
      split; [reflexivity |]. split; [lia |].
      exists []. split; [reflexivity | constructor].
  - intros [= <- <- <-]. exists 0%nat. apply Z.ltb_ge in Hlt.
    cbn [day_calls day_outcomes]. rewrite app_nil_r. split; [reflexivity |]. split; [lia |].
    split; [lia |]. split; [constructor |]. unfold sum_ok. simpl. lia.
Qed.
End BackfillOutcomes.

(** X15. A trades backfill between two dates makes one engine call per
    calendar day and stops at the first day whose ingestion raises. For
    start and end at midnight, start before end, and a storage constructor
    that succeeds: the command terminates; its engine calls are
    [ingest_trades] with [since] at midnight of the start day, of the next
    day, and so on, [n] consecutive days with no day skipped or repeated,
    each with the market given, no limit and [store_raw] the negation of
    [--no-raw]; [n] is at least one and at most the number of days from
    start to end. Either every one of these calls returned, [n] is the
    number of days from start to end, the total reported is the sum of
    the counts returned and the exit code is 0; or the call of day [n]
    raised after those of the days before had returned, no later day was
    attempted, its error is reported and the exit code is 1. In both cases
    the last thing the command does is close the adapter. The end of a
    day's window is never passed to the engine. *)
Theorem backfill_one_ingestion_per_day (rt : runtime) (E : Type) (Env : CliEnv E) (e : E)
    (start end_ : string) (start_dt end_dt : datetime) (market_id : option string)
    (no_raw : bool) :
  parse_date rt start = Ok start_dt ->
  parse_date rt end_ = Ok end_dt ->
  is_midnight start_dt ->
  is_midnight end_dt ->
  dt_ltb start_dt end_dt = true ->
  is_ok (fst (storage_bootstrap e)) = true ->
  exists f (n : nat) before,
    backfill rt start end_ true market_id no_raw e = Some f
    /\ List.filter is_ingest_event (events f) = day_calls market_id (negb no_raw) start_dt n
    /\ 1 <= Z.of_nat n <= ordinal end_dt - ordinal start_dt
    /\ (let outcomes :=
          day_outcomes market_id (negb no_raw) start_dt n (snd (storage_bootstrap e)) in
        (exit_code f = 0
         /\ Z.of_nat n = ordinal end_dt - ordinal start_dt
         /\ Forall (fun o => is_ok o = true) outcomes
         /\ events f = before ++ [Echo false (MsgBackfillComplete (sum_ok outcomes));
                                  AdapterClosed])
        \/ (exists returned x,
              exit_code f = 1
              /\ outcomes = returned ++ [Raise x]
              /\ Forall (fun o => is_ok o = true) returned
              /\ events f = before ++ [Echo true (MsgError x); AdapterClosed])).
Proof.
  intros Hstart Hend Hms Hme Hlt Hboot. unfold backfill, get_storage.
  destruct (storage_bootstrap e) as [[[] | x] e1]; [| discriminate].
  rewrite Hstart, Hend. simpl. unfold dt_leb. rewrite Hlt. simpl.
  destruct (backfill_loop_terminates market_id no_raw end_dt
              (backfill_fuel start_dt end_dt) start_dt 0
              [DbConnect; DbSelectText; DbCreateAll; AdapterCreated] e1)
    as ([[r evs'] e2] & Hloop).
  { unfold backfill_fuel. apply dt_ltb_ordinal in Hlt. lia. }
  rewrite Hloop.
  destruct (backfill_loop_outcomes market_id no_raw end_dt _ Hme _ _ _ _ _ _ _ Hms Hloop)
    as (n & Hevs & Hle & Hr).
  rewrite (dt_ltb_midnight _ _ Hms Hme) in Hlt. apply Z.ltb_lt in Hlt.
  simpl in Hevs.
  destruct r as [total | x].
  - destruct Hr as (Hn & Hall & Htotal).
    eexists. exists n, evs'.
    split; [reflexivity |]. unfold exit_with. cbn [events exit_code].
    rewrite filter_app_bool, Hevs. cbn [List.filter is_ingest_event app].
    rewrite app_nil_r. split; [reflexivity |]. split; [lia |].
    left. split; [reflexivity |]. split; [lia |]. split; [exact Hall |].
    rewrite Htotal. reflexivity.
  - destruct Hr as (returned & Hout & Hall).
    assert (Hn : (1 <= n)%nat).
    { destruct n; [| lia]. cbn [day_outcomes] in Hout. now destruct returned. }
    eexists. exists n, evs'.
    split; [reflexivity |]. unfold exit_with. cbn [events exit_code].
    rewrite filter_app_bool, Hevs. cbn [List.filter is_ingest_event app].
    rewrite app_nil_r. split; [reflexivity |]. split; [lia |].
    right. exists returned, x. repeat split; assumption.
Qed.

(** X15 at a backfill of the first three days of 2024 whose second day
    fails: two engine calls, the third day is never attempted. *)
Lemma backfill_one_ingestion_per_day_example :
  exists f before,
    backfill example_runtime "2024-01-01" "2024-01-04" true None false
      (stub_engine [Ok 5; Raise NetworkError; Ok 7]) = Some f
    /\ List.filter is_ingest_event (events f)
       = [IngestTrades None (Some (datetime_of 2024 1 1 0 0 0)) None true;
          IngestTrades None (Some (datetime_of 2024 1 2 0 0 0)) None true]
    /\ exit_code f = 1
    /\ events f = before ++ [Echo true (MsgError NetworkError); AdapterClosed]
    /\ env f = stub_engine [Ok 7].
Proof.
  destruct (backfill_one_ingestion_per_day example_runtime StubEngine stub_env
              (stub_engine [Ok 5; Raise NetworkError; Ok 7]) "2024-01-01" "2024-01-04"
              (datetime_of 2024 1 1 0 0 0) (datetime_of 2024 1 4 0 0 0) None false)
    as (f & n & before & Hf & Hcalls & Hn & Hout);
    [reflexivity | reflexivity | repeat split | repeat split | reflexivity | reflexivity |].
  assert (Hf' := Hf). vm_compute in Hf'. injection Hf' as Hf'.
  assert (n = 2%nat) as ->.
  { rewrite <- Hf' in Hcalls. vm_compute in Hcalls.
    destruct n as [| [| [| n]]]; vm_compute in Hcalls; try discriminate. reflexivity. }
  exists f, before. split; [exact Hf |].
  split; [rewrite Hcalls; reflexivity |].
  destruct Hout as [(Hcode & _) | (returned & x & Hcode & Houtcomes & _ & Hevents)].
  - rewrite <- Hf' in Hcode. discriminate.
  - vm_compute in Houtcomes.
    assert (x = NetworkError) as ->.
    { destruct returned as [| a [| b [| c returned]]]; simpl in Houtcomes;
        try discriminate; congruence. }
    split; [exact Hcode |]. split; [exact Hevents |]. rewrite <- Hf'. reflexivity.
Defined.

(** * Further properties of the metrics registry *)

(** ** Metric keys *)

(** The order on tag names is a total order. *)
Lemma leb_trans (a b c : string) :
  String.leb a b = true -> String.leb b c = true -> String.leb a c = true.
Proof.
  unfold String.leb.
  destruct (String.compare a b) eqn:Hab; try discriminate;
    destruct (String.compare b c) eqn:Hbc; try discriminate; intros _ _.
  - apply OrderedTypeEx.String_as_OT.cmp_eq in Hab, Hbc. subst.
    pose proof (proj2 (OrderedTypeEx.String_as_OT.cmp_eq c c) eq_refl) as Hcc.
    unfold OrderedTypeEx.String_as_OT.cmp in Hcc. now rewrite Hcc.
  - apply OrderedTypeEx.String_as_OT.cmp_eq in Hab. subst. now rewrite Hbc.
  - apply OrderedTypeEx.String_as_OT.cmp_eq in Hbc. subst. now rewrite Hab.
  - apply OrderedTypeEx.String_as_OT.cmp_lt in Hab, Hbc.
    pose proof (OrderedTypeEx.String_as_OT.lt_trans _ _ _ Hab Hbc) as Hac.
    apply OrderedTypeEx.String_as_OT.cmp_lt in Hac.
    unfold OrderedTypeEx.String_as_OT.cmp in Hac. now rewrite Hac.
Qed.

Lemma leb_false (a b : string) : String.leb a b = false -> String.leb b a = true.
Proof. intros Hab. destruct (String.leb_total a b) as [H | H]; congruence. Qed.

(** Inserting two tags with different names, in either order. *)
Lemma insert_sorted_comm (a b : string * option string) (l : tags) :
  fst a <> fst b ->
  insert_sorted a (insert_sorted b l) = insert_sorted b (insert_sorted a l).
Proof.
  intros Hne.
  assert (Hab : String.leb (fst a) (fst b) = true -> String.leb (fst b) (fst a) = false).
  { intros H1. destruct (String.leb (fst b) (fst a)) eqn:H2; [| reflexivity].
    exfalso. apply Hne. now apply String.leb_antisym. }
  induction l as [| c l IH]; simpl.
  - destruct (String.leb (fst a) (fst b)) eqn:H1.
    + now rewrite (Hab eq_refl).
    + now rewrite (leb_false _ _ H1).
  - destruct (String.leb (fst b) (fst c)) eqn:Hbc, (String.leb (fst a) (fst c)) eqn:Hac; simpl.
    + destruct (String.leb (fst a) (fst b)) eqn:H1.
      * rewrite (Hab eq_refl), Hbc. reflexivity.
      * rewrite (leb_false _ _ H1), Hac. reflexivity.
    + assert (H1 : String.leb (fst a) (fst b) = false).
      { destruct (String.leb (fst a) (fst b)) eqn:H1; [| reflexivity].
        rewrite (leb_trans _ _ _ H1 Hbc) in Hac. discriminate. }
      rewrite H1, Hac, Hbc. reflexivity.
    + assert (H1 : String.leb (fst b) (fst a) = false).
      { destruct (String.leb (fst b) (fst a)) eqn:H1; [| reflexivity].
        rewrite (leb_trans _ _ _ H1 Hac) in Hbc. discriminate. }
      rewrite H1, Hac, Hbc. reflexivity.
    + rewrite Hac, Hbc, IH. reflexivity.
Qed.

Lemma sorted_items_perm (tg tg' : tags) :
  Permutation tg tg' -> NoDup (map fst tg) -> sorted_items tg = sorted_items tg'.
Proof.
  unfold sorted_items. induction 1 as [| x l l' Hp IH | x y l | l l' l'' Hp1 IH1 Hp2 IH2];
    intros Hnd; simpl.
  - reflexivity.
  - apply NoDup_cons in Hnd as [_ Hnd]. now rewrite IH.
  - apply insert_sorted_comm. simpl in Hnd.
    apply NoDup_cons in Hnd as [Hnotin _]. intros Heq. apply Hnotin.
    rewrite Heq. apply elem_of_cons. now left.
  - rewrite IH1 by assumption. apply IH2.
    pose proof (Permutation_map fst Hp1) as Hm. now rewrite <- Hm.
Qed.

(** X16. The order in which tags are given does not matter. Two tag
    maps with the same entries (tag names being distinct, as the keys of a
    dict are) are formatted to the same metric key, whatever the order of
    their entries; so a counter incremented under one of them and read
    under the other shows the increment. *)
Theorem tag_order_does_not_matter (metric : string) (tg tg' : tags) (v : Z) (o : Obs) :
  Permutation tg tg' ->
  NoDup (map fst tg) ->
  _format_key metric tg = _format_key metric tg'
  /\ get_counter metric tg' (increment metric v tg o) = get_counter metric tg o + v.
Proof.
  intros Hp Hnd.
  assert (Hkey : _format_key metric tg = _format_key metric tg').
  { unfold _format_key. rewrite (sorted_items_perm tg tg' Hp Hnd).
    destruct tg as [| x tg], tg' as [| y tg']; try reflexivity.
    - now apply Permutation_nil_cons in Hp.
    - symmetry in Hp. now apply Permutation_nil_cons in Hp. }
  split; [exact Hkey |].
  unfold get_counter at 1. rewrite <- Hkey. apply get_counter_increment.
Qed.

(** X16 at the tags of a trades operation, given in two orders. *)
Lemma tag_order_does_not_matter_example :
  _format_key "ingestion.trades.errors" [("source", Some "polymarket"); ("market_id", None)]
  = _format_key "ingestion.trades.errors" [("market_id", None); ("source", Some "polymarket")]
  /\ get_counter "ingestion.trades.errors" [("market_id", None); ("source", Some "polymarket")]
       (increment "ingestion.trades.errors" 1
          [("source", Some "polymarket"); ("market_id", None)] obs_empty)
     = get_counter "ingestion.trades.errors"
         [("source", Some "polymarket"); ("market_id", None)] obs_empty + 1.
Proof.
  apply (tag_order_does_not_matter "ingestion.trades.errors"
           [("source", Some "polymarket"); ("market_id", None)]
           [("market_id", None); ("source", Some "polymarket")] 1 obs_empty).
  - apply perm_swap.
  - apply NoDup_cons_2; [| apply NoDup_singleton].
    intros Hin. apply list_elem_of_singleton in Hin. discriminate Hin.
Defined.

(** * Further properties of the normalization schemas *)

Lemma dict_get_present (raw : raw_dict) (key : string) (v : value) :
  dict_get raw key VNone = v -> v <> VNone -> dict_lookup key raw = Some v.
Proof.
  unfold dict_get. destruct (dict_lookup key raw); intros <- Hne; [reflexivity | congruence].
Qed.

Lemma float_field_escapes (rt : runtime) (raw : raw_dict) (key : string)
    (default : option float) (e : exn) :
  _parse_float (dict_get raw key VNone) default = Raise e -> escapes rt raw e.
Proof.
  intros Hp. apply _parse_float_error in Hp as (-> & z & Hz & Hover).
  left. split; [reflexivity |]. exists key, z. split; [| exact Hover].
  apply dict_get_present; [exact Hz | discriminate].
Qed.

Lemma datetime_field_escapes (rt : runtime) (raw : raw_dict) (key : string) (e : exn) :
  _parse_datetime rt (dict_get raw key VNone) = Raise e -> escapes rt raw e.
Proof.
  intros Hp. apply _parse_datetime_error in Hp as (s & Hs & Hparse & He).
  right. exists key, s. split; [| split; assumption].
  apply dict_get_present; [exact Hs | discriminate].
Qed.

(** Walking down a normalizer that raised to the field that made it. *)
Ltac find_escape rt H :=
  repeat match type of H with
         | context [rbind ?r _] =>
             let E := fresh "E" in
             destruct r eqn:E; cbn [rbind] in H;
             [| injection H as <-;
                first [ now apply (float_field_escapes rt) in E
                      | now apply datetime_field_escapes in E ] ]
         end;
  try discriminate H.

(** X17. What the normalizers let through. If any of the three
    normalizers raises on a payload, the exception is the [OverflowError]
    of [float()] on an integer field of the payload beyond the float
    range, or it was raised by the date parser on a string field of the
    payload and is neither a [ValueError] nor a [TypeError]; no other
    malformed value (wrong type, text that is not a number or a date,
    null, missing key) makes a normalizer raise. *)
Theorem normalizers_raise_only_on_overflow (rt : runtime) (utcnow : datetime)
    (raw : raw_dict) (source : string) (e : exn) :
  normalize_market_from_raw rt raw source = Raise e
  \/ normalize_trade_from_raw rt raw source = Raise e
  \/ normalize_price_snapshot_from_raw rt utcnow raw source = Raise e ->
  escapes rt raw e.
Proof.
  intros [Hn | [Hn | Hn]].
  - unfold normalize_market_from_raw in Hn. find_escape rt Hn.
  - unfold normalize_trade_from_raw in Hn. find_escape rt Hn.
  - unfold normalize_price_snapshot_from_raw in Hn. find_escape rt Hn.
Qed.

(** X17 at a trade whose price is an integer of 401 digits. *)
Lemma normalizers_raise_only_on_overflow_example :
  escapes example_runtime [("id", VStr "trade-456"); ("price", VInt (10 ^ 400))] OverflowError.
Proof.
  apply (normalizers_raise_only_on_overflow example_runtime (datetime_of 2024 1 15 10 30 0)
           [("id", VStr "trade-456"); ("price", VInt (10 ^ 400))] "polymarket" OverflowError).
  right. left. vm_compute. reflexivity.
Defined.

(** ** A run over several pages *)

Section MarketsPage.
Context {S A : Type} `{StorageBackend S} `{MarketAdapter A}.

(** One page of a markets run whose steps succeed, up to the decision to
    go on: the world at that point, and how the run ends from there. *)
Lemma ingest_markets_page (norm : raw_dict -> result Market) (fuel : nat)
    (limit : option Z) (cursor : option string) (flag : bool) (w : world S A) (p : page)
    (ad1 : A) (normalized : list Market) (n : Z) (request_id : string) (st0 st1 : S) :
  let response_data :=
    VDict [("data", raw_list (data p)); ("cursor", opt_str_value cursor)] in
  (forall raw ad, normalize_market raw ad = (norm raw, ad)) ->
  fetch_markets limit cursor (w_adapter w) = (Ok p, ad1) ->
  data p <> [] ->
  (if flag
   then store_raw source_name "markets" response_data VNone (w_storage w)
        = (Ok request_id, st0)
   else st0 = w_storage w) ->
  Forall2 (fun raw m => norm raw = Ok m) (data p) normalized ->
  store_markets normalized st0 = (Ok n, st1) ->
  exists w1,
    w_storage w1 = st1 /\ w_adapter w1 = ad1
    /\ List.filter is_fetch (w_calls w1)
       = List.filter is_fetch (w_calls w) ++ [FetchMarkets limit cursor]
    /\ if cursor_truthy (nextCursor p)
          && match limit with
             | None => true
             | Some k => Z.of_nat (length (data p)) =? k
             end
       then forall more w2,
           ingest_markets fuel limit (nextCursor p) flag w1 = (Ok more, w2) ->
           exists w',
             ingest_markets (Datatypes.S fuel) limit cursor flag w = (Ok (n + more), w')
             /\ w_storage w' = w_storage w2 /\ w_adapter w' = w_adapter w2
             /\ w_calls w' = w_calls w2
       else exists w',
           ingest_markets (Datatypes.S fuel) limit cursor flag w = (Ok n, w')
           /\ w_storage w' = w_storage w1 /\ w_adapter w' = w_adapter w1
           /\ w_calls w' = w_calls w1.
Proof.
  intros response_data Hpure Hfetch Hdata Hraw Hnorm Hstore. subst response_data.
  cbn [ingest_markets]. unfold log_duration, try_except.
  erewrite bind_ok by (apply on_adapter_eq; unfold set_obs; cbn [w_adapter]; exact Hfetch).
  cbn beta.
  destruct (data p) as [| raw raws] eqn:Hraws; [congruence |].
  unfold set_obs. cbn [w_storage w_adapter w_obs w_calls].
  assert (Hfilter : forall (cs extra : list call),
             List.filter is_fetch extra = [] ->
             List.filter is_fetch ((cs ++ [FetchMarkets limit cursor]) ++ extra)
             = List.filter is_fetch cs ++ [FetchMarkets limit cursor]).
  { intros cs extra Hextra. rewrite !filter_app_bool, Hextra. simpl. now rewrite app_nil_r. }
  assert (Hnormcalls : forall raws', List.filter is_fetch (map NormalizeMarket raws') = []).
  { induction raws'; [reflexivity | assumption]. }
  assert (Hrest : forall (o1 : Obs) (cs1 : list call),
             List.filter is_fetch cs1
             = List.filter is_fetch (w_calls w) ++ [FetchMarkets limit cursor] ->
             let w0 := {| w_storage := st0; w_adapter := ad1; w_obs := o1; w_calls := cs1 |} in
             exists w1,
               w_storage w1 = st1 /\ w_adapter w1 = ad1
               /\ List.filter is_fetch (w_calls w1)
                  = List.filter is_fetch (w_calls w) ++ [FetchMarkets limit cursor]
               /\ forall k : Z -> M (world S A) Z,
                   (do! normalized0 <- map_m (fun m => on_adapter (NormalizeMarket m)
                                                         (normalize_market m)) (raw :: raws);
                    do! count <- on_storage (StoreMarkets normalized0)
                                   (store_markets normalized0);
                    do! _ <- metrics_increment "ingestion.markets.stored" count
                               [("source", Some source)];
                    do! _ <- logger Info "ingestion.markets.complete"
                               [("source", FVal (VStr source));
                                ("fetched", FVal (VInt (Z.of_nat (length (raw :: raws)))));
                                ("stored", FVal (VInt count));
                                ("next_cursor", FVal (opt_str_value (nextCursor p)))];
                    k count) w0 = k n w1).
  { intros o1 cs1 Hcs1 w0. subst w0. eexists.
    split; [| split; [| split]]; [| | | intros k;
      erewrite bind_ok by (apply (map_m_normalize NormalizeMarket _ norm); eassumption);
      cbn beta; cbn [w_storage w_adapter w_obs w_calls];
      erewrite bind_ok by (apply on_storage_eq; cbn [w_storage]; exact Hstore);
      cbn beta; cbn [w_storage w_adapter w_obs w_calls];
      erewrite bind_ok by reflexivity; cbn beta;
      erewrite bind_ok by reflexivity; cbn beta;
      unfold set_obs; cbn [w_storage w_adapter w_obs w_calls]; reflexivity];
      cbn [w_storage w_adapter w_calls]; try reflexivity.
    rewrite !filter_app_bool, Hcs1, Hnormcalls. simpl. now rewrite !app_nil_r. }
  set (go_on := cursor_truthy (nextCursor p)
                && match limit with
                   | None => true
                   | Some k => Z.of_nat (length (raw :: raws)) =? k
                   end).
  assert (Hend : forall w0 : world S A,
             (exists w1,
                 w_storage w1 = st1 /\ w_adapter w1 = ad1
                 /\ List.filter is_fetch (w_calls w1)
                    = List.filter is_fetch (w_calls w) ++ [FetchMarkets limit cursor]
                 /\ forall k : Z -> M (world S A) Z,
                     (do! normalized0 <- map_m (fun m => on_adapter (NormalizeMarket m)
                                                           (normalize_market m)) (raw :: raws);
                      do! count <- on_storage (StoreMarkets normalized0)
                                     (store_markets normalized0);
                      do! _ <- metrics_increment "ingestion.markets.stored" count
                                 [("source", Some source)];
                      do! _ <- logger Info "ingestion.markets.complete"
                                 [("source", FVal (VStr source));
                                  ("fetched", FVal (VInt (Z.of_nat (length (raw :: raws)))));
                                  ("stored", FVal (VInt count));
                                  ("next_cursor", FVal (opt_str_value (nextCursor p)))];
                      k count) w0 = k n w1) ->
             forall run : result Z * world S A,
               run = (let (r0, w3) :=
                        let (r1, w'0) :=
                          (do! normalized0 <- map_m (fun m => on_adapter (NormalizeMarket m)
                                                                (normalize_market m))
                                                (raw :: raws);
                           do! count <- on_storage (StoreMarkets normalized0)
                                          (store_markets normalized0);
                           do! _ <- metrics_increment "ingestion.markets.stored" count
                                      [("source", Some source)];
                           do! _ <- logger Info "ingestion.markets.complete"
                                      [("source", FVal (VStr source));
                                       ("fetched",
                                        FVal (VInt (Z.of_nat (length (raw :: raws)))));
                                       ("stored", FVal (VInt count));
                                       ("next_cursor", FVal (opt_str_value (nextCursor p)))];
                           if go_on
                           then do! additional <- ingest_markets fuel limit (nextCursor p) flag;
                                ret (count + additional)
                           else ret count) w0 in
                        match r1 with
                        | Ok x => (Ok x, w'0)
                        | Raise e =>
                            (do! _ <- logger Error "ingestion.markets.error"
                                        [("error", FErr e);
                                         ("error_type", FVal (VStr (exn_name e)))];
                             do! _ <- metrics_increment "ingestion.markets.errors" 1
                                        [("source", Some source)];
                             raise e) w'0
                        end in
                      match r0 with
                      | Ok x =>
                          (Ok x,
                           set_obs
                             (gauge ("ingestion.markets" +:+ ".duration")
                                [("source", Some source)]
                                (emit Info ("ingestion.markets" +:+ ".complete")
                                   (context_fields [("source", Some source)]) (w_obs w3))) w3)
                      | Raise e =>
                          (Raise e,
                           set_obs
                             (increment ("ingestion.markets" +:+ ".errors") 1
                                [("source", Some source)]
                                (emit Error ("ingestion.markets" +:+ ".error")
                                   ([("error", FErr e);
                                     ("error_type", FVal (VStr (exn_name e)))]
                                    ++ context_fields [("source", Some source)])
                                   (w_obs w3))) w3)
                      end) ->
               exists w1,
                 w_storage w1 = st1 /\ w_adapter w1 = ad1
                 /\ List.filter is_fetch (w_calls w1)
                    = List.filter is_fetch (w_calls w) ++ [FetchMarkets limit cursor]
                 /\ if go_on
                    then forall more w2,
                        ingest_markets fuel limit (nextCursor p) flag w1 = (Ok more, w2) ->
                        exists w',
                          run = (Ok (n + more), w')
                          /\ w_storage w' = w_storage w2 /\ w_adapter w' = w_adapter w2
                          /\ w_calls w' = w_calls w2
                    else exists w',
                        run = (Ok n, w')
                        /\ w_storage w' = w_storage w1 /\ w_adapter w' = w_adapter w1
                        /\ w_calls w' = w_calls w1).
  { intros w0 (w1 & H1 & H2 & H3 & H4) run ->. exists w1.
    split; [exact H1 |]. split; [exact H2 |]. split; [exact H3 |].
    rewrite H4. destruct go_on.
    - intros more w2 Hmore. rewrite (bind_ok _ _ _ _ _ Hmore).
      eexists. split; [reflexivity |]. unfold set_obs. cbn [w_storage w_adapter w_calls].
      auto.
    - eexists. split; [reflexivity |]. unfold set_obs. cbn [w_storage w_adapter w_calls].
      auto. }
  destruct flag.
  - erewrite bind_ok
      by (erewrite bind_ok by (apply on_storage_eq; cbn [w_storage]; exact Hraw);
          reflexivity).
    cbn beta. unfold set_obs at 1. cbn [w_storage w_adapter w_obs w_calls].
    eapply Hend; [| reflexivity].
    apply Hrest. cbn [w_calls]. rewrite !filter_app_bool. simpl. now rewrite app_nil_r.
  - subst st0. change (bind (ret tt) ?k) with (k tt). cbn beta.
    eapply Hend; [| reflexivity].
    apply Hrest. cbn [w_calls]. now rewrite filter_app_bool.
Qed.
End MarketsPage.

(** [store_markets] on records the database accepts, with the whole state. *)
Lemma store_markets_accepted_state (st : PostgresStorage.t) (batch : list Market) :
  Forall (fun r => market_accepts (PostgresStorage.engine st) r = Ok tt) batch ->
  PostgresStorage.store_markets batch st =
  (Ok (Z.of_nat (length batch)),
   {| PostgresStorage.engine := PostgresStorage.engine st;
      PostgresStorage.raw_api_responses := PostgresStorage.raw_api_responses st;
      PostgresStorage.markets :=
        fold_left (spec_upsert market_key market_set_columns) batch (PostgresStorage.markets st);
      PostgresStorage.trades := PostgresStorage.trades st;
      PostgresStorage.price_snapshots := PostgresStorage.price_snapshots st;
      PostgresStorage.ingestion_checkpoints := PostgresStorage.ingestion_checkpoints st;
      PostgresStorage.next_uuid := PostgresStorage.next_uuid st;
      PostgresStorage.logged := PostgresStorage.logged st |}).
Proof.
  intros Hall. apply first_refusal_None in Hall.
  now rewrite store_markets_spec, Hall.
Qed.

(** Archiving a markets page in a state with fresh ids. *)
Lemma archive_markets_page (st : PostgresStorage.t) (response_data : value) (flag : bool) :
  fresh_ids st ->
  (flag = true ->
   raw_accepts (PostgresStorage.engine st)
     (archive_row (PostgresStorage.next_uuid st) "polymarket" "markets" response_data VNone)
   = Ok tt) ->
  exists st0,
    (if flag
     then store_raw (S := PostgresStorage.t) "polymarket" "markets" response_data VNone st
          = (Ok (pretty (PostgresStorage.next_uuid st)), st0)
     else st0 = st)
    /\ PostgresStorage.engine st0 = PostgresStorage.engine st
    /\ PostgresStorage.markets st0 = PostgresStorage.markets st
    /\ fresh_ids st0.
Proof.
  intros Hfresh Hacc. destruct flag; [| now exists st].
  cbn [store_raw postgres_backend].
  rewrite store_raw_spec by (apply fresh_request_id, Hfresh).
  unfold archive_row in Hacc. rewrite (Hacc eq_refl).
  eexists. split; [reflexivity |]. split; [reflexivity |]. split; [reflexivity |].
  unfold fresh_ids. cbn [PostgresStorage.raw_api_responses PostgresStorage.next_uuid].
  apply Forall_app. split.
  - eapply Forall_impl; [exact Hfresh | cbn beta; intros; lia].
  - constructor; [cbn [r_request_id]; lia | constructor].
Qed.

(** X18. A markets run follows the pages to the end. Over the relational
    backend and the Polymarket adapter, let the server deliver a sequence
    of non-empty pages such that the run goes on after each page but the
    last (a non-empty next cursor and, if a limit is given, exactly
    [limit] records), and let every record normalize and the database
    accept every record and, when raw archiving is on, the archive row of
    every page. Then a run deep enough for the pages returns the total
    number of records of all pages, so [limit] bounds a page and not the
    run; it has made one fetch per page, the first with the caller's
    cursor and each further one with the cursor the page before
    announced; it has consumed exactly these pages; and the markets table
    holds the upserts of all records in page order. *)
Theorem markets_run_follows_pages (rt : runtime) (limit : option Z) (flag : bool)
    (rest : list (result page)) (clock : datetime) (pages : list page) :
  forall (batches : list (list Market)) (st : PostgresStorage.t) (o : Obs) (cs : list call)
         (fuel : nat) (cursor : option string),
    Forall2 (fun p batch =>
               data p <> []
               /\ Forall2 (fun raw m => normalize_market_from_raw rt raw "polymarket" = Ok m)
                    (data p) batch
               /\ Forall (fun m => market_accepts (PostgresStorage.engine st) m = Ok tt) batch)
      pages batches ->
    (flag = true -> archivable (PostgresStorage.engine st) "polymarket" cursor pages) ->
    chained limit pages ->
    fresh_ids st ->
    (length pages <= fuel)%nat ->
    exists w',
      @ingest_markets _ _ postgres_backend (polymarket_adapter rt) fuel limit cursor flag
        {| w_storage := st;
           w_adapter := {| replies := map Ok pages ++ rest; now := clock |};
           w_obs := o; w_calls := cs |}
      = (Ok (Z.of_nat (length (concat batches))), w')
      /\ PostgresStorage.markets (w_storage w')
         = fold_left (spec_upsert market_key market_set_columns) (concat batches)
             (PostgresStorage.markets st)
      /\ replies (w_adapter w') = rest
      /\ List.filter is_fetch (w_calls w')
         = List.filter is_fetch cs ++ fetches limit cursor pages.
Proof.
  induction pages as [| p pages IH];
    intros batches st o cs fuel cursor Hpages Harch Hchain Hfresh Hfuel; [contradiction |].
  inversion Hpages as [| ? batch ? batches' (Hdata & Hnorm & Hacc) Hrest]; subst.
  destruct fuel as [| fuel]; [simpl in Hfuel; lia |].
  destruct (archive_markets_page st
              (VDict [("data", raw_list (data p)); ("cursor", opt_str_value cursor)])
              flag Hfresh) as (st0 & Hraw & Hengine0 & Hmarkets0 & Hfresh0).
  { intros Hflag. apply (proj1 (Harch Hflag)). }
  rewrite <- Hengine0 in Hacc.
  destruct (@ingest_markets_page _ _ postgres_backend (polymarket_adapter rt)
              (fun raw => normalize_market_from_raw rt raw "polymarket")
              fuel limit cursor flag
              {| w_storage := st;
                 w_adapter := {| replies := map Ok (p :: pages) ++ rest; now := clock |};
                 w_obs := o; w_calls := cs |}
              p {| replies := map Ok pages ++ rest; now := clock |} batch
              (Z.of_nat (length batch)) (pretty (PostgresStorage.next_uuid st)) st0 _
              (fun _ _ => eq_refl) eq_refl Hdata Hraw Hnorm
              (store_markets_accepted_state st0 batch Hacc))
    as (w1 & Hst1 & Had1 & Hcalls1 & Hnext).
  fold (continues limit p) in Hnext.
  destruct w1 as [st1 ad1 o1 cs1]. cbn [w_storage w_adapter w_calls] in *. subst st1 ad1.
  cbn [concat]. rewrite length_app, Nat2Z.inj_add, fold_left_app.
  destruct pages as [| p' pages'].
  - cbn [chained] in Hchain. rewrite Hchain in Hnext. cbv iota in Hnext.
    inversion Hrest; subst. cbn [concat length fold_left]. rewrite Z.add_0_r.
    destruct Hnext as (w' & Hrun & Hst & Had & Hcalls).
    exists w'. split; [exact Hrun |]. rewrite Hst, Had, Hcalls.
    cbn [w_storage w_adapter w_calls PostgresStorage.markets replies map app fetches].
    rewrite Hmarkets0. auto.
  - destruct Hchain as [Hgo Hchain]. rewrite Hgo in Hnext. cbv iota in Hnext.
    destruct (IH batches'
                {| PostgresStorage.engine := PostgresStorage.engine st0;
                   PostgresStorage.raw_api_responses := PostgresStorage.raw_api_responses st0;
                   PostgresStorage.markets :=
                     fold_left (spec_upsert market_key market_set_columns) batch
                       (PostgresStorage.markets st0);
                   PostgresStorage.trades := PostgresStorage.trades st0;
                   PostgresStorage.price_snapshots := PostgresStorage.price_snapshots st0;
                   PostgresStorage.ingestion_checkpoints :=
                     PostgresStorage.ingestion_checkpoints st0;
                   PostgresStorage.next_uuid := PostgresStorage.next_uuid st0;
                   PostgresStorage.logged := PostgresStorage.logged st0 |}
                o1 cs1 fuel (nextCursor p)) as
      (w2 & Hrun2 & Hm2 & Hrep2 & Hcalls2).
    + cbn [PostgresStorage.engine]. rewrite Hengine0. exact Hrest.
    + cbn [PostgresStorage.engine]. rewrite Hengine0. intros Hflag.
      apply (proj2 (Harch Hflag)).
    + exact Hchain.
    + exact Hfresh0.
    + simpl in Hfuel |- *. lia.
    + destruct (Hnext _ _ Hrun2) as (w' & Hrun & Hst & Had & Hcalls).
      exists w'. split; [exact Hrun |]. rewrite Hst, Had, Hcalls, Hm2, Hrep2, Hcalls2, Hcalls1.
      cbn [PostgresStorage.markets fetches]. rewrite Hmarkets0, <- app_assoc.
      auto.
Qed.

(** X18 at two pages of one market each, fetched with limit 1. *)
Lemma markets_run_follows_pages_example :
  exists w',
    @ingest_markets _ _ postgres_backend (polymarket_adapter example_runtime)
      2 (Some 1) None true (example_world two_pages) = (Ok 2, w')
    /\ length (PostgresStorage.markets (w_storage w')) = 2%nat
    /\ List.filter is_fetch (w_calls w')
       = [FetchMarkets (Some 1) None; FetchMarkets (Some 1) (Some "page-2")].
Proof.
  destruct (normalize_market_from_raw example_runtime [("id", VStr "market-1")] "polymarket")
    as [m1 |] eqn:H1; [| vm_compute in H1; discriminate H1].
  destruct (normalize_market_from_raw example_runtime [("id", VStr "market-2")] "polymarket")
    as [m2 |] eqn:H2; [| vm_compute in H2; discriminate H2].
  destruct (markets_run_follows_pages example_runtime (Some 1) true []
              (datetime_of 2024 1 15 10 30 0)
              [{| data := [[("id", VStr "market-1")]]; nextCursor := Some "page-2" |};
               {| data := [[("id", VStr "market-2")]]; nextCursor := None |}]
              [[m1]; [m2]] PostgresStorage.empty obs_empty [] 2%nat None)
    as (w' & Hrun & Hmarkets & _ & Hcalls).
  - vm_compute in H1, H2. injection H1 as <-. injection H2 as <-.
    repeat constructor; discriminate.
  - intros _. repeat split.
  - split; reflexivity.
  - constructor.
  - simpl. lia.
  - exists w'. split; [exact Hrun |]. split; [| exact Hcalls].
    rewrite Hmarkets. vm_compute in H1, H2. injection H1 as <-. injection H2 as <-.
    reflexivity.
Defined.

(** ** The error counters of trades and price snapshots *)

Section CheckpointCount.
Context {S A : Type} `{StorageBackend S} `{MarketAdapter A}.
Context (f : Obs -> Z) (per_level : Z).

Lemma cf_advance_checkpoint (hi : nat) (data_type : string)
    (timestamps : list (option datetime)) :
  counts_failures (fun w : world S A => f (w_obs w)) per_level 0 hi
    (advance_checkpoint data_type timestamps).
Proof.
  unfold advance_checkpoint. destruct timestamps; [apply cf_ret |].
  apply cf_bind; [| intros; apply cf_on_storage].
  intros w. destruct (py_max _); [reflexivity |]. exists 0%nat. split; lia.
Qed.
End CheckpointCount.

(** The keys of the counters involved in a trades or price-snapshot run
    are pairwise different. *)
Lemma handler_key_is_not_exit_key (metric source : string) (market_id : option string) :
  _format_key metric [("source", Some source)]
  <> _format_key metric [("source", Some source); ("market_id", market_id)].
Proof.
  unfold _format_key, sorted_items. simpl. intros Heq.
  assert (Hsuffix : forall a b c : string, a +:+ b = a +:+ c -> b = c).
  { induction a; simpl; intros b c Hbc; [assumption | injection Hbc; auto]. }
  apply Hsuffix in Heq. discriminate Heq.
Qed.

Section TwoKeys.
Context {S A : Type} `{StorageBackend S} `{MarketAdapter A}.
Context (f : Obs -> Z) (per_level by_handler by_exit : Z) (market_id : option string).
Hypothesis f_emit : forall l ev fs o, f (emit l ev fs o) = f o.
Hypothesis f_gauge : forall m tg o, f (gauge m tg o) = f o.
Hypothesis f_sum : by_handler + by_exit = per_level.

(** [ingest_trades] and [ingest_price_snapshots] for a quantity that the
    handler changes by [by_handler] and [log_duration] by [by_exit]. *)
Lemma ingest_trades_counts (limit : option Z) (flag : bool) :
  (forall v o, f (increment "ingestion.trades.stored" v [("source", Some source)] o) = f o) ->
  (forall o, f (increment "ingestion.trades.errors" 1 [("source", Some source)] o)
             = f o + by_handler) ->
  (forall o, f (increment "ingestion.trades.errors" 1
                  [("source", Some source); ("market_id", market_id)] o) = f o + by_exit) ->
  forall fuel since cursor,
    counts_failures (fun w : world S A => f (w_obs w)) per_level 1 (Datatypes.S fuel)
      (ingest_trades (Datatypes.S fuel) market_id since limit cursor flag).
Proof.
  intros Hstored Hhandler Hexit.
  assert (Hstep : forall n,
             (forall since c, counts_failures (fun w : world S A => f (w_obs w)) per_level 0 n
                                (ingest_trades n market_id since limit c flag)) ->
             forall since c, counts_failures (fun w : world S A => f (w_obs w)) per_level 1
                               (Datatypes.S n)
                               (ingest_trades (Datatypes.S n) market_id since limit c flag)).
  { intros n IH since c. cbn [ingest_trades].
    apply (cf_operation f per_level f_emit f_gauge n "ingestion.trades"
             [("source", Some source); ("market_id", market_id)] _
             "ingestion.trades.errors" [("source", Some source)]
             (fun e => [("error", FErr e); ("error_type", FVal (VStr (exn_name e)))])
             by_handler by_exit Hhandler Hexit f_sum).
    apply cf_bind.
    { destruct since; [apply cf_ret |].
      apply cf_bind; [apply cf_on_storage |]. intros [d |]; [| apply cf_ret].
      apply cf_bind; [now apply cf_logger | intros; apply cf_ret]. }
    intros since'. apply cf_bind; [apply cf_on_adapter |]. intros response.
    destruct (data response) as [| raw raws].
    - apply cf_bind; [now apply cf_logger | intros; apply cf_ret].
    - apply cf_bind.
      { destruct flag; [| apply cf_ret].
        apply cf_bind; [apply cf_on_storage | intros; now apply cf_logger]. }
      intros _. apply cf_bind; [apply cf_map_m; intros; apply cf_on_adapter |].
      intros normalized. apply cf_bind; [apply cf_on_storage |]. intros count.
      apply cf_bind; [apply cf_advance_checkpoint |]. intros _.
      apply cf_bind; [now apply cf_metrics_increment |].
      intros _. apply cf_bind; [now apply cf_logger |]. intros _.
      match goal with |- counts_failures _ _ _ _ (if ?b then _ else _) => destruct b end;
        [| apply cf_ret].
      apply cf_bind; [apply IH | intros; apply cf_ret]. }
  assert (Hall : forall n since c,
             counts_failures (fun w : world S A => f (w_obs w)) per_level 0 n
               (ingest_trades n market_id since limit c flag)).
  { induction n as [| n IH]; intros since c; [apply cf_raise |].
    apply (cf_weaken f per_level 1 (Datatypes.S n)); [lia | now apply Hstep]. }
  intros fuel since cursor. apply Hstep, Hall.
Qed.

Lemma ingest_price_snapshots_counts (since : option datetime) (flag : bool) :
  (forall v o, f (increment "ingestion.prices.stored" v [("source", Some source)] o) = f o) ->
  (forall o, f (increment "ingestion.prices.errors" 1 [("source", Some source)] o)
             = f o + by_handler) ->
  (forall o, f (increment "ingestion.prices.errors" 1
                  [("source", Some source); ("market_id", market_id)] o) = f o + by_exit) ->
  counts_failures (fun w : world S A => f (w_obs w)) per_level 1 1
    (ingest_price_snapshots market_id since flag).
Proof.
  intros Hstored Hhandler Hexit. unfold ingest_price_snapshots.
  apply (cf_operation f per_level f_emit f_gauge 0 "ingestion.prices"
           [("source", Some source); ("market_id", market_id)] _
           "ingestion.prices.errors" [("source", Some source)]
           (fun e => [("error", FErr e); ("error_type", FVal (VStr (exn_name e)))])
           by_handler by_exit Hhandler Hexit f_sum).
  apply cf_bind; [apply cf_on_adapter |]. intros response.
  destruct (data response) as [| raw raws].
  - apply cf_bind; [now apply cf_logger | intros; apply cf_ret].
  - apply cf_bind.
    { destruct flag; [| apply cf_ret].
      apply cf_bind; [apply cf_on_storage | intros; now apply cf_logger]. }
    intros _. apply cf_bind; [apply cf_map_m; intros; apply cf_on_adapter |].
    intros normalized. apply cf_bind; [apply cf_on_storage |]. intros count.
    apply cf_bind; [apply cf_advance_checkpoint |]. intros _.
    apply cf_bind; [now apply cf_metrics_increment |].
    intros _. apply cf_bind; [now apply cf_logger | intros; apply cf_ret].
Qed.
End TwoKeys.

(** X19. Failures of trades and price-snapshot runs are counted once
    under each of two keys. The handler of the operation increments the
    errors counter tagged with the source, [log_duration] the counter of
    the same name tagged with the source and the market id. For every
    storage backend and adapter: a run that returns leaves both counters
    as they were; a trades run that raises has added to each of them the
    number of nested [ingest_trades] calls the exception passed through,
    between one and the depth of the pagination; and a price-snapshot run
    that raises has added exactly one to each. *)
Theorem failures_counted_under_two_keys (S A : Type) (B : StorageBackend S)
    (Ad : MarketAdapter A) (fuel : nat) (market_id : option string)
    (since : option datetime) (limit : option Z) (cursor : option string) (flag : bool)
    (w : world S A) :
  let by_handler (metric : string) (o : Obs) :=
    get_counter metric [("source", Some source_name)] o in
  let by_exit (metric : string) (o : Obs) :=
    get_counter metric [("source", Some source_name); ("market_id", market_id)] o in
  match ingest_trades (Datatypes.S fuel) market_id since limit cursor flag w with
  | (Ok _, w') =>
      by_handler "ingestion.trades.errors" (w_obs w')
      = by_handler "ingestion.trades.errors" (w_obs w)
      /\ by_exit "ingestion.trades.errors" (w_obs w')
         = by_exit "ingestion.trades.errors" (w_obs w)
  | (Raise _, w') =>
      exists depth : nat,
        (1 <= depth <= Datatypes.S fuel)%nat
        /\ by_handler "ingestion.trades.errors" (w_obs w')
           = by_handler "ingestion.trades.errors" (w_obs w) + Z.of_nat depth
        /\ by_exit "ingestion.trades.errors" (w_obs w')
           = by_exit "ingestion.trades.errors" (w_obs w) + Z.of_nat depth
  end
  /\ match ingest_price_snapshots market_id since flag w with
     | (Ok _, w') =>
         by_handler "ingestion.prices.errors" (w_obs w')
         = by_handler "ingestion.prices.errors" (w_obs w)
         /\ by_exit "ingestion.prices.errors" (w_obs w')
            = by_exit "ingestion.prices.errors" (w_obs w)
     | (Raise _, w') =>
         by_handler "ingestion.prices.errors" (w_obs w')
         = by_handler "ingestion.prices.errors" (w_obs w) + 1
         /\ by_exit "ingestion.prices.errors" (w_obs w')
            = by_exit "ingestion.prices.errors" (w_obs w) + 1
     end.
Proof.
  intros by_handler by_exit.
  assert (Hkeys : forall metric,
             _format_key metric [("source", Some source_name)]
             <> _format_key metric [("source", Some source_name); ("market_id", market_id)])
    by (intros; apply handler_key_is_not_exit_key).
  assert (Hh : forall metric,
             (forall l ev fs o, by_handler metric (emit l ev fs o) = by_handler metric o)
             /\ (forall m tg o, by_handler metric (gauge m tg o) = by_handler metric o)
             /\ (forall o, by_handler metric (increment metric 1 [("source", Some source)] o)
                           = by_handler metric o + 1)
             /\ (forall o, by_handler metric
                             (increment metric 1
                                [("source", Some source); ("market_id", market_id)] o)
                           = by_handler metric o + 0)).
  { intros metric. unfold by_handler, source. split; [| split; [| split]]; intros.
    - apply get_counter_emit.
    - apply get_counter_gauge.
    - apply get_counter_increment.
    - rewrite Z.add_0_r. apply get_counter_increment_other.
      intros Heq. apply (Hkeys metric). now symmetry. }
  set (diff := fun metric o => by_exit metric o - by_handler metric o).
  assert (Hd : forall metric,
             (forall l ev fs o, diff metric (emit l ev fs o) = diff metric o)
             /\ (forall m tg o, diff metric (gauge m tg o) = diff metric o)
             /\ (forall o, diff metric (increment metric 1 [("source", Some source)] o)
                           = diff metric o + -1)
             /\ (forall o, diff metric
                             (increment metric 1
                                [("source", Some source); ("market_id", market_id)] o)
                           = diff metric o + 1)).
  { intros metric. unfold diff, by_exit, by_handler, source.
    split; [| split; [| split]]; intros.
    - now rewrite !get_counter_emit.
    - now rewrite !get_counter_gauge.
    - rewrite get_counter_increment.
      rewrite get_counter_increment_other by apply Hkeys. lia.
    - rewrite get_counter_increment.
      rewrite get_counter_increment_other
        by (intros Heq; apply (Hkeys metric); now symmetry). lia. }
  assert (Hstored : forall stored metric : string,
             _format_key stored [("source", Some source_name)]
             <> _format_key metric [("source", Some source_name)] ->
             _format_key stored [("source", Some source_name)]
             <> _format_key metric [("source", Some source_name); ("market_id", market_id)] ->
             (forall v o, by_handler metric
                            (increment stored v [("source", Some source)] o)
                          = by_handler metric o)
             /\ (forall v o, diff metric (increment stored v [("source", Some source)] o)
                             = diff metric o)).
  { intros stored metric Hne1 Hne2. unfold diff, by_exit, by_handler, source. split; intros.
    - now apply get_counter_increment_other.
    - now rewrite !get_counter_increment_other. }
  split.
  - destruct (Hh "ingestion.trades.errors") as (He & Hg & Hi1 & Hi2).
    destruct (Hd "ingestion.trades.errors") as (Hde & Hdg & Hdi1 & Hdi2).
    destruct (Hstored "ingestion.trades.stored" "ingestion.trades.errors")
      as [Hs Hds]; [simpl; discriminate | unfold _format_key; simpl; discriminate |].
    pose proof (ingest_trades_counts (by_handler "ingestion.trades.errors") 1 1 0 market_id
                  He Hg eq_refl limit flag Hs Hi1 Hi2 fuel since cursor w) as Hcount.
    pose proof (ingest_trades_counts (diff "ingestion.trades.errors") 0 (-1) 1 market_id
                  Hde Hdg eq_refl limit flag Hds Hdi1 Hdi2 fuel since cursor w) as Hdiff.
    destruct (ingest_trades (Datatypes.S fuel) market_id since limit cursor flag w)
      as [[n | e] w']; cbn beta in Hcount, Hdiff; unfold diff in Hdiff.
    + split; [exact Hcount | lia].
    + destruct Hcount as (d & Hrange & Hc). destruct Hdiff as (d' & _ & Hc').
      exists d. split; [exact Hrange |]. split; lia.
  - destruct (Hh "ingestion.prices.errors") as (He & Hg & Hi1 & Hi2).
    destruct (Hd "ingestion.prices.errors") as (Hde & Hdg & Hdi1 & Hdi2).
    destruct (Hstored "ingestion.prices.stored" "ingestion.prices.errors")
      as [Hs Hds]; [simpl; discriminate | unfold _format_key; simpl; discriminate |].
    pose proof (ingest_price_snapshots_counts (by_handler "ingestion.prices.errors") 1 1 0
                  market_id He Hg eq_refl since flag Hs Hi1 Hi2 w) as Hcount.
    pose proof (ingest_price_snapshots_counts (diff "ingestion.prices.errors") 0 (-1) 1
                  market_id Hde Hdg eq_refl since flag Hds Hdi1 Hdi2 w) as Hdiff.
    destruct (ingest_price_snapshots market_id since flag w)
      as [[n | e] w']; cbn beta in Hcount, Hdiff; unfold diff in Hdiff.
    + split; [exact Hcount | lia].
    + destruct Hcount as (d & Hrange & Hc). destruct Hdiff as (d' & _ & Hc').
      split; lia.
Qed.

(** ** Records without an identifier *)








Section Overwrite.
Context {R K : Type} `{EqDecision K}.
Context (key : R -> K) (set_columns : R -> R -> R).
Hypothesis set_columns_same_key :
  forall existing incoming, key existing = key incoming ->
                            set_columns existing incoming = incoming.

End Overwrite.



(** ** What the normalizers hand to the tables *)

(** With a default given, [_parse_float] never returns [None]. *)
Lemma _parse_float_defaulted (v : value) (d : float) (o : option float) :
  _parse_float v (Some d) = Ok o -> exists x, o = Some x.
Proof.
  destruct v as [| b | z | x | s | l | kv | dt]; simpl;
    try (intros [= <-]; eauto).
  - destruct (float_of_int z); [| destruct (is_value_or_type_error _)];
      intros [= <-]; eauto.
  - destruct (float_of_str s); [| destruct (is_value_or_type_error _)];
      intros [= <-]; eauto.
Qed.

(** A single record the database accepts is stored under its key. *)
Lemma store_one_snapshot (st : PostgresStorage.t) (s : PriceSnapshot) :
  snapshot_accepts (PostgresStorage.engine st) s = Ok tt ->
  exists st',
    PostgresStorage.store_price_snapshots [s] st = (Ok 1, st')
    /\ lookup_row snapshot_key (snapshot_key s) (PostgresStorage.price_snapshots st') = Some s.
Proof.
  intros Hacc.
  destruct (store_price_snapshots_accepted st [s]) as (st' & Hstore & _ & Htable);
    [now constructor |].
  exists st'. split; [exact Hstore |]. rewrite Htable. cbn [fold_left].
  apply (spec_upsert_lookup _ _ snapshot_same_key).
Qed.

(** X20. Which [nullable=False] columns a normalized record can leave
    empty. A price snapshot the normalizer returns leaves none empty: a
    database that can write its values stores it, and
    [store_price_snapshots] returns 1. A trade the normalizer returns
    always carries a price and a quantity; it lacks its timestamp exactly
    when the payload's timestamp was missing, null or unusable, and then
    a database that can write its values refuses it with [IntegrityError]
    for that column. A market the normalizer returns lacks its question
    exactly when the payload's question is null, and then a database that
    can write its values refuses it with [IntegrityError] for that
    column. *)
Theorem normalized_records_and_not_null (rt : runtime) (utcnow : datetime) (raw : raw_dict)
    (source : string) :
  (forall s,
      normalize_price_snapshot_from_raw rt utcnow raw source = Ok s ->
      snapshot_not_null s = Ok tt
      /\ forall st,
          snapshot_values (PostgresStorage.engine st) s = Ok tt ->
          exists st',
            PostgresStorage.store_price_snapshots [s] st = (Ok 1, st')
            /\ lookup_row snapshot_key (snapshot_key s) (PostgresStorage.price_snapshots st')
               = Some s)
  /\ (forall t,
        normalize_trade_from_raw rt raw source = Ok t ->
        is_Some (t_price t) /\ is_Some (t_quantity t)
        /\ (is_Some (t_timestamp t) /\ trade_not_null t = Ok tt
            \/ t_timestamp t = None
               /\ _parse_datetime rt (dict_get raw "timestamp" VNone) = Ok None
               /\ trade_not_null t = Raise (IntegrityError "timestamp")
               /\ forall st,
                   trade_values (PostgresStorage.engine st) t = Ok tt ->
                   fst (PostgresStorage.store_trades [t] st)
                   = Raise (IntegrityError "timestamp")))
  /\ (forall m,
        normalize_market_from_raw rt raw source = Ok m ->
        m_question m <> VNone /\ market_not_null m = Ok tt
        \/ dict_lookup "question" raw = Some VNone
           /\ market_not_null m = Raise (IntegrityError "question")
           /\ forall st,
               market_values (PostgresStorage.engine st) m = Ok tt ->
               fst (PostgresStorage.store_markets [m] st)
               = Raise (IntegrityError "question")).
Proof.
  split; [| split].
  - intros s Hn.
    assert (Hnull : snapshot_not_null s = Ok tt).
    { unfold normalize_price_snapshot_from_raw in Hn.
      do 2 step_rbind Hn.
      match goal with E : _parse_float _ (Some _) = Ok _ |- _ =>
        apply _parse_float_defaulted in E as (x & ->) end.
      do 6 step_rbind Hn. injection Hn as <-. reflexivity. }
    split; [exact Hnull |]. intros st Hvalues. apply store_one_snapshot.
    unfold snapshot_accepts. now rewrite Hvalues.
  - intros t Hn. unfold normalize_trade_from_raw in Hn.
    step_rbind Hn.
    match goal with E : _parse_float _ (Some _) = Ok _ |- _ =>
      apply _parse_float_defaulted in E as (p & ->) end.
    step_rbind Hn.
    match goal with E : _parse_float _ (Some _) = Ok _ |- _ =>
      apply _parse_float_defaulted in E as (q & ->) end.
    step_rbind Hn. injection Hn as <-.
    cbn [t_price t_quantity t_timestamp]. split; [eauto |]. split; [eauto |].
    match goal with E : _parse_datetime _ _ = Ok ?a |- _ => destruct a as [ts |] end.
    + left. split; [eauto | reflexivity].
    + right. split; [reflexivity |]. split; [reflexivity |]. split; [reflexivity |].
      intros st Hvalues. rewrite store_trades_spec. cbn [first_refusal].
      unfold trade_accepts. rewrite Hvalues. reflexivity.
  - intros m Hn. unfold normalize_market_from_raw in Hn.
    do 5 step_rbind Hn. injection Hn as <-. cbn [m_question].
    unfold market_not_null. cbn [m_question].
    destruct (dict_get raw "question" (VStr "")) as [| | | | | | |] eqn:Hq;
      try (left; split; [discriminate | reflexivity]).
    right. split.
    { unfold dict_get in Hq. destruct (dict_lookup "question" raw); congruence. }
    split; [reflexivity |].
    intros st Hvalues. rewrite store_markets_spec. cbn [first_refusal].
    unfold market_accepts. rewrite Hvalues. reflexivity.
Qed.

(** X20 at a snapshot payload without a timestamp, which is stored, and at
    a market payload whose question is null, which is refused. *)
Lemma normalized_records_and_not_null_example :
  (exists s st',
      normalize_price_snapshot_from_raw example_runtime (datetime_of 2024 1 15 10 30 0)
        untimed_snapshot_payload "polymarket" = Ok s
      /\ PostgresStorage.store_price_snapshots [s] PostgresStorage.empty = (Ok 1, st'))
  /\ (exists m,
        normalize_market_from_raw example_runtime unasked_market_payload "polymarket" = Ok m
        /\ m_question m = VNone
        /\ fst (PostgresStorage.store_markets [m] PostgresStorage.empty)
           = Raise (IntegrityError "question")).
Proof.
  split.
  - destruct (normalize_price_snapshot_from_raw example_runtime (datetime_of 2024 1 15 10 30 0)
                untimed_snapshot_payload "polymarket") as [s |] eqn:Hs;
      [| vm_compute in Hs; discriminate Hs].
    destruct (proj1 (normalized_records_and_not_null example_runtime
                       (datetime_of 2024 1 15 10 30 0) untimed_snapshot_payload "polymarket")
                s Hs) as [_ Hstore].
    destruct (Hstore PostgresStorage.empty) as (st' & Hst & _).
    + vm_compute in Hs. injection Hs as <-. reflexivity.
    + exists s, st'. split; [reflexivity | exact Hst].
  - destruct (normalize_market_from_raw example_runtime unasked_market_payload "polymarket")
      as [m |] eqn:Hm; [| vm_compute in Hm; discriminate Hm].
    destruct (proj2 (proj2 (normalized_records_and_not_null example_runtime
                       (datetime_of 2024 1 15 10 30 0) unasked_market_payload "polymarket"))
                m Hm) as [[Hq _] | (_ & _ & Hstore)].
    + exfalso. apply Hq. vm_compute in Hm. injection Hm as <-. reflexivity.
    + exists m. split; [reflexivity |].
      split; [vm_compute in Hm; injection Hm as <-; reflexivity |].
      apply Hstore. vm_compute in Hm. injection Hm as <-. reflexivity.
Defined.
